(** * Hotel FIR dashboard: the issue store client and the logic of the UI shell

    A shallow embedding of the repository's two implementations of the issue
    store client and of the pure logic of the React component:

    - [App]: the single-file application (initialisation guards, the
      filtered live subscription with its in-memory sort, [createNewIssue],
      [updateIssueField], the display-id allocator, [handleSubmit] and the
      search filter [filteredFirs]);
    - [FirestoreApi]: the stand-alone module [src/firestore-api.js], which
      exports functions of the same names with other constants.

    JavaScript values are modelled dynamically: a document is a finite map
    from field names to values, as [doc.data()] has it.  Strings are
    sequences of 8-bit code units (the Latin-1 part of UTF-16), on which
    [toLowerCase] works unit by unit; text beyond Latin-1, where it does
    not, is outside the model, and what is stated letter by letter is
    stated for ASCII text.  Numbers are
    exact integers plus [NaN]; this coincides with IEEE doubles up to
    [MAX_SAFE_INTEGER], and statements about printed digits stay in that
    range.  The Firebase SDK (Firestore, Storage) is the environment: its
    documented behaviour is modelled in [Backend]. *)

From Stdlib Require Import ZArith NArith Ascii String List Sorting.Sorted Sorting.Permutation Lia.
From stdpp Require Import base strings gmap list.

Local Open Scope Z_scope.

(** ** JavaScript values *)

Inductive number :=
| NaN
| Num (z : Z).

Inductive value :=
| VNull
| VBool (b : bool)
| VNum (n : number)
| VStr (s : string)
| VTimestamp (seconds nanoseconds : Z)
| VServerTimestamp.

(** A plain object: [doc.data()], the issue handed to the UI, a patch. *)
Abbreviation jsobj := (gmap string value).

Inductive error :=
| TypeError (msg : string)
| Error (msg : string)
| FirebaseError (code : string).

Inductive result (A : Type) :=
| Ok (a : A)
| Throw (e : error).
Arguments Ok {A} a.
Arguments Throw {A} e.

Definition MAX_SAFE_INTEGER : Z := 2 ^ 53 - 1.

(** ** String and number primitives *)

Module Js.

Definition code (c : ascii) : N := N_of_ascii c.

Definition is_digit (c : ascii) : bool :=
  ((48 <=? code c) && (code c <=? 57))%N.

Definition digit_value (c : ascii) : option N :=
  if is_digit c then Some (code c - 48)%N else None.

Definition digit_char (d : N) : ascii := ascii_of_N (48 + d).

(** [StrWhiteSpaceChar] among the 8-bit code units: TAB, LF, VT, FF, CR,
    SP and NBSP. *)
Definition is_whitespace (c : ascii) : bool :=
  ((9 <=? code c) && (code c <=? 13) || (code c =? 32) || (code c =? 160))%N.

Fixpoint trim_start (s : string) : string :=
  match s with
  | String c s' => if is_whitespace c then trim_start s' else s
  | EmptyString => EmptyString
  end.

(** The longest prefix of decimal digits, read most significant first;
    [None] when there is no digit. *)
Fixpoint parse_digits (s : string) (acc : option N) : option N :=
  match s with
  | String c s' =>
      match digit_value c with
      | Some d => parse_digits s' (Some (10 * default 0 acc + d)%N)
      | None => acc
      end
  | EmptyString => acc
  end.

(** [parseInt(s, 10)]. *)
Definition parseInt (s : string) : number :=
  let s1 := trim_start s in
  let '(sign, s2) :=
    match s1 with
    | String c r =>
        if (code c =? 45)%N then (-1, r)
        else if (code c =? 43)%N then (1, r)
        else (1, s1)
    | EmptyString => (1, s1)
    end in
  match parse_digits s2 None with
  | Some n => Num (sign * Z.of_N n)
  | None => NaN
  end.

(** Decimal digits of a natural number, least significant digit first into
    the accumulator; the fuel is the number of bits, which bounds the number
    of digits. *)
Fixpoint dec_digits (fuel : nat) (n : N) (acc : string) : string :=
  match fuel with
  | O => acc
  | S fuel' =>
      let acc' := String (digit_char (n mod 10)) acc in
      if (n / 10 =? 0)%N then acc' else dec_digits fuel' (n / 10) acc'
  end.

Definition decimal (n : N) : string :=
  dec_digits (S (N.to_nat (N.size n))) n EmptyString.

(** [String(x)] for a number. *)
Definition String_ (x : number) : string :=
  match x with
  | NaN => "NaN"
  | Num z => if z <? 0 then String "-" (decimal (Z.to_N (- z))) else decimal (Z.to_N z)
  end.

Fixpoint repeat_char (c : ascii) (n : nat) : string :=
  match n with
  | O => EmptyString
  | S n' => String c (repeat_char c n')
  end.

(** [s.padStart(n, c)] with a one-character filler. *)
Definition padStart (n : nat) (c : ascii) (s : string) : string :=
  repeat_char c (n - String.length s) +:+ s.

(** [s.slice(n)] for [n >= 0]. *)
Fixpoint slice (n : nat) (s : string) : string :=
  match n, s with
  | O, _ => s
  | S n', String _ s' => slice n' s'
  | S _, EmptyString => EmptyString
  end.

(** [toLowerCase] on the Latin-1 code units: A-Z, and the accented capitals
    U+00C0-U+00DE without the multiplication sign U+00D7. *)
Definition lower_char (c : ascii) : ascii :=
  let n := code c in
  if ((65 <=? n) && (n <=? 90)
      || (192 <=? n) && (n <=? 222) && negb (n =? 215))%N
  then ascii_of_N (n + 32) else c.

Fixpoint toLowerCase (s : string) : string :=
  match s with
  | String c s' => String (lower_char c) (toLowerCase s')
  | EmptyString => EmptyString
  end.

Fixpoint startsWith (t s : string) : bool :=
  match t, s with
  | EmptyString, _ => true
  | String a t', String b s' => if Ascii.eqb a b then startsWith t' s' else false
  | String _ _, EmptyString => false
  end.

(** [s.includes(t)]. *)
Fixpoint includes (s t : string) : bool :=
  startsWith t s ||
  match s with
  | String _ s' => includes s' t
  | EmptyString => false
  end.

(** [x > y] on numbers: false as soon as one side is [NaN]. *)
Definition gt (x y : number) : bool :=
  match x, y with
  | Num a, Num b => b <? a
  | _, _ => false
  end.

(** [x + 1]. *)
Definition succ (x : number) : number :=
  match x with
  | Num a => Num (a + 1)
  | NaN => NaN
  end.

End Js.

(** [Array.prototype.sort(cmp)]: the sort is stable, so with a consistent
    comparator its result is the one of insertion from the right, where an
    element stays in front of the elements it does not compare greater
    than. *)
Module JsArray.
Section Sort.
Context {A : Type} (cmp : A → A → Z).

Fixpoint insert_sorted (x : A) (l : list A) : list A :=
  match l with
  | [] => [x]
  | y :: l' => if cmp x y <=? 0 then x :: y :: l' else y :: insert_sorted x l'
  end.

Fixpoint sort (l : list A) : list A :=
  match l with
  | [] => []
  | x :: l' => insert_sorted x (sort l')
  end.

(** [x] may stand in front of [y]. *)
Definition in_order (x y : A) : Prop := cmp x y ≤ 0.
End Sort.
End JsArray.

(** ** The environment: clock, Cloud Firestore and Cloud Storage *)

Record file := {
  file_name : string;
  file_bytes : string;
}.

(** What reached the backend, oldest first. *)
Inductive event :=
| Uploaded (path : string)
| GotDownloadURL (path : string)
| Added (collection id : string)
| Updated (collection id : string).

(** The state of the environment.  A collection keeps its documents, each
    under its id, in the order the server lists them; [clock] is what
    [Date.now()] reads, in milliseconds, and stays the same during one
    call; [next_id] feeds the automatic document ids; [firestore_up] and
    [storage_up] tell whether the service answers or rejects; [url_of] is
    the download URL the storage service gives for a path and
    [locale_string] the rendering of a date by [toLocaleString]. *)
Record world := {
  firestore : gmap string (list (string * jsobj));
  bucket : gmap string file;
  clock : Z;
  next_id : N;
  firestore_up : bool;
  storage_up : bool;
  url_of : string → string;
  locale_string : Z → string;
  log : list event;
}.

Definition set_firestore (fs : gmap string (list (string * jsobj))) (w : world) : world :=
  {| firestore := fs; bucket := bucket w; clock := clock w; next_id := next_id w;
     firestore_up := firestore_up w; storage_up := storage_up w;
     url_of := url_of w; locale_string := locale_string w; log := log w |}.

Definition set_bucket (b : gmap string file) (w : world) : world :=
  {| firestore := firestore w; bucket := b; clock := clock w; next_id := next_id w;
     firestore_up := firestore_up w; storage_up := storage_up w;
     url_of := url_of w; locale_string := locale_string w; log := log w |}.

Definition set_next_id (n : N) (w : world) : world :=
  {| firestore := firestore w; bucket := bucket w; clock := clock w; next_id := n;
     firestore_up := firestore_up w; storage_up := storage_up w;
     url_of := url_of w; locale_string := locale_string w; log := log w |}.

Definition record (e : event) (w : world) : world :=
  {| firestore := firestore w; bucket := bucket w; clock := clock w; next_id := next_id w;
     firestore_up := firestore_up w; storage_up := storage_up w;
     url_of := url_of w; locale_string := locale_string w; log := log w ++ [e] |}.

(** An asynchronous computation: it ends with a value or rejects, and the
    effects made before a rejection stay. *)
Definition M (A : Type) : Type := world → result A * world.

Definition ret {A} (a : A) : M A := λ w, (Ok a, w).

Definition throw {A} (e : error) : M A := λ w, (Throw e, w).

Definition bind {A B} (m : M A) (k : A → M B) : M B := λ w,
  match m w with
  | (Ok a, w') => k a w'
  | (Throw e, w') => (Throw e, w')
  end.

Notation "'let*' x := m 'in' k" := (bind m (λ x, k))
  (at level 10, x name, m at level 100, k at level 200).

#[global] Instance number_eq_dec : EqDecision number.
Proof. solve_decision. Defined.

#[global] Instance value_eq_dec : EqDecision value.
Proof. solve_decision. Defined.

Module Backend.

Definition Date_now : M Z := λ w, (Ok (clock w), w).

(** [Timestamp.fromMillis] *)
Definition timestamp_of_millis (ms : Z) : value :=
  VTimestamp (ms / 1000) ((ms mod 1000) * 1000000).

Definition Timestamp_now : M value := λ w, (Ok (timestamp_of_millis (clock w)), w).

(** [new Date().toLocaleString()] *)
Definition Date_toLocaleString : M string := λ w, (Ok (locale_string w (clock w)), w).

(** [uploadBytes(ref(storage, path), file)] resolves to a snapshot whose
    [ref] is the same path. *)
Definition uploadBytes (path : string) (f : file) : M string := λ w,
  if storage_up w
  then (Ok path, record (Uploaded path) (set_bucket (<[path := f]> (bucket w)) w))
  else (Throw (FirebaseError "storage/retry-limit-exceeded"), w).

Definition getDownloadURL (path : string) : M string := λ w,
  if storage_up w
  then match bucket w !! path with
       | Some _ => (Ok (url_of w path), record (GotDownloadURL path) w)
       | None => (Throw (FirebaseError "storage/object-not-found"), w)
       end
  else (Throw (FirebaseError "storage/retry-limit-exceeded"), w).

(** The server replaces the [serverTimestamp()] sentinel when it commits. *)
Definition resolve (now : Z) (v : value) : value :=
  match v with
  | VServerTimestamp => timestamp_of_millis now
  | _ => v
  end.

Definition docs_at (w : world) (path : string) : list (string * jsobj) :=
  default [] (firestore w !! path).

(** [addDoc(collection(db, path), data)] resolves to the new id. *)
Definition addDoc (path : string) (data : jsobj) : M string := λ w,
  if firestore_up w
  then
    let id := "doc" +:+ Js.decimal (next_id w) in
    let stored := resolve (clock w) <$> data in
    (Ok id,
     record (Added path id)
       (set_next_id (next_id w + 1)
          (set_firestore (<[path := docs_at w path ++ [(id, stored)]]> (firestore w)) w)))
  else (Throw (FirebaseError "unavailable"), w).

(** The fields of the patch replace those of the document, the others
    stay; the ids of a collection are distinct, so the first document under
    the id is the one. *)
Fixpoint update_docs (id : string) (patch : jsobj) (docs : list (string * jsobj))
  : option (list (string * jsobj)) :=
  match docs with
  | [] => None
  | (i, d) :: rest =>
      if decide (i = id) then Some ((i, patch ∪ d) :: rest)
      else cons (i, d) <$> update_docs id patch rest
  end.

(** [updateDoc(doc(db, path, id), patch)] *)
Definition updateDoc (path id : string) (patch : jsobj) : M unit := λ w,
  if firestore_up w
  then match update_docs id (resolve (clock w) <$> patch) (docs_at w path) with
       | Some docs' =>
           (Ok tt, record (Updated path id) (set_firestore (<[path := docs']> (firestore w)) w))
       | None => (Throw (FirebaseError "not-found"), w)
       end
  else (Throw (FirebaseError "unavailable"), w).

(** *** Queries *)

Inductive direction := Asc | Desc.

Record query := {
  q_path : string;
  q_where : list (string * value);
  q_orderBy : option (string * direction);
}.

Definition collection (path : string) : query :=
  {| q_path := path; q_where := []; q_orderBy := None |}.

(** [query(q, where(field, "==", v))] *)
Definition where_eq (field : string) (v : value) (q : query) : query :=
  {| q_path := q_path q; q_where := q_where q ++ [(field, v)]; q_orderBy := q_orderBy q |}.

(** [query(q, orderBy(field, dir))] *)
Definition orderBy (field : string) (dir : direction) (q : query) : query :=
  {| q_path := q_path q; q_where := q_where q; q_orderBy := Some (field, dir) |}.

Definition satisfies (d : jsobj) (c : string * value) : bool :=
  bool_decide (d !! c.1 = Some c.2).

(** The order of Firestore on the values of a field: by type first (null,
    boolean, number, timestamp, string), then inside the type. *)
Definition type_rank (v : value) : Z :=
  match v with
  | VNull => 0
  | VBool _ => 1
  | VNum _ => 2
  | VTimestamp _ _ | VServerTimestamp => 3
  | VStr _ => 4
  end.

Definition sign_of (c : comparison) : Z :=
  match c with
  | Lt => -1
  | Eq => 0
  | Gt => 1
  end.

Definition value_cmp (a b : value) : Z :=
  match a, b with
  | VBool x, VBool y => sign_of (Bool.compare x y)
  | VNum NaN, VNum NaN => 0
  | VNum NaN, VNum (Num _) => -1
  | VNum (Num _), VNum NaN => 1
  | VNum (Num x), VNum (Num y) => sign_of (x ?= y)
  | VTimestamp s n, VTimestamp s' n' =>
      if s =? s' then sign_of (n ?= n') else sign_of (s ?= s')
  | VStr x, VStr y => sign_of (String.compare x y)
  | _, _ => sign_of (type_rank a ?= type_rank b)
  end.

Definition field_cmp (field : string) (dir : direction) (x y : string * jsobj) : Z :=
  match x.2 !! field, y.2 !! field with
  | Some a, Some b =>
      match dir with
      | Asc => value_cmp a b
      | Desc => value_cmp b a
      end
  | _, _ => 0
  end.

(** A document without the field of an [orderBy] is not returned. *)
Definition server_order (field : string) (dir : direction)
    (docs : list (string * jsobj)) : list (string * jsobj) :=
  JsArray.sort (field_cmp field dir)
    (List.filter (λ d, bool_decide (is_Some (d.2 !! field))) docs).

(** The documents of a snapshot of the query, in order. *)
Definition run_query (q : query) (w : world) : list (string * jsobj) :=
  let hits := List.filter (λ d, forallb (satisfies d.2) (q_where q)) (docs_at w (q_path q)) in
  match q_orderBy q with
  | Some (field, dir) => server_order field dir hits
  | None => hits
  end.

End Backend.

(** [{ id: doc.id, ...doc.data() }]: the spread comes last, so a stored
    field named [id] wins over the document id. *)
Definition issue_of_doc (d : string * jsobj) : jsobj :=
  d.2 ∪ {[ "id" := VStr d.1 ]}.

(** The state of the submission form. *)
Record form := {
  roomNumber : string;
  issueTitle : string;
  description : string;
  priority : string;
  imageFile : option file;
}.

(** A string is falsy when it is empty. *)
Definition truthy (s : string) : bool :=
  match s with
  | EmptyString => false
  | String _ _ => true
  end.

(** A user id is [null] or a string. *)
Definition falsy_id (userId : option string) : bool :=
  match userId with
  | Some s => negb (truthy s)
  | None => true
  end.

(** ** The application (single-file component) *)

Module App.

(** The module-level variables set by [initializeFirebase]: whether [db]
    and [storage] hold a handle, and [appId]. *)
Record globals := {
  db : bool;
  storage : bool;
  appId : string;
}.

Section WithGlobals.
Context (g : globals).

Definition getCollectionPath (userId : option string) : string :=
  "artifacts/" +:+ appId g +:+ "/public/data/firs".

(** The query built by [subscribeToIssues]. *)
Definition issuesQuery (userId : option string) (priorityFilter departmentFilter : string)
  : Backend.query :=
  let issuesQuery := Backend.collection (getCollectionPath userId) in
  let issuesQuery :=
    if bool_decide (priorityFilter ≠ "All")
    then Backend.where_eq "priority" (VStr priorityFilter) issuesQuery
    else issuesQuery in
  let issuesQuery :=
    if bool_decide (departmentFilter ≠ "All")
    then Backend.where_eq "department" (VStr departmentFilter) issuesQuery
    else issuesQuery in
  issuesQuery.

(** [x.createdAt?.seconds || 0]: only a timestamp has [seconds]. *)
Definition createdAt_seconds (fir : jsobj) : Z :=
  match fir !! "createdAt" with
  | Some (VTimestamp seconds _) => seconds
  | _ => 0
  end.

(** The comparator [(a, b) => (b.createdAt?.seconds || 0) - (a.createdAt?.seconds || 0)]. *)
Definition newest_first (a b : jsobj) : Z :=
  createdAt_seconds b - createdAt_seconds a.

(** The snapshot listener: what it passes to [callback]. *)
Definition on_snapshot (docs : list (string * jsobj)) : list jsobj :=
  let issues := issue_of_doc <$> docs in
  JsArray.sort newest_first issues.

(** The list delivered to the callback for the present content of the
    collection; [None] when the guard returns the empty unsubscribe
    function without subscribing. *)
Definition subscribeToIssues (userId : option string)
    (priorityFilter departmentFilter : string) (w : world) : option (list jsobj) :=
  if negb (db g) || falsy_id userId then None
  else Some (on_snapshot (Backend.run_query (issuesQuery userId priorityFilter departmentFilter) w)).

Definition storagePath (uid : string) (now : Z) (f : file) : string :=
  "firs/" +:+ uid +:+ "/" +:+ Js.String_ (Num now) +:+ "_" +:+ file_name f.

Definition newIssue (uid : string) (formData : form) (displayId : string)
    (imageUrl createdAt updatedAt : value) : jsobj :=
  list_to_map
    [ ("displayId", VStr displayId);
      ("roomNumber", VStr (roomNumber formData));
      ("issueTitle", VStr (issueTitle formData));
      ("description", VStr (description formData));
      ("priority", VStr (priority formData));
      ("status", VStr "Submitted");
      ("department", VStr "Unassigned");
      ("imageUrl", imageUrl);
      ("submittedBy", VStr uid);
      ("createdAt", createdAt);
      ("updatedAt", updatedAt) ].

Definition createNewIssue (userId : option string) (formData : form) (displayId : string)
  : M unit :=
  if negb (db g) || negb (storage g) || falsy_id userId
  then throw (Error "Database or storage not initialized.")
  else
    let uid := default "" userId in
    let* imageUrl :=
      match imageFile formData with
      | Some f =>
          let* now := Backend.Date_now in
          let storageRef := storagePath uid now f in
          let* snapshot := Backend.uploadBytes storageRef f in
          let* url := Backend.getDownloadURL snapshot in
          ret (VStr url)
      | None => ret VNull
      end in
    let path := getCollectionPath userId in
    let* createdAt := Backend.Timestamp_now in
    let* updatedAt := Backend.Timestamp_now in
    let* docRef := Backend.addDoc path (newIssue uid formData displayId imageUrl createdAt updatedAt) in
    ret tt.

(** [{ [field]: value, updatedAt: Timestamp.now() }]: the later key wins. *)
Definition fieldPatch (field : string) (v now : value) : jsobj :=
  <["updatedAt" := now]> (<[field := v]> ∅).

Definition updateIssueField (userId : option string) (issueId field : string) (v : value)
  : M unit :=
  if negb (db g) || falsy_id userId
  then throw (Error "Database not initialized.")
  else
    let path := getCollectionPath userId in
    let* now := Backend.Timestamp_now in
    Backend.updateDoc path issueId (fieldPatch field v now).

(** [fir.displayId?.slice(4) || '0']: the optional chain stops on a missing
    or null field, the empty string is falsy, and a value without a [slice]
    method makes the call throw. *)
Definition displayId_suffix (fir : jsobj) : result string :=
  match fir !! "displayId" with
  | None | Some VNull => Ok "0"
  | Some (VStr s) =>
      match Js.slice 4 s with
      | EmptyString => Ok "0"
      | t => Ok t
      end
  | Some _ => Throw (TypeError "fir.displayId.slice is not a function")
  end.

(** The reducer of [data.reduce((max, fir) => ..., 0)]. *)
Definition highestId_step (max : number) (fir : jsobj) : result number :=
  match displayId_suffix fir with
  | Ok t =>
      let num := Js.parseInt t in
      Ok (if Js.gt num max then num else max)
  | Throw e => Throw e
  end.

Fixpoint reduce (data : list jsobj) (max : number) : result number :=
  match data with
  | [] => Ok max
  | fir :: rest =>
      match highestId_step max fir with
      | Ok max' => reduce rest max'
      | Throw e => Throw e
      end
  end.

Definition highestId (data : list jsobj) : result number :=
  reduce data (Num 0).

(** [`FIR-${String(highestId + 1).padStart(4, "0")}`] *)
Definition format_displayId (n : number) : string :=
  "FIR-" +:+ Js.padStart 4 "0" (Js.String_ n).

Definition nextDisplayId (data : list jsobj) : result string :=
  match highestId data with
  | Ok h => Ok (format_displayId (Js.succ h))
  | Throw e => Throw e
  end.


(** [useState("FIR-0001")] *)
Definition initial_nextDisplayId : string := "FIR-0001".

Definition initial_formData : form :=
  {| roomNumber := ""; issueTitle := ""; description := "";
     priority := "Medium"; imageFile := None |}.

(** The banners a handler makes visible. *)
Inductive banner :=
| SuccessMessage
| ErrorMessageModal
| ErrorSubmissionModal.

(** The part of the component state the submission touches. *)
Record state := {
  userId : option string;
  formData : form;
  nextDisplayId_ : string;
  loading : bool;
  shown : list banner;
}.

Definition set_loading (b : bool) (s : state) : state :=
  {| userId := userId s; formData := formData s; nextDisplayId_ := nextDisplayId_ s;
     loading := b; shown := shown s |}.

Definition set_formData (f : form) (s : state) : state :=
  {| userId := userId s; formData := f; nextDisplayId_ := nextDisplayId_ s;
     loading := loading s; shown := shown s |}.

Definition show (b : banner) (s : state) : state :=
  {| userId := userId s; formData := formData s; nextDisplayId_ := nextDisplayId_ s;
     loading := loading s; shown := shown s ++ [b] |}.

(** How [handleSubmit] ended. *)
Inductive outcome :=
| NotAuthenticated
| MissingRequiredFields
| Submitted
| SubmissionFailed (e : error).

Definition handleSubmit (s : state) (w : world) : outcome * state * world :=
  if falsy_id (userId s) then (NotAuthenticated, show ErrorMessageModal s, w)
  else if negb (truthy (roomNumber (formData s)))
          || negb (truthy (issueTitle (formData s)))
          || negb (truthy (description (formData s)))
  then (MissingRequiredFields, s, w)
  else
    let s := set_loading true s in
    match createNewIssue (userId s) (formData s) (nextDisplayId_ s) w with
    | (Ok _, w') =>
        (Submitted, set_loading false (set_formData initial_formData (show SuccessMessage s)), w')
    | (Throw e, w') =>
        (SubmissionFailed e, set_loading false (show ErrorSubmissionModal s), w')
    end.

End WithGlobals.

(** [fir.f?.toLowerCase().includes(searchTerm.toLowerCase())]: undefined,
    hence falsy, on a missing or null field. *)
Definition field_includes (fir : jsobj) (f searchTerm : string) : result bool :=
  match fir !! f with
  | None | Some VNull => Ok false
  | Some (VStr s) => Ok (Js.includes (Js.toLowerCase s) (Js.toLowerCase searchTerm))
  | Some _ => Throw (TypeError "toLowerCase is not a function")
  end.

(** [a || b]: the right operand is evaluated only when the left is falsy. *)
Definition or_else (a b : result bool) : result bool :=
  match a with
  | Ok true => Ok true
  | Ok false => b
  | Throw e => Throw e
  end.

Definition searchMatch (searchTerm : string) (fir : jsobj) : result bool :=
  or_else (field_includes fir "roomNumber" searchTerm)
    (or_else (field_includes fir "issueTitle" searchTerm)
       (or_else (field_includes fir "description" searchTerm)
          (field_includes fir "displayId" searchTerm))).

(** [firs.filter(fir => searchMatch)] *)
Fixpoint filteredFirs (firs : list jsobj) (searchTerm : string) : result (list jsobj) :=
  match firs with
  | [] => Ok []
  | fir :: rest =>
      match searchMatch searchTerm fir with
      | Ok keep =>
          match filteredFirs rest searchTerm with
          | Ok kept => Ok (if keep then fir :: kept else kept)
          | Throw e => Throw e
          end
      | Throw e => Throw e
      end
  end.
End App.

(** ** The stand-alone store client, [src/firestore-api.js] *)

Module FirestoreApi.

Definition ISSUES_COLLECTION : string := "maintenance_issues".

(** [query(collection(db, ISSUES_COLLECTION), orderBy("createdAt", "desc"))] *)
Definition q : Backend.query :=
  Backend.orderBy "createdAt" Backend.Desc (Backend.collection ISSUES_COLLECTION).

(** The snapshot listener hands the documents over in the order of the
    snapshot. *)
Definition on_snapshot (docs : list (string * jsobj)) : list jsobj :=
  issue_of_doc <$> docs.

Definition subscribeToIssues (w : world) : list jsobj :=
  on_snapshot (Backend.run_query q w).

Definition storagePath (now : Z) (f : file) : string :=
  "fir_images/" +:+ Js.String_ (Num now) +:+ "_" +:+ file_name f.

Definition newIssueData (formData : form) (customId imageUrl dateTimeString : string) : jsobj :=
  list_to_map
    [ ("displayId", VStr customId);
      ("roomNumber", VStr (roomNumber formData));
      ("issueTitle", VStr (issueTitle formData));
      ("description", VStr (description formData));
      ("imageUrl", VStr imageUrl);
      ("status", VStr "Submit");
      ("priority", VStr "Medium");
      ("department", VStr "Select Department");
      ("createdAt", VServerTimestamp);
      ("dateTimeString", VStr dateTimeString) ].

Definition createNewIssue (formData : form) (customId : string) : M unit :=
  let* imageUrl :=
    match imageFile formData with
    | Some f =>
        let* now := Backend.Date_now in
        let imageRef := storagePath now f in
        let* snapshot := Backend.uploadBytes imageRef f in
        Backend.getDownloadURL snapshot
    | None => ret ""
    end in
  let* dateTimeString := Backend.Date_toLocaleString in
  let* docRef := Backend.addDoc ISSUES_COLLECTION
                   (newIssueData formData customId imageUrl dateTimeString) in
  ret tt.

Definition updateIssueField (docId field : string) (v : value) : M unit :=
  Backend.updateDoc ISSUES_COLLECTION docId (<[field := v]> ∅).

End FirestoreApi.

(** ** The rest of the component: badges, metrics, handlers, data sync *)

Module Ui.

Definition PRIORITY_OPTIONS : list string := ["Low"; "Medium"; "High"; "Critical"].

Definition STATUS_OPTIONS : list string :=
  ["Submitted"; "In Progress"; "Completed"; "Canceled"].

Definition DEPARTMENT_OPTIONS : list string :=
  ["Unassigned"; "Plumbing"; "Electrical"; "Housekeeping"; "HVAC"; "IT"].

(** [x === "s"] for a field that may be missing: only the string itself
    is strictly equal. *)
Definition strict_eq (x : option value) (s : string) : bool :=
  bool_decide (x = Some (VStr s)).

(** The [switch] of [getStatusBadge] compares with [===]. *)
Definition getStatusBadge (status : option value) : string :=
  if strict_eq status "Submitted" then "badge bg-info text-dark"
  else if strict_eq status "In Progress" then "badge bg-warning text-dark"
  else if strict_eq status "Completed" then "badge bg-success"
  else if strict_eq status "Canceled" then "badge bg-danger"
  else "badge bg-secondary".

(** [f.status === "Submitted" || f.status === "In Progress"] *)
Definition is_pending (f : jsobj) : bool :=
  strict_eq (f !! "status") "Submitted" || strict_eq (f !! "status") "In Progress".

(** [f.status === "Completed"] *)
Definition is_completed (f : jsobj) : bool :=
  strict_eq (f !! "status") "Completed".

(** [f.priority === "High" || f.priority === "Critical"] *)
Definition is_high_priority (f : jsobj) : bool :=
  strict_eq (f !! "priority") "High" || strict_eq (f !! "priority") "Critical".

Definition totalIssues (firs : list jsobj) : nat := length firs.

Definition pendingIssues (firs : list jsobj) : nat :=
  length (List.filter is_pending firs).

Definition completedIssues (firs : list jsobj) : nat :=
  length (List.filter is_completed firs).

Definition highPriorityIssues (firs : list jsobj) : nat :=
  length (List.filter is_high_priority firs).

(** [firs.filter(pending).slice(0, 5)], the rows of the quick view. *)
Definition topPending (firs : list jsobj) : list jsobj :=
  take 5 (List.filter is_pending firs).

(** The inputs that carry a [name] and [handleFormChange]. *)
Inductive input :=
| RoomNumber
| IssueTitle
| Description
| Priority.

(** [setFormData(prev => ({ ...prev, [name]: value }))] *)
Definition handleFormChange (name : input) (v : string) (s : App.state) : App.state :=
  let prev := App.formData s in
  App.set_formData
    match name with
    | RoomNumber =>
        {| roomNumber := v; issueTitle := issueTitle prev; description := description prev;
           priority := priority prev; imageFile := imageFile prev |}
    | IssueTitle =>
        {| roomNumber := roomNumber prev; issueTitle := v; description := description prev;
           priority := priority prev; imageFile := imageFile prev |}
    | Description =>
        {| roomNumber := roomNumber prev; issueTitle := issueTitle prev; description := v;
           priority := priority prev; imageFile := imageFile prev |}
    | Priority =>
        {| roomNumber := roomNumber prev; issueTitle := issueTitle prev;
           description := description prev; priority := v; imageFile := imageFile prev |}
    end s.

(** [setFormData(prev => ({ ...prev, imageFile: e.target.files[0] }))]:
    the first file, undefined when the list is empty. *)
Definition handleFileChange (files : list file) (s : App.state) : App.state :=
  let prev := App.formData s in
  App.set_formData
    {| roomNumber := roomNumber prev; issueTitle := issueTitle prev;
       description := description prev; priority := priority prev;
       imageFile := head files |} s.

Definition set_nextDisplayId (id : string) (s : App.state) : App.state :=
  {| App.userId := App.userId s; App.formData := App.formData s; App.nextDisplayId_ := id;
     App.loading := App.loading s; App.shown := App.shown s |}.

(** The component state together with the list the views are drawn
    from. *)
Record view := {
  st : App.state;
  firs : list jsobj;
}.

(** The callback given to [subscribeToIssues]: [setFirs(data)],
    [setLoading(false)], then the next display id; when the reducer throws
    the id stays. *)
Definition callback (data : list jsobj) (v : view) : view :=
  let s := App.set_loading false (st v) in
  {| st := match App.nextDisplayId data with
           | Ok id => set_nextDisplayId id s
           | Throw _ => s
           end;
     firs := data |}.

Section WithGlobals.
Context (g : App.globals).

(** The effect that keeps the list in sync, run once on the present
    content of the collection. *)
Definition dataSync (priorityFilter departmentFilter : string) (v : view) (w : world) : view :=
  let waiting := {| st := App.set_loading true (st v); firs := firs v |} in
  if falsy_id (App.userId (st v)) || negb (App.db g) then waiting
  else
    match App.subscribeToIssues g (App.userId (st v)) priorityFilter departmentFilter w with
    | Some data => callback data waiting
    | None => waiting
    end.

(** [handleUpdateField]: nothing without a user; a rejection of the
    update is caught and logged. *)
Definition handleUpdateField (s : App.state) (id field : string) (v : value) (w : world)
  : world :=
  if falsy_id (App.userId s) then w
  else (App.updateIssueField g (App.userId s) id field v w).2.

End WithGlobals.

End Ui.

(** ** The configuration module: the computation of [firebaseConfig]

    Only the computation of the configuration object is embedded, from the
    raw global to the point where [initializeApp] is called with it.  The
    SDK calls that follow ([initializeApp], [getFirestore], [getStorage],
    [getAuth]) belong to the environment and can throw on their own; they
    are not modelled here. *)

Module FirebaseConfig.

(** What [JSON.parse(firebaseConfigRaw)] gives: an exception, [null], an
    object, or a value without properties of its own (a number, a string, a
    boolean, an array). *)
Inductive parsed :=
| ParseError
| ParsedNull
| ParsedObject (o : jsobj)
| ParsedOther.

(** [!!x] for the value of a property. *)
Definition truthy_value (x : option value) : bool :=
  match x with
  | None | Some VNull => false
  | Some (VBool b) => b
  | Some (VNum NaN) => false
  | Some (VNum (Num z)) => negb (z =? 0)
  | Some (VStr s) => truthy s
  | Some (VTimestamp _ _) | Some VServerTimestamp => true
  end.

Definition fallback : jsobj :=
  list_to_map
    [ ("apiKey", VStr "placeholder");
      ("authDomain", VStr "placeholder.firebaseapp.com");
      ("projectId", VStr "fallback-project-id");
      ("storageBucket", VStr "placeholder.appspot.com");
      ("messagingSenderId", VStr "000000000000");
      ("appId", VStr "0:000000000000:web:0000000000000000000000") ].

(** The value of [firebaseConfig] when the call of [initializeApp] is
    reached: the parsed one, the empty object when parsing threw, and the
    fallback when it has no project id; reading [projectId] of [null]
    throws before that call. *)
Definition firebaseConfig (p : parsed) : result jsobj :=
  match p with
  | ParsedNull => Throw (TypeError "Cannot read properties of null (reading 'projectId')")
  | ParsedObject o => Ok (if truthy_value (o !! "projectId") then o else fallback)
  | ParseError | ParsedOther => Ok fallback
  end.

End FirebaseConfig.

(** ** Vocabulary of the statements *)

(** The number a string of decimal digits denotes, continuing from [a]. *)
Fixpoint digits_value (s : string) (a : N) : N :=
  match s with
  | String c s' => digits_value s' (10 * a + (Js.code c - 48))%N
  | EmptyString => a
  end.

Fixpoint all_digits (s : string) : bool :=
  match s with
  | String c s' => Js.is_digit c && all_digits s'
  | EmptyString => true
  end.

(** The data model's [FIR-%04d]. *)
Definition display_id_of (n : N) : string :=
  "FIR-" +:+ Js.padStart 4 "0" (Js.decimal n).


(** The data model types [displayId] as a string; a field may be missing
    or null. *)
Definition string_or_missing (fir : jsobj) (field : string) : Prop :=
  match fir !! field with
  | None | Some VNull | Some (VStr _) => True
  | Some _ => False
  end.


(** The largest of the numbers, 0 for none. *)
Definition max_id (ns : list N) : N := foldr N.max 0%N ns.

(** The number read after position 4 of the display id; 0 when there is
    no display id or no number. *)
Definition suffix_number (fir : jsobj) : Z :=
  match fir !! "displayId" with
  | Some (VStr s) =>
      match Js.parseInt (Js.slice 4 s) with
      | Num z => z
      | NaN => 0
      end
  | _ => 0
  end.

(** The largest suffix number of the list, at least 0. *)
Definition max_suffix (data : list jsobj) : Z :=
  foldr Z.max 0 (suffix_number <$> data).

Definition issue_with_displayId (s : string) : jsobj := {[ "displayId" := VStr s ]}.

Definition two_issues : list jsobj :=
  [issue_with_displayId "FIR-0001"; issue_with_displayId "FIR-0003"].

(** A list with an issue without display id and one whose suffix is not a
    number. *)
Definition ragged_issues : list jsobj :=
  [∅; issue_with_displayId "FIR-abc"; issue_with_displayId "FIR-0007";
   <["displayId" := VNull]> ∅; issue_with_displayId "FIR"].

(** [term] occurs in [s] when case is ignored. *)
Definition ci_substring (term s : string) : Prop :=
  ∃ pre post, Js.toLowerCase s = pre +:+ Js.toLowerCase term +:+ post.

Definition search_fields : list string :=
  ["displayId"; "roomNumber"; "issueTitle"; "description"].

(** The search term occurs in one of the four searched fields. *)
Definition search_hit (term : string) (fir : jsobj) : Prop :=
  ∃ f s, f ∈ search_fields ∧ fir !! f = Some (VStr s) ∧ ci_substring term s.

(** The four searched fields are strings, as in the data model, or
    missing. *)
Definition text_fields (fir : jsobj) : Prop :=
  ∀ f, f ∈ search_fields → string_or_missing fir f.

(** *** Ignoring case, letter by letter

    What "case-insensitive" means for text in ASCII, written from the
    alphabet and not from [toLowerCase]: two characters are the same letter
    when they are equal or one is the capital and the other the small form
    of one of the 26 letters. *)

Definition capital_letters : string := "ABCDEFGHIJKLMNOPQRSTUVWXYZ".
Definition small_letters : string := "abcdefghijklmnopqrstuvwxyz".

Fixpoint letter_pairs (capitals smalls : string) : list (ascii * ascii) :=
  match capitals, smalls with
  | String c capitals', String l smalls' => (c, l) :: letter_pairs capitals' smalls'
  | _, _ => []
  end.

Definition alphabet : list (ascii * ascii) := letter_pairs capital_letters small_letters.

Definition same_letter (a b : ascii) : bool :=
  Ascii.eqb a b
  || existsb (λ p, Ascii.eqb a p.1 && Ascii.eqb b p.2 || Ascii.eqb a p.2 && Ascii.eqb b p.1)
       alphabet.

(** Two strings of the same length with the same letters, place by
    place. *)
Fixpoint eq_ignoring_case (s t : string) : bool :=
  match s, t with
  | EmptyString, EmptyString => true
  | String a s', String b t' => same_letter a b && eq_ignoring_case s' t'
  | _, _ => false
  end.

(** [term] is a case-insensitive substring of [s]: a stretch of [s] has
    the letters of [term]. *)
Definition occurs_ignoring_case (term s : string) : Prop :=
  ∃ pre mid post, s = pre +:+ mid +:+ post ∧ eq_ignoring_case mid term = true.

(** All code units are ASCII.  On such text [toLowerCase] of JavaScript
    works unit by unit; beyond Latin-1 it does not (the Greek final
    sigma). *)
Fixpoint is_ascii (s : string) : bool :=
  match s with
  | EmptyString => true
  | String c s' => (Js.code c <? 128)%N && is_ascii s'
  end.

(** The four searched fields are ASCII strings, or missing. *)
Definition ascii_fields (fir : jsobj) : Prop :=
  ∀ f, f ∈ search_fields →
       match fir !! f with
       | Some (VStr s) => is_ascii s = true
       | Some VNull | None => True
       | Some _ => False
       end.

(** The term is a case-insensitive substring of one of the four searched
    fields. *)
Definition matches_ignoring_case (term : string) (fir : jsobj) : Prop :=
  ∃ f s, f ∈ search_fields ∧ fir !! f = Some (VStr s) ∧ occurs_ignoring_case term s.

Definition issue_in_room (id room : string) : jsobj :=
  list_to_map
    [ ("displayId", VStr id); ("roomNumber", VStr room);
      ("issueTitle", VStr "AC is making noise"); ("description", VStr "Rattles at night") ].

Definition searched_issues : list jsobj :=
  [issue_in_room "FIR-0001" "Lobby A"; issue_in_room "FIR-0002" "Room 301";
   issue_in_room "FIR-0003" "Room 12"].

(** The document stored under an id. *)
Fixpoint lookup_doc (id : string) (docs : list (string * jsobj)) : option jsobj :=
  match docs with
  | [] => None
  | (i, d) :: rest => if decide (i = id) then Some d else lookup_doc id rest
  end.

(** The fields the management table edits. *)
Definition mutable_fields : list string := ["priority"; "status"; "department"].

(** The segments of a storage path, split at the slashes. *)
Fixpoint path_segments (s : string) : list string :=
  match s with
  | EmptyString => [EmptyString]
  | String c s' =>
      match path_segments s' with
      | seg :: rest =>
          if Ascii.eqb c "/" then EmptyString :: seg :: rest else String c seg :: rest
      | [] => [String c EmptyString]
      end
  end.

(** A backend that is up and holds nothing yet. *)
Definition empty_world : world :=
  {| firestore := ∅; bucket := ∅; clock := 1700000000123; next_id := 0;
     firestore_up := true; storage_up := true;
     url_of := λ path, "https://firebasestorage.googleapis.com/o/" +:+ path;
     locale_string := λ _, "11/14/2023, 10:13:20 PM";
     log := [] |}.

Definition ready : App.globals :=
  {| App.db := true; App.storage := true; App.appId := "default-app-id" |}.

Definition photo : file := {| file_name := "leak.png"; file_bytes := "PNG" |}.

Definition complete_form : form :=
  {| roomNumber := "Room 301"; issueTitle := "AC is making noise";
     description := "Rattles at night"; priority := "High"; imageFile := None |}.

Definition form_with_photo : form :=
  {| roomNumber := "Room 301"; issueTitle := "Leak";
     description := "Water under the sink"; priority := "Medium"; imageFile := Some photo |}.

Definition form_without_room : form :=
  {| roomNumber := ""; issueTitle := "AC is making noise";
     description := "Rattles at night"; priority := "Medium"; imageFile := None |}.

Definition stored_issue : jsobj :=
  list_to_map
    [ ("displayId", VStr "FIR-0001"); ("roomNumber", VStr "Room 301");
      ("issueTitle", VStr "AC is making noise"); ("description", VStr "Rattles at night");
      ("status", VStr "Submitted"); ("priority", VStr "Medium");
      ("department", VStr "Unassigned"); ("imageUrl", VNull);
      ("submittedBy", VStr "u1");
      ("createdAt", VTimestamp 1600000000 0); ("updatedAt", VTimestamp 1600000000 0) ].

(** A backend holding one issue in the collection of each client. *)
Definition world_with_issue : world :=
  set_firestore
    (<["artifacts/default-app-id/public/data/firs" := [("k3", stored_issue)]]>
       (<["maintenance_issues" := [("k3", stored_issue)]]> ∅))
    empty_world.

(** The component about to submit a form whose room is empty. *)
Definition submitting : App.state :=
  {| App.userId := Some "u1"; App.formData := form_without_room;
     App.nextDisplayId_ := "FIR-0001"; App.loading := false; App.shown := [] |}.

(** The second in which an issue was created, as its [createdAt] field
    says: the seconds of the timestamp stored there, and 0 for an issue
    that has no timestamp in that field.  This is the reading of the data
    model, stated on the field and not through the comparator of the
    listener. *)
Definition creation_second (fir : jsobj) : Z :=
  match fir !! "createdAt" with
  | Some (VTimestamp seconds _) => seconds
  | Some _ | None => 0
  end.

(** Newest first, as far as the second of creation tells: [a] may stand
    in front of [b]. *)
Definition by_seconds_desc (a b : jsobj) : Prop :=
  creation_second b ≤ creation_second a.

(** The creation time in nanoseconds, 0 without a timestamp. *)
Definition createdAt_nanos (fir : jsobj) : Z :=
  match fir !! "createdAt" with
  | Some (VTimestamp seconds nanoseconds) => seconds * 1000000000 + nanoseconds
  | _ => 0
  end.

(** A document passes a filter that is [All] or equal to its field. *)
Definition passes (filter field : string) (d : jsobj) : bool :=
  bool_decide (filter = "All") || bool_decide (d !! field = Some (VStr filter)).

Definition issue_created (id : string) (seconds nanoseconds : Z) : jsobj :=
  list_to_map [ ("displayId", VStr id); ("createdAt", VTimestamp seconds nanoseconds) ].

(** Two issues created in the same second, the older one listed first by
    the server. *)
Definition same_second_docs : list (string * jsobj) :=
  [ ("a", issue_created "FIR-0001" 1700000000 100000000);
    ("b", issue_created "FIR-0002" 1700000000 900000000) ].



Definition same_second_world : world :=
  set_firestore
    (<["artifacts/default-app-id/public/data/firs" := same_second_docs]>
       (<["maintenance_issues" := same_second_docs]> ∅))
    empty_world.

Definition issue_of_priority (id p department : string) : jsobj :=
  list_to_map
    [ ("displayId", VStr id); ("priority", VStr p); ("department", VStr department) ].

Definition four_priorities_world : world :=
  set_firestore
    (<["artifacts/default-app-id/public/data/firs" :=
         [ ("a", issue_of_priority "FIR-0001" "Low" "Unassigned");
           ("b", issue_of_priority "FIR-0002" "High" "Electrical");
           ("c", issue_of_priority "FIR-0003" "Critical" "Plumbing");
           ("d", issue_of_priority "FIR-0004" "Medium" "Unassigned") ]]> ∅)
    empty_world.

(** Every stored document has the searched fields as the data model
    types them. *)
Definition well_typed_store (w : world) : Prop :=
  ∀ path d, d ∈ Backend.docs_at w path → text_fields d.2.

(** Time passes between two calls. *)
Definition advance (ms : Z) (w : world) : world :=
  {| firestore := firestore w; bucket := bucket w; clock := clock w + ms; next_id := next_id w;
     firestore_up := firestore_up w; storage_up := storage_up w;
     url_of := url_of w; locale_string := locale_string w; log := log w |}.

(** The display ids of the documents are the ids of the numbers, in
    order. *)
Definition ids_are (docs : list (string * jsobj)) (ns : list N) : Prop :=
  Forall2 (λ d n, d.2 !! "displayId" = Some (VStr (display_id_of n))) docs ns.

(** The component, signed in, with a given form and proposed id. *)
Definition signed_in (uid : string) (f : form) (next : string) : App.state :=
  {| App.userId := Some uid; App.formData := f; App.nextDisplayId_ := next;
     App.loading := false; App.shown := [] |}.

(** A collection with one issue of low priority. *)
Definition low_priority_world : world :=
  set_firestore
    (<["artifacts/default-app-id/public/data/firs" :=
         [ ("a", issue_of_priority "FIR-0001" "Low" "Unassigned") ]]> ∅)
    empty_world.

Definition issue_of_status (id status : string) : jsobj :=
  list_to_map [ ("displayId", VStr id); ("status", VStr status) ].

(** Seven issues, six of them pending. *)
Definition seven_issues : list jsobj :=
  [ issue_of_status "FIR-0007" "Submitted"; issue_of_status "FIR-0006" "In Progress";
    issue_of_status "FIR-0005" "Completed"; issue_of_status "FIR-0004" "Submitted";
    issue_of_status "FIR-0003" "Submitted"; issue_of_status "FIR-0002" "In Progress";
    issue_of_status "FIR-0001" "Submitted" ].

(** Whether the search keeps the issue. *)
Definition hits (term : string) (fir : jsobj) : bool :=
  match App.searchMatch term fir with
  | Ok b => b
  | Throw _ => false
  end.

(** The issue was created in second [s]; an issue without timestamp
    counts as created in second 0, as for the comparator. *)
Definition created_in_second (s : Z) (fir : jsobj) : bool :=
  App.createdAt_seconds fir =? s.

(** The user fills in the four inputs and picks files in the file
    input. *)
Definition fill_in (room title text prio : string) (files : list file) (s : App.state)
  : App.state :=
  Ui.handleFileChange files
    (Ui.handleFormChange Ui.Priority prio
       (Ui.handleFormChange Ui.Description text
          (Ui.handleFormChange Ui.IssueTitle title
             (Ui.handleFormChange Ui.RoomNumber room s)))).

Definition second_photo : file := {| file_name := "floor.png"; file_bytes := "PNG2" |}.

(** * Properties *)


(** ** Digits, [parseInt] and [String] *)

Module JsFacts.

Lemma code_digit_char d : (d < 10)%N → Js.code (Js.digit_char d) = (48 + d)%N.
Proof.
  intros Hd. unfold Js.code, Js.digit_char.
  apply N_ascii_embedding. lia.
Qed.

Lemma is_digit_digit_char d : (d < 10)%N → Js.is_digit (Js.digit_char d) = true.
Proof.
  intros Hd. unfold Js.is_digit. rewrite code_digit_char by done.
  apply andb_true_iff; split; apply N.leb_le; lia.
Qed.

Lemma digit_value_inv c d :
  Js.digit_value c = Some d → Js.is_digit c = true ∧ d = (Js.code c - 48)%N.
Proof.
  unfold Js.digit_value. destruct (Js.is_digit c); [|done].
  intros [= <-]. done.
Qed.

Lemma is_digit_range c : Js.is_digit c = true ↔ (48 ≤ Js.code c ≤ 57)%N.
Proof.
  unfold Js.is_digit. rewrite andb_true_iff, !N.leb_le. done.
Qed.

Lemma digit_not_whitespace c : Js.is_digit c = true → Js.is_whitespace c = false.
Proof.
  intros [H1 H2]%is_digit_range. unfold Js.is_whitespace.
  repeat (apply orb_false_iff; split).
  - apply andb_false_iff. right. apply N.leb_gt. lia.
  - apply N.eqb_neq. lia.
  - apply N.eqb_neq. lia.
Qed.

Lemma parse_digits_Some s a :
  all_digits s = true → Js.parse_digits s (Some a) = Some (digits_value s a).
Proof.
  revert a. induction s as [|c s IH]; intros a Hs; simpl in *; [done|].
  apply andb_true_iff in Hs as [Hc Hs].
  unfold Js.digit_value. rewrite Hc. simpl. by apply IH.
Qed.

Lemma parse_digits_None c s :
  all_digits (String c s) = true →
  Js.parse_digits (String c s) None = Some (digits_value (String c s) 0).
Proof.
  intros Hs. simpl in *.
  apply andb_true_iff in Hs as [Hc Hs].
  unfold Js.digit_value. rewrite Hc. simpl. by apply parse_digits_Some.
Qed.

(** On a non-empty string of digits [parseInt] reads the whole string. *)
Lemma parseInt_digits s :
  all_digits s = true → s ≠ EmptyString →
  Js.parseInt s = Num (Z.of_N (digits_value s 0)).
Proof.
  destruct s as [|c s]; [done|]. intros Hs _.
  pose proof Hs as Hs'. simpl in Hs'. apply andb_true_iff in Hs' as [Hc _].
  unfold Js.parseInt. cbn [Js.trim_start].
  rewrite (digit_not_whitespace c Hc).
  apply is_digit_range in Hc as Hr.
  destruct (N.eqb_spec (Js.code c) 45) as [?|_]; [lia|].
  destruct (N.eqb_spec (Js.code c) 43) as [?|_]; [lia|].
  rewrite parse_digits_None by done.
  f_equal. lia.
Qed.

Lemma app_cons c s t : String c s +:+ t = String c (s +:+ t).
Proof. reflexivity. Qed.

Lemma app_nil s : EmptyString +:+ s = s.
Proof. reflexivity. Qed.

Lemma digits_value_app s t a :
  digits_value (s +:+ t) a = digits_value t (digits_value s a).
Proof.
  revert a. induction s as [|c s IH]; intros a; [done|].
  rewrite app_cons. simpl. apply IH.
Qed.

Lemma all_digits_app s t :
  all_digits (s +:+ t) = all_digits s && all_digits t.
Proof.
  induction s as [|c s IH]; [done|].
  rewrite app_cons. simpl. by rewrite IH, andb_assoc.
Qed.

Lemma length_app s t :
  String.length (s +:+ t) = (String.length s + String.length t)%nat.
Proof.
  induction s as [|c s IH]; [done|].
  rewrite app_cons. simpl. by rewrite IH.
Qed.

Lemma app_assoc s t u : (s +:+ t) +:+ u = s +:+ (t +:+ u).
Proof. induction s as [|c s IH]; [done|]. rewrite !app_cons. by rewrite IH. Qed.

Lemma dec_digits_app fuel n acc :
  Js.dec_digits fuel n acc = Js.dec_digits fuel n EmptyString +:+ acc.
Proof.
  revert n acc. induction fuel as [|fuel IH]; intros n acc; simpl; [done|].
  destruct (n / 10 =? 0)%N; [done|].
  rewrite (IH _ (String _ acc)), (IH _ (String _ EmptyString)).
  by rewrite app_assoc.
Qed.

Lemma all_digits_dec_digits fuel n :
  all_digits (Js.dec_digits fuel n EmptyString) = true.
Proof.
  revert n. induction fuel as [|fuel IH]; intros n; simpl; [done|].
  assert (Hd : Js.is_digit (Js.digit_char (n mod 10)) = true).
  { apply is_digit_digit_char. apply N.mod_lt. lia. }
  destruct (n / 10 =? 0)%N; simpl.
  - by rewrite Hd.
  - rewrite dec_digits_app, all_digits_app, IH. simpl. by rewrite Hd.
Qed.

Lemma dec_digits_nonempty fuel n :
  Js.dec_digits (S fuel) n EmptyString ≠ EmptyString.
Proof.
  simpl. destruct (n / 10 =? 0)%N; [done|].
  rewrite dec_digits_app. destruct (Js.dec_digits fuel _ _); done.
Qed.

(** Printing then reading gives the number back. *)
Lemma digits_value_dec_digits fuel n a :
  (n < 2 ^ N.of_nat fuel)%N →
  digits_value (Js.dec_digits fuel n EmptyString) a
  = (a * 10 ^ N.of_nat (String.length (Js.dec_digits fuel n EmptyString)) + n)%N.
Proof.
  revert n a. induction fuel as [|fuel IH]; intros n a Hn.
  - simpl in *. lia.
  - cbn [Js.dec_digits].
    pose proof (N.mod_lt n 10 ltac:(lia)) as Hmod.
    pose proof (N.div_mod n 10 ltac:(lia)) as Hdm.
    rewrite Nat2N.inj_succ, N.pow_succ_r' in Hn.
    specialize (IH (n / 10)%N).
    revert Hmod Hdm IH.
    generalize (n `mod` 10)%N as m, (n / 10)%N as q. intros m q Hmod Hdm IH.
    destruct (N.eqb_spec q 0) as [Hz|Hz].
    + cbn [digits_value String.length]. rewrite code_digit_char by done.
      change (N.of_nat 1) with 1%N. rewrite N.pow_1_r. lia.
    + rewrite dec_digits_app, digits_value_app, length_app.
      rewrite IH by lia.
      cbn [digits_value String.length]. rewrite code_digit_char by done.
      rewrite Nat2N.inj_add. change (N.of_nat 1) with 1%N.
      rewrite N.pow_add_r, N.pow_1_r. lia.
Qed.

Lemma digits_value_decimal n : digits_value (Js.decimal n) 0 = n.
Proof.
  unfold Js.decimal. rewrite digits_value_dec_digits; [lia|].
  rewrite Nat2N.inj_succ, N2Nat.id, N.pow_succ_r'.
  pose proof (N.size_gt n). lia.
Qed.

Lemma all_digits_decimal n : all_digits (Js.decimal n) = true.
Proof. apply all_digits_dec_digits. Qed.

Lemma decimal_nonempty n : Js.decimal n ≠ EmptyString.
Proof. apply dec_digits_nonempty. Qed.

Lemma all_digits_repeat_zero k : all_digits (Js.repeat_char "0" k) = true.
Proof. induction k as [|k IH]; simpl; [done|]. by rewrite IH. Qed.

Lemma digits_value_repeat_zero k : digits_value (Js.repeat_char "0" k) 0 = 0%N.
Proof. induction k as [|k IH]; simpl; [done|]. apply IH. Qed.


Lemma all_digits_padStart k s :
  all_digits s = true → all_digits (Js.padStart k "0" s) = true.
Proof.
  intros Hs. unfold Js.padStart. by rewrite all_digits_app, all_digits_repeat_zero, Hs.
Qed.

Lemma digits_value_padStart k s :
  digits_value (Js.padStart k "0" s) 0 = digits_value s 0.
Proof.
  unfold Js.padStart. by rewrite digits_value_app, digits_value_repeat_zero.
Qed.


Lemma padStart_nonempty k s : s ≠ EmptyString → Js.padStart k "0" s ≠ EmptyString.
Proof.
  intros Hs. unfold Js.padStart.
  destruct (Js.repeat_char _ _); simpl; [done|done].
Qed.

(** Reading a padded decimal numeral. *)
Lemma parseInt_padded k n :
  Js.parseInt (Js.padStart k "0" (Js.decimal n)) = Num (Z.of_N n).
Proof.
  rewrite parseInt_digits.
  - by rewrite digits_value_padStart, digits_value_decimal.
  - apply all_digits_padStart, all_digits_decimal.
  - apply padStart_nonempty, decimal_nonempty.
Qed.

End JsFacts.

(** ** The display-id allocator *)

Module Allocator.

Lemma String_nonneg z : 0 ≤ z → Js.String_ (Num z) = Js.decimal (Z.to_N z).
Proof.
  intros Hz. unfold Js.String_.
  destruct (Z.ltb_spec z 0); [lia|done].
Qed.

Lemma format_displayId_nonneg z :
  0 ≤ z → App.format_displayId (Num z) = display_id_of (Z.to_N z).
Proof. intros Hz. unfold App.format_displayId, display_id_of. by rewrite String_nonneg. Qed.

Lemma suffix_of_display_id fir n :
  fir !! "displayId" = Some (VStr (display_id_of n)) →
  App.displayId_suffix fir = Ok (Js.padStart 4 "0" (Js.decimal n)).
Proof.
  intros Hid. unfold App.displayId_suffix. rewrite Hid.
  unfold display_id_of. change (Js.slice 4 ("FIR-" +:+ ?x)) with x.
  pose proof (JsFacts.padStart_nonempty 4 _ (JsFacts.decimal_nonempty n)) as Hne.
  destruct (Js.padStart 4 "0" (Js.decimal n)); done.
Qed.

Lemma step_of_display_id fir n m :
  fir !! "displayId" = Some (VStr (display_id_of n)) →
  App.highestId_step (Num m) fir = Ok (Num (Z.max m (Z.of_N n))).
Proof.
  intros Hid. unfold App.highestId_step.
  rewrite (suffix_of_display_id _ _ Hid), JsFacts.parseInt_padded.
  unfold Js.gt. destruct (Z.ltb_spec m (Z.of_N n)); do 2 f_equal; lia.
Qed.

Lemma reduce_of_display_ids data ns m :
  0 ≤ m →
  Forall2 (λ fir n, fir !! "displayId" = Some (VStr (display_id_of n))) data ns →
  App.reduce data (Num m) = Ok (Num (Z.max m (Z.of_N (max_id ns)))).
Proof.
  intros Hm H. revert m Hm. induction H as [|fir n data ns Hid _ IH]; intros m Hm.
  - simpl. do 2 f_equal. lia.
  - cbn [App.reduce]. rewrite (step_of_display_id _ _ _ Hid), IH by lia.
    do 2 f_equal. simpl. lia.
Qed.

Lemma parseInt_empty : Js.parseInt EmptyString = NaN.
Proof. reflexivity. Qed.

Lemma parseInt_zero : Js.parseInt "0" = Num 0.
Proof. reflexivity. Qed.

(** One step of the fold takes the larger of the maximum so far and the
    suffix number. *)
Lemma step_max fir m :
  0 ≤ m → string_or_missing fir "displayId" →
  App.highestId_step (Num m) fir = Ok (Num (Z.max m (suffix_number fir))).
Proof.
  intros Hm Hty. unfold App.highestId_step, App.displayId_suffix, suffix_number.
  unfold string_or_missing in Hty.
  destruct (fir !! "displayId") as [[]|]; try done.
  - rewrite parseInt_zero. cbn. destruct (Z.ltb_spec m 0); do 2 f_equal; lia.
  - destruct (Js.slice 4 s) as [|c t] eqn:Hs.
    + rewrite parseInt_zero, parseInt_empty. cbn.
      destruct (Z.ltb_spec m 0); do 2 f_equal; lia.
    + destruct (Js.parseInt (String c t)) as [|z]; cbn.
      * do 2 f_equal. lia.
      * destruct (Z.ltb_spec m z); do 2 f_equal; lia.
  - rewrite parseInt_zero. cbn. destruct (Z.ltb_spec m 0); do 2 f_equal; lia.
Qed.

Lemma max_suffix_nonneg data : 0 ≤ max_suffix data.
Proof.
  induction data as [|fir data IH]; unfold max_suffix in *; [simpl; lia|].
  rewrite fmap_cons. cbn [foldr]. lia.
Qed.

Lemma reduce_max data m :
  0 ≤ m → Forall (λ fir, string_or_missing fir "displayId") data →
  App.reduce data (Num m) = Ok (Num (Z.max m (max_suffix data))).
Proof.
  intros Hm H. revert m Hm. induction H as [|fir data Hfir _ IH]; intros m Hm.
  - simpl. do 2 f_equal. unfold max_suffix. simpl. lia.
  - cbn [App.reduce]. rewrite (step_max _ _ Hm Hfir), IH by lia.
    do 2 f_equal. unfold max_suffix. rewrite fmap_cons. cbn [foldr]. lia.
Qed.

(** C2: the allocator reads the number after position 4 of every display
    id of the list, takes the largest and proposes the next one, padded
    with zeros to four digits (all numbers being safe integers); so from
    ids of the form FIR-%04d it makes the id of the largest number plus
    one, and for [FIR-0001] and [FIR-0003] it proposes [FIR-0004]. *)
Theorem nextDisplayId_max_plus_one (data : list jsobj) :
  Forall (λ fir, string_or_missing fir "displayId") data →
  Forall (λ fir, suffix_number fir < MAX_SAFE_INTEGER) data →
  App.nextDisplayId data
  = Ok ("FIR-" +:+ Js.padStart 4 "0" (Js.decimal (Z.to_N (max_suffix data + 1))))
  ∧ (∀ ns, Forall2 (λ fir n, fir !! "displayId" = Some (VStr (display_id_of n))) data ns →
           App.nextDisplayId data = Ok (display_id_of (max_id ns + 1)))
  ∧ App.nextDisplayId two_issues = Ok "FIR-0004".
Proof.
  intros Hty _. split; [|split; [|reflexivity]].
  - unfold App.nextDisplayId, App.highestId.
    rewrite (reduce_max _ 0 ltac:(lia) Hty). cbn [Js.succ].
    pose proof (max_suffix_nonneg data).
    rewrite format_displayId_nonneg by lia.
    unfold display_id_of. do 4 f_equal. lia.
  - intros ns Hids. unfold App.nextDisplayId, App.highestId.
    rewrite (reduce_of_display_ids _ _ 0 ltac:(lia) Hids). cbn [Js.succ].
    rewrite format_displayId_nonneg by lia.
    do 2 f_equal. lia.
Qed.

Lemma nextDisplayId_max_plus_one_witness :
  App.nextDisplayId two_issues
  = Ok ("FIR-" +:+ Js.padStart 4 "0" (Js.decimal (Z.to_N (max_suffix two_issues + 1))))
  ∧ (∀ ns, Forall2 (λ fir n, fir !! "displayId" = Some (VStr (display_id_of n)))
             two_issues ns →
           App.nextDisplayId two_issues = Ok (display_id_of (max_id ns + 1)))
  ∧ App.nextDisplayId two_issues = Ok "FIR-0004".
Proof.
  apply (nextDisplayId_max_plus_one two_issues).
  - repeat (constructor; [exact I|]). constructor.
  - repeat (constructor; [reflexivity|]). constructor.
Defined.

(** C9: on the empty list the fold yields 0 and the allocator proposes
    [FIR-0001], the value the state starts with. *)
Theorem nextDisplayId_empty :
  App.highestId [] = Ok (Num 0)
  ∧ App.nextDisplayId [] = Ok "FIR-0001"
  ∧ App.nextDisplayId [] = Ok App.initial_nextDisplayId.
Proof. repeat split; reflexivity. Qed.

Lemma suffix_typed fir :
  string_or_missing fir "displayId" → ∃ t, App.displayId_suffix fir = Ok t.
Proof.
  unfold string_or_missing, App.displayId_suffix.
  destruct (fir !! "displayId") as [[]|]; try done; eauto.
  destruct (Js.slice 4 s); eauto.
Qed.







Example ragged_issues_next : App.nextDisplayId ragged_issues = Ok "FIR-0008".
Proof. repeat split; reflexivity. Qed.


End Allocator.

(** ** The search filter *)

Module Search.

Local Ltac in_fields := apply list_elem_of_In; simpl; tauto.

Lemma startsWith_app t post : Js.startsWith t (t +:+ post) = true.
Proof.
  induction t as [|c t IH]; [by destruct post|].
  rewrite JsFacts.app_cons. simpl. by rewrite Ascii.eqb_refl.
Qed.

Lemma startsWith_inv t s : Js.startsWith t s = true → ∃ post, s = t +:+ post.
Proof.
  revert s. induction t as [|c t IH]; intros s H.
  - by exists s.
  - destruct s as [|b s]; [done|]. simpl in H.
    destruct (Ascii.eqb_spec c b) as [->|]; [|done].
    destruct (IH _ H) as [post ->]. by exists post.
Qed.

(** [includes] decides the occurrence of a substring. *)
Lemma includes_spec s t :
  Js.includes s t = true ↔ ∃ pre post, s = pre +:+ t +:+ post.
Proof.
  split.
  - induction s as [|c s IH]; cbn [Js.includes]; intros H.
    + rewrite orb_false_r in H. apply startsWith_inv in H as [post ->].
      by exists EmptyString, post.
    + apply orb_true_iff in H as [H|H].
      * apply startsWith_inv in H as [post ->]. by exists EmptyString, post.
      * destruct (IH H) as (pre & post & ->). by exists (String c pre), post.
  - intros (pre & post & ->). induction pre as [|c pre IH].
    + rewrite JsFacts.app_nil.
      destruct (t +:+ post) eqn:E; cbn [Js.includes]; rewrite <- E;
        by rewrite startsWith_app.
    + rewrite JsFacts.app_cons. cbn [Js.includes]. rewrite IH. apply orb_true_r.
Qed.

Lemma field_includes_typed fir f term :
  string_or_missing fir f →
  ∃ b, App.field_includes fir f term = Ok b
       ∧ (b = true ↔ ∃ s, fir !! f = Some (VStr s) ∧ ci_substring term s).
Proof.
  unfold string_or_missing, App.field_includes, ci_substring.
  destruct (fir !! f) as [[]|]; try done; intros _.
  - exists false. split; [done|]. split; [done|]. by intros (? & ? & _).
  - eexists. split; [done|]. rewrite includes_spec. split.
    + intros H. by exists s.
    + by intros (? & [= <-] & H).
  - exists false. split; [done|]. split; [done|]. by intros (? & ? & _).
Qed.

Lemma searchMatch_typed term fir :
  text_fields fir →
  ∃ b, App.searchMatch term fir = Ok b ∧ (b = true ↔ search_hit term fir).
Proof.
  intros Hty. unfold App.searchMatch, search_hit.
  destruct (field_includes_typed fir "roomNumber" term) as (b1 & -> & H1);
    [apply Hty; in_fields|].
  destruct (field_includes_typed fir "issueTitle" term) as (b2 & -> & H2);
    [apply Hty; in_fields|].
  destruct (field_includes_typed fir "description" term) as (b3 & -> & H3);
    [apply Hty; in_fields|].
  destruct (field_includes_typed fir "displayId" term) as (b4 & -> & H4);
    [apply Hty; in_fields|].
  exists (b1 || b2 || b3 || b4). split.
  - by destruct b1, b2, b3, b4.
  - rewrite !orb_true_iff, H1, H2, H3, H4. unfold search_fields. split.
    + intros [[[(s & ? & ?)|(s & ? & ?)]|(s & ? & ?)]|(s & ? & ?)];
        eexists _, s; (split; [|done]); in_fields.
    + intros (f & s & Hf & Hs & Hsub).
      apply elem_of_cons in Hf as [->|Hf]; [eauto 6|].
      apply elem_of_cons in Hf as [->|Hf]; [eauto 6|].
      apply elem_of_cons in Hf as [->|Hf]; [eauto 6|].
      apply elem_of_cons in Hf as [->|Hf]; [eauto 6|].
      by apply elem_of_nil in Hf.
Qed.

(** The filtered list, read with the built-in's lower-case forms. *)
Lemma filteredFirs_kept firs searchTerm :
  Forall text_fields firs →
  ∃ kept, App.filteredFirs firs searchTerm = Ok kept
          ∧ sublist kept firs
          ∧ ∀ fir, fir ∈ kept ↔ fir ∈ firs ∧ search_hit searchTerm fir.
Proof.
  intros Hty.
  induction Hty as [|fir firs Hfir _ (kept & Hkept & Hsub & Hiff)].
  - exists []. split; [done|]. split; [done|]. intros fir.
    split; [by intros ?%elem_of_nil|by intros [?%elem_of_nil _]].
  - destruct (searchMatch_typed searchTerm fir Hfir) as (b & Hb & Hhit).
    cbn [App.filteredFirs]. rewrite Hb, Hkept.
    destruct b; eexists; (split; [done|]); split.
    + by apply sublist_skip.
    + intros x. rewrite !elem_of_cons, Hiff. split.
      * intros [->|[? ?]]; [split; [by left|by apply Hhit]|by auto].
      * intros [[->|?] ?]; auto.
    + by apply sublist_cons.
    + intros x. rewrite elem_of_cons, Hiff. split.
      * intros [? ?]. auto.
      * intros [[->|?] Hx]; [|done]. apply Hhit in Hx. done.
Qed.

(** On ASCII characters the lower-case forms are equal exactly for the
    same letter of the alphabet: all pairs of the 128 characters are
    checked. *)
Lemma lower_char_same_letter a b :
  (Js.code a < 128)%N → (Js.code b < 128)%N →
  Js.lower_char a = Js.lower_char b ↔ same_letter a b = true.
Proof.
  intros Ha Hb.
  assert (Hall : List.forallb
            (λ m, List.forallb
                    (λ n, Bool.eqb
                            (Ascii.eqb (Js.lower_char (ascii_of_nat m))
                               (Js.lower_char (ascii_of_nat n)))
                            (same_letter (ascii_of_nat m) (ascii_of_nat n)))
                    (List.seq 0 128))
            (List.seq 0 128) = true) by (vm_compute; reflexivity).
  rewrite List.forallb_forall in Hall.
  assert (Hin : ∀ c, (Js.code c < 128)%N → In (nat_of_ascii c) (List.seq 0 128)).
  { intros c Hc. apply List.in_seq. unfold Js.code in Hc.
    change (nat_of_ascii c) with (N.to_nat (N_of_ascii c)). lia. }
  specialize (Hall _ (Hin a Ha)). rewrite List.forallb_forall in Hall.
  specialize (Hall _ (Hin b Hb)). rewrite !ascii_nat_embedding in Hall.
  apply Bool.eqb_prop in Hall. rewrite <- Hall. symmetry. apply Ascii.eqb_eq.
Qed.

Lemma is_ascii_app s t : is_ascii (s +:+ t) = is_ascii s && is_ascii t.
Proof.
  induction s as [|c s IH]; [done|].
  rewrite JsFacts.app_cons. cbn [is_ascii]. by rewrite IH, andb_assoc.
Qed.

Lemma toLowerCase_eq s t :
  is_ascii s = true → is_ascii t = true →
  Js.toLowerCase s = Js.toLowerCase t ↔ eq_ignoring_case s t = true.
Proof.
  revert t. induction s as [|a s IH]; intros [|b t]; cbn [is_ascii]; try done.
  intros [Ha Hs]%andb_true_iff [Hb Ht]%andb_true_iff.
  apply N.ltb_lt in Ha, Hb.
  cbn [Js.toLowerCase eq_ignoring_case].
  rewrite andb_true_iff, <- (lower_char_same_letter a b Ha Hb), <- (IH t Hs Ht).
  split; [by intros [= ? ?]|by intros [-> ->]].
Qed.

(** On ASCII text the lower-case form is made unit by unit. *)
Lemma toLowerCase_app s t :
  is_ascii s = true → is_ascii t = true →
  Js.toLowerCase (s +:+ t) = Js.toLowerCase s +:+ Js.toLowerCase t.
Proof.
  intros _ _. induction s as [|c s IH]; [done|].
  rewrite JsFacts.app_cons. cbn [Js.toLowerCase]. by rewrite IH, JsFacts.app_cons.
Qed.

Lemma toLowerCase_split s p q :
  is_ascii s = true → Js.toLowerCase s = p +:+ q →
  ∃ s1 s2, s = s1 +:+ s2 ∧ Js.toLowerCase s1 = p ∧ Js.toLowerCase s2 = q.
Proof.
  intros _. revert s. induction p as [|c p IH]; intros s H.
  - by exists EmptyString, s.
  - destruct s as [|a s]; [done|].
    rewrite JsFacts.app_cons in H. cbn [Js.toLowerCase] in H.
    injection H as Hc Hs. destruct (IH s Hs) as (s1 & s2 & -> & H1 & H2).
    exists (String a s1), s2. rewrite JsFacts.app_cons. cbn [Js.toLowerCase].
    by rewrite Hc, H1.
Qed.

(** On ASCII text the occurrence of the lower-case term in the lower-case
    field is the occurrence of the term, letter by letter. *)
Lemma ci_substring_ascii term s :
  is_ascii term = true → is_ascii s = true →
  ci_substring term s ↔ occurs_ignoring_case term s.
Proof.
  intros Hterm Hs. split.
  - intros (p & q & H).
    destruct (toLowerCase_split s p _ Hs H) as (pre & rest & -> & _ & Hrest).
    rewrite is_ascii_app in Hs. apply andb_true_iff in Hs as [_ Hrest_ascii].
    destruct (toLowerCase_split rest _ q Hrest_ascii Hrest) as (mid & post & -> & Hmid & _).
    rewrite is_ascii_app in Hrest_ascii. apply andb_true_iff in Hrest_ascii as [Hmid_ascii _].
    exists pre, mid, post. split; [done|]. by apply toLowerCase_eq.
  - intros (pre & mid & post & -> & Heq).
    rewrite !is_ascii_app in Hs.
    apply andb_true_iff in Hs as [Hpre [Hmid Hpost]%andb_true_iff].
    apply toLowerCase_eq in Heq; [|done..].
    exists (Js.toLowerCase pre), (Js.toLowerCase post).
    rewrite toLowerCase_app, toLowerCase_app, Heq; try done.
    by rewrite is_ascii_app, Hmid, Hpost.
Qed.

Lemma search_hit_ascii term fir :
  is_ascii term = true → ascii_fields fir →
  search_hit term fir ↔ matches_ignoring_case term fir.
Proof.
  intros Hterm Hfir. unfold search_hit, matches_ignoring_case.
  split; intros (f & s & Hf & Hs & H); exists f, s; (split; [done|]); (split; [done|]);
    pose proof (Hfir f Hf) as Hascii; rewrite Hs in Hascii;
    by apply (ci_substring_ascii term s Hterm Hascii).
Qed.

(** C5: on issues whose searched fields are strings or missing, the
    filtered list keeps, in order, exactly the issues in which the
    lower-case form of the term occurs in the lower-case form of the display
    id, the room, the title or the description; for text in ASCII these are
    exactly the issues in which the term occurs in one of the four fields
    when capital and small letters of the alphabet are taken as the same.
    Searching 301 finds the issue of Room 301, and so does rOOm 3; ac IS
    finds the three issues titled AC is making noise; Room 4 finds none. *)
Theorem filteredFirs_exact (firs : list jsobj) (searchTerm : string) :
  Forall text_fields firs →
  (∃ kept, App.filteredFirs firs searchTerm = Ok kept
           ∧ sublist kept firs
           ∧ (∀ fir, fir ∈ kept ↔ fir ∈ firs ∧ search_hit searchTerm fir)
           ∧ (is_ascii searchTerm = true → Forall ascii_fields firs →
              ∀ fir, fir ∈ kept ↔ fir ∈ firs ∧ matches_ignoring_case searchTerm fir))
  ∧ App.filteredFirs searched_issues "301" = Ok [issue_in_room "FIR-0002" "Room 301"]
  ∧ App.filteredFirs searched_issues "rOOm 3" = Ok [issue_in_room "FIR-0002" "Room 301"]
  ∧ App.filteredFirs searched_issues "ac IS" = Ok searched_issues
  ∧ App.filteredFirs searched_issues "Room 4" = Ok [].
Proof.
  intros Hty. split; [|repeat split; reflexivity].
  destruct (filteredFirs_kept firs searchTerm Hty) as (kept & Hkept & Hsub & Hiff).
  exists kept. split; [done|]. split; [done|]. split; [done|].
  intros Hterm Hascii fir. rewrite Hiff. rewrite Forall_forall in Hascii.
  split; intros [Hin Hhit]; (split; [done|]);
    by apply (search_hit_ascii searchTerm fir Hterm (Hascii fir Hin)).
Qed.

Lemma filteredFirs_exact_witness :
  ∃ kept,
    App.filteredFirs searched_issues "rOOm 3" = Ok kept
    ∧ kept = [issue_in_room "FIR-0002" "Room 301"]
    ∧ ∀ fir, fir ∈ kept ↔
             fir ∈ searched_issues ∧ matches_ignoring_case "rOOm 3" fir.
Proof.
  assert (Hty : Forall text_fields searched_issues).
  { repeat (constructor;
            [intros f Hf; repeat (apply elem_of_cons in Hf as [->|Hf]; [exact I|]);
             by apply elem_of_nil in Hf|]).
    constructor. }
  destruct (filteredFirs_exact searched_issues "rOOm 3" Hty)
    as [(kept & Hkept & _ & _ & Hletters) (_ & Hroom & _)].
  exists kept. split; [exact Hkept|]. split; [congruence|].
  apply Hletters; [reflexivity|].
  repeat (constructor;
          [intros f Hf; repeat (apply elem_of_cons in Hf as [->|Hf]; [reflexivity|]);
           by apply elem_of_nil in Hf|]).
  constructor.
Defined.

End Search.

(** ** The backend operations *)

Module BackendFacts.

Lemma docs_at_set_firestore w path docs :
  Backend.docs_at (set_firestore (<[path := docs]> (firestore w)) w) path = docs.
Proof. unfold Backend.docs_at. cbn. by rewrite lookup_insert_eq. Qed.

Lemma docs_at_set_firestore_ne w path path' docs :
  path ≠ path' →
  Backend.docs_at (set_firestore (<[path := docs]> (firestore w)) w) path'
  = Backend.docs_at w path'.
Proof. intros Hne. unfold Backend.docs_at. cbn. by rewrite lookup_insert_ne. Qed.

(** What a successful [addDoc] leaves behind. *)
Lemma addDoc_ok path data w :
  firestore_up w = true →
  ∃ id w',
    Backend.addDoc path data w = (Ok id, w')
    ∧ Backend.docs_at w' path
      = Backend.docs_at w path ++ [(id, Backend.resolve (clock w) <$> data)]
    ∧ (∀ p, p ≠ path → Backend.docs_at w' p = Backend.docs_at w p)
    ∧ bucket w' = bucket w
    ∧ log w' = log w ++ [Added path id].
Proof.
  intros Hup. unfold Backend.addDoc. rewrite Hup. eexists _, _.
  split; [done|]. split; [|split; [|done]].
  - unfold Backend.docs_at at 1. cbn. by rewrite lookup_insert_eq.
  - intros p Hp. unfold Backend.docs_at. cbn. by rewrite lookup_insert_ne.
Qed.

Lemma addDoc_down path data w :
  firestore_up w = false →
  Backend.addDoc path data w = (Throw (FirebaseError "unavailable"), w).
Proof. intros Hup. unfold Backend.addDoc. by rewrite Hup. Qed.

(** [update_docs] patches the document under the id and nothing else. *)
Lemma update_docs_spec id patch docs d :
  lookup_doc id docs = Some d →
  ∃ docs',
    Backend.update_docs id patch docs = Some docs'
    ∧ lookup_doc id docs' = Some (patch ∪ d)
    ∧ (∀ j, j ≠ id → lookup_doc j docs' = lookup_doc j docs)
    ∧ docs'.*1 = docs.*1.
Proof.
  induction docs as [|[i di] docs IH]; [done|].
  cbn [lookup_doc Backend.update_docs]. destruct (decide (i = id)) as [->|Hne].
  - intros [= ->]. eexists. split; [done|]. cbn [lookup_doc].
    rewrite decide_True by done. split; [done|]. split; [|done].
    intros j Hj. by rewrite !decide_False by done.
  - intros Hd. destruct (IH Hd) as (docs' & -> & Hl & Hother & Hids).
    eexists. split; [done|]. cbn [lookup_doc].
    rewrite decide_False by done. split; [done|]. split.
    + intros j Hj. destruct (decide (i = j)); [done|]. by apply Hother.
    + cbn. by rewrite Hids.
Qed.

Lemma lookup_doc_None_update id patch docs :
  lookup_doc id docs = None → Backend.update_docs id patch docs = None.
Proof.
  induction docs as [|[i di] docs IH]; [done|].
  cbn [lookup_doc Backend.update_docs]. destruct (decide (i = id)); [done|].
  intros H. by rewrite IH.
Qed.

End BackendFacts.

(** ** Field update *)

Module FieldUpdate.

Lemma resolve_timestamp now ms :
  Backend.resolve now (Backend.timestamp_of_millis ms) = Backend.timestamp_of_millis ms.
Proof. reflexivity. Qed.

(** What [updateDoc] does to a stored document. *)
Lemma updateDoc_spec path id patch w d :
  firestore_up w = true →
  lookup_doc id (Backend.docs_at w path) = Some d →
  ∃ w',
    Backend.updateDoc path id patch w = (Ok tt, w')
    ∧ lookup_doc id (Backend.docs_at w' path)
      = Some ((Backend.resolve (clock w) <$> patch) ∪ d)
    ∧ (∀ j, j ≠ id →
            lookup_doc j (Backend.docs_at w' path) = lookup_doc j (Backend.docs_at w path))
    ∧ (∀ p, p ≠ path → Backend.docs_at w' p = Backend.docs_at w p)
    ∧ bucket w' = bucket w.
Proof.
  intros Hup Hd. unfold Backend.updateDoc. rewrite Hup.
  destruct (BackendFacts.update_docs_spec id (Backend.resolve (clock w) <$> patch) _ d Hd)
    as (docs' & -> & Hl & Hother & _).
  eexists. split; [done|].
  change (Backend.docs_at (record ?e ?w0)) with (Backend.docs_at w0).
  rewrite BackendFacts.docs_at_set_firestore.
  split; [done|]. split; [done|]. split; [|done].
  intros p Hp. by apply BackendFacts.docs_at_set_firestore_ne.
Qed.

Lemma mutable_field_not_updatedAt field :
  field ∈ mutable_fields → field ≠ "updatedAt".
Proof.
  intros Hf ->. apply list_elem_of_In in Hf. simpl in Hf.
  destruct Hf as [?|[?|[?|[]]]]; discriminate.
Qed.

(** C3: an update of a mutable field of a stored issue succeeds, sets
    that field and stamps [updatedAt]; every other field of the document,
    every other document, every other collection and the storage bucket
    are as before. *)
Theorem updateIssueField_frame (g : App.globals) (w : world) (userId : option string)
    (issueId field : string) (v : value) (d : jsobj) :
  App.db g = true →
  falsy_id userId = false →
  firestore_up w = true →
  field ∈ mutable_fields →
  lookup_doc issueId (Backend.docs_at w (App.getCollectionPath g userId)) = Some d →
  ∃ w' d',
    App.updateIssueField g userId issueId field v w = (Ok tt, w')
    ∧ lookup_doc issueId (Backend.docs_at w' (App.getCollectionPath g userId)) = Some d'
    ∧ d' !! field = Some (Backend.resolve (clock w) v)
    ∧ d' !! "updatedAt" = Some (Backend.timestamp_of_millis (clock w))
    ∧ (∀ k, k ≠ field → k ≠ "updatedAt" → d' !! k = d !! k)
    ∧ (∀ j, j ≠ issueId →
            lookup_doc j (Backend.docs_at w' (App.getCollectionPath g userId))
            = lookup_doc j (Backend.docs_at w (App.getCollectionPath g userId)))
    ∧ (∀ p, p ≠ App.getCollectionPath g userId → Backend.docs_at w' p = Backend.docs_at w p)
    ∧ bucket w' = bucket w.
Proof.
  intros Hdb Hid Hup Hfield Hd.
  pose proof (mutable_field_not_updatedAt _ Hfield) as Hne.
  unfold App.updateIssueField. rewrite Hdb, Hid. cbn [negb orb].
  unfold bind, Backend.Timestamp_now.
  destruct (updateDoc_spec _ issueId
              (App.fieldPatch field v (Backend.timestamp_of_millis (clock w))) w d Hup Hd)
    as (w' & -> & Hl & Hother & Hcolls & Hbucket).
  eexists w', _. split; [done|]. split; [exact Hl|].
  unfold App.fieldPatch. rewrite !fmap_insert, fmap_empty, resolve_timestamp.
  repeat split; try done.
  - rewrite lookup_union_l'; [|by rewrite lookup_insert_ne, lookup_insert_eq].
    by rewrite lookup_insert_ne, lookup_insert_eq.
  - rewrite lookup_union_l'; by rewrite lookup_insert_eq.
  - intros k Hk1 Hk2. rewrite lookup_union_r; [done|].
    by rewrite !lookup_insert_ne, lookup_empty.
Qed.

(** The stand-alone module writes the one field and no time stamp. *)
Lemma FirestoreApi_updateIssueField_frame (w : world) (docId field : string) (v : value)
    (d : jsobj) :
  firestore_up w = true →
  lookup_doc docId (Backend.docs_at w FirestoreApi.ISSUES_COLLECTION) = Some d →
  ∃ w' d',
    FirestoreApi.updateIssueField docId field v w = (Ok tt, w')
    ∧ lookup_doc docId (Backend.docs_at w' FirestoreApi.ISSUES_COLLECTION) = Some d'
    ∧ d' !! field = Some (Backend.resolve (clock w) v)
    ∧ (∀ k, k ≠ field → d' !! k = d !! k)
    ∧ (∀ j, j ≠ docId →
            lookup_doc j (Backend.docs_at w' FirestoreApi.ISSUES_COLLECTION)
            = lookup_doc j (Backend.docs_at w FirestoreApi.ISSUES_COLLECTION)).
Proof.
  intros Hup Hd. unfold FirestoreApi.updateIssueField.
  destruct (updateDoc_spec _ docId (<[field := v]> ∅) w d Hup Hd)
    as (w' & -> & Hl & Hother & _ & _).
  eexists w', _. split; [done|]. split; [exact Hl|].
  rewrite fmap_insert, fmap_empty. repeat split; try done.
  - rewrite lookup_union_l'; by rewrite lookup_insert_eq.
  - intros k Hk. rewrite lookup_union_r; [done|].
    by rewrite lookup_insert_ne, lookup_empty.
Qed.

Lemma updateIssueField_frame_witness :
  ∃ w' d',
    App.updateIssueField ready (Some "u1") "k3" "status" (VStr "In Progress") world_with_issue
    = (Ok tt, w')
    ∧ lookup_doc "k3" (Backend.docs_at w' (App.getCollectionPath ready (Some "u1"))) = Some d'
    ∧ d' !! "status" = Some (Backend.resolve (clock world_with_issue) (VStr "In Progress"))
    ∧ d' !! "updatedAt" = Some (Backend.timestamp_of_millis (clock world_with_issue))
    ∧ (∀ k, k ≠ "status" → k ≠ "updatedAt" → d' !! k = stored_issue !! k)
    ∧ (∀ j, j ≠ "k3" →
            lookup_doc j (Backend.docs_at w' (App.getCollectionPath ready (Some "u1")))
            = lookup_doc j (Backend.docs_at world_with_issue
                              (App.getCollectionPath ready (Some "u1"))))
    ∧ (∀ p, p ≠ App.getCollectionPath ready (Some "u1") →
            Backend.docs_at w' p = Backend.docs_at world_with_issue p)
    ∧ bucket w' = bucket world_with_issue.
Proof.
  apply (updateIssueField_frame ready world_with_issue (Some "u1") "k3" "status"
           (VStr "In Progress") stored_issue).
  - reflexivity.
  - reflexivity.
  - reflexivity.
  - apply list_elem_of_In. simpl. tauto.
  - reflexivity.
Defined.

(** The update of the status of the stored issue, run. *)
Example status_update_run :
  let w' := (App.updateIssueField ready (Some "u1") "k3" "status" (VStr "In Progress")
               world_with_issue).2 in
  lookup_doc "k3" (Backend.docs_at w' "artifacts/default-app-id/public/data/firs")
  = Some (<["updatedAt" := VTimestamp 1700000000 123000000]>
            (<["status" := VStr "In Progress"]> stored_issue)).
Proof. repeat split; reflexivity. Qed.

End FieldUpdate.

(** ** Issue creation *)

Module Creation.

Lemma newIssue_fields uid formData displayId imageUrl createdAt updatedAt :
  let rec := App.newIssue uid formData displayId imageUrl createdAt updatedAt in
  rec !! "status" = Some (VStr "Submitted")
  ∧ rec !! "department" = Some (VStr "Unassigned")
  ∧ rec !! "imageUrl" = Some imageUrl
  ∧ rec !! "displayId" = Some (VStr displayId)
  ∧ rec !! "submittedBy" = Some (VStr uid).
Proof. repeat split; reflexivity. Qed.

Lemma newIssueData_fields formData customId imageUrl dateTimeString :
  let rec := FirestoreApi.newIssueData formData customId imageUrl dateTimeString in
  rec !! "status" = Some (VStr "Submit")
  ∧ rec !! "department" = Some (VStr "Select Department")
  ∧ rec !! "imageUrl" = Some (VStr imageUrl)
  ∧ rec !! "displayId" = Some (VStr customId).
Proof. repeat split; reflexivity. Qed.

(** The integrated client without an image: one write, no upload. *)
Lemma App_createNewIssue_no_image g w userId formData displayId :
  App.db g = true → App.storage g = true → falsy_id userId = false →
  imageFile formData = None → firestore_up w = true →
  ∃ id rec w',
    App.createNewIssue g userId formData displayId w = (Ok tt, w')
    ∧ Backend.docs_at w' (App.getCollectionPath g userId)
      = Backend.docs_at w (App.getCollectionPath g userId) ++ [(id, rec)]
    ∧ rec !! "imageUrl" = Some VNull
    ∧ rec !! "status" = Some (VStr "Submitted")
    ∧ rec !! "department" = Some (VStr "Unassigned")
    ∧ rec !! "roomNumber" = Some (VStr (roomNumber formData))
    ∧ bucket w' = bucket w
    ∧ log w' = log w ++ [Added (App.getCollectionPath g userId) id].
Proof.
  intros Hdb Hst Hid Himg Hup.
  unfold App.createNewIssue. rewrite Hdb, Hst, Hid, Himg. cbn [negb orb].
  unfold bind at 1. unfold ret at 1.
  unfold bind at 1. unfold Backend.Timestamp_now at 1.
  unfold bind at 1. unfold Backend.Timestamp_now at 1.
  unfold bind at 1.
  destruct (BackendFacts.addDoc_ok (App.getCollectionPath g userId)
              (App.newIssue (default "" userId) formData displayId VNull
                 (Backend.timestamp_of_millis (clock w))
                 (Backend.timestamp_of_millis (clock w))) w Hup)
    as (id & w' & -> & Hdocs & _ & Hbucket & Hlog).
  exists id. eexists. exists w'. split; [done|]. split; [exact Hdocs|].
  rewrite !lookup_fmap. repeat split; try done; reflexivity.
Qed.

(** The stand-alone client without an image. *)
Lemma FirestoreApi_createNewIssue_no_image w formData customId :
  imageFile formData = None → firestore_up w = true →
  ∃ id rec w',
    FirestoreApi.createNewIssue formData customId w = (Ok tt, w')
    ∧ Backend.docs_at w' FirestoreApi.ISSUES_COLLECTION
      = Backend.docs_at w FirestoreApi.ISSUES_COLLECTION ++ [(id, rec)]
    ∧ rec !! "imageUrl" = Some (VStr "")
    ∧ rec !! "status" = Some (VStr "Submit")
    ∧ rec !! "department" = Some (VStr "Select Department").
Proof.
  intros Himg Hup.
  unfold FirestoreApi.createNewIssue. rewrite Himg.
  unfold bind at 1. unfold ret at 1.
  unfold bind at 1. unfold Backend.Date_toLocaleString at 1.
  unfold bind at 1.
  destruct (BackendFacts.addDoc_ok FirestoreApi.ISSUES_COLLECTION
              (FirestoreApi.newIssueData formData customId ""
                 (locale_string w (clock w))) w Hup)
    as (id & w' & -> & Hdocs & _).
  exists id. eexists. exists w'. split; [done|]. split; [exact Hdocs|].
  rewrite !lookup_fmap. repeat split; reflexivity.
Qed.

(** C1, as the code has it: for a submission with the required fields
    and without image, the integrated client persists a record whose
    [imageUrl] is null, whose status is Submitted and whose department is
    Unassigned; the stand-alone module persists the empty string, the
    status Submit and the department Select Department. *)
Theorem createNewIssue_defaults (g : App.globals) (w : world) (userId : option string)
    (formData : form) (displayId : string) :
  App.db g = true → App.storage g = true → falsy_id userId = false →
  truthy (roomNumber formData) = true →
  truthy (issueTitle formData) = true →
  truthy (description formData) = true →
  imageFile formData = None →
  firestore_up w = true →
  (∃ id rec w',
      App.createNewIssue g userId formData displayId w = (Ok tt, w')
      ∧ Backend.docs_at w' (App.getCollectionPath g userId)
        = Backend.docs_at w (App.getCollectionPath g userId) ++ [(id, rec)]
      ∧ rec !! "imageUrl" = Some VNull
      ∧ rec !! "status" = Some (VStr "Submitted")
      ∧ rec !! "department" = Some (VStr "Unassigned"))
  ∧ (∃ id rec w',
      FirestoreApi.createNewIssue formData displayId w = (Ok tt, w')
      ∧ Backend.docs_at w' FirestoreApi.ISSUES_COLLECTION
        = Backend.docs_at w FirestoreApi.ISSUES_COLLECTION ++ [(id, rec)]
      ∧ rec !! "imageUrl" = Some (VStr "")
      ∧ rec !! "status" = Some (VStr "Submit")
      ∧ rec !! "department" = Some (VStr "Select Department")).
Proof.
  intros Hdb Hst Hid _ _ _ Himg Hup. split.
  - destruct (App_createNewIssue_no_image g w userId formData displayId Hdb Hst Hid Himg Hup)
      as (id & rec & w' & H1 & H2 & H3 & H4 & H5 & _).
    by exists id, rec, w'.
  - by apply FirestoreApi_createNewIssue_no_image.
Qed.

(** The integrated client with an image: upload, URL, then one write. *)
Lemma App_createNewIssue_with_image g w userId formData displayId f :
  App.db g = true → App.storage g = true → falsy_id userId = false →
  imageFile formData = Some f →
  storage_up w = true → firestore_up w = true →
  let path := App.storagePath (default "" userId) (clock w) f in
  ∃ id rec w',
    App.createNewIssue g userId formData displayId w = (Ok tt, w')
    ∧ log w' = log w ++ [Uploaded path; GotDownloadURL path;
                         Added (App.getCollectionPath g userId) id]
    ∧ bucket w' = <[path := f]> (bucket w)
    ∧ Backend.docs_at w' (App.getCollectionPath g userId)
      = Backend.docs_at w (App.getCollectionPath g userId) ++ [(id, rec)]
    ∧ rec !! "imageUrl" = Some (VStr (url_of w path)).
Proof.
  intros Hdb Hst Hid Himg Hsup Hfup path.
  unfold App.createNewIssue. rewrite Hdb, Hst, Hid, Himg. cbn [negb orb].
  unfold bind, ret, Backend.Date_now, Backend.uploadBytes, Backend.getDownloadURL,
    Backend.Timestamp_now.
  rewrite Hsup. cbn [storage_up record set_bucket bucket url_of clock].
  rewrite Hsup, lookup_insert_eq. fold path.
  match goal with |- context [Backend.addDoc ?c ?d ?w1] =>
    destruct (BackendFacts.addDoc_ok c d w1 Hfup)
      as (id & w' & -> & Hdocs & _ & Hbucket & Hlog)
  end.
  exists id. eexists. exists w'. split; [done|]. split; [|split; [|split]].
  - rewrite Hlog. cbn [log record set_bucket]. by rewrite <- !app_assoc.
  - by rewrite Hbucket.
  - exact Hdocs.
  - rewrite lookup_fmap.
    match goal with |- context [App.newIssue ?a ?b ?c ?d ?e1 ?e2] =>
      by destruct (newIssue_fields a b c d e1 e2) as (_ & _ & -> & _)
    end.
Qed.

(** The stand-alone client with an image. *)
Lemma FirestoreApi_createNewIssue_with_image w formData customId f :
  imageFile formData = Some f →
  storage_up w = true → firestore_up w = true →
  let path := FirestoreApi.storagePath (clock w) f in
  ∃ id rec w',
    FirestoreApi.createNewIssue formData customId w = (Ok tt, w')
    ∧ log w' = log w ++ [Uploaded path; GotDownloadURL path;
                         Added FirestoreApi.ISSUES_COLLECTION id]
    ∧ bucket w' = <[path := f]> (bucket w)
    ∧ Backend.docs_at w' FirestoreApi.ISSUES_COLLECTION
      = Backend.docs_at w FirestoreApi.ISSUES_COLLECTION ++ [(id, rec)]
    ∧ rec !! "imageUrl" = Some (VStr (url_of w path)).
Proof.
  intros Himg Hsup Hfup path.
  unfold FirestoreApi.createNewIssue. rewrite Himg.
  unfold bind, ret, Backend.Date_now, Backend.uploadBytes, Backend.getDownloadURL,
    Backend.Date_toLocaleString.
  rewrite Hsup. cbn [storage_up record set_bucket bucket url_of clock locale_string].
  rewrite Hsup, lookup_insert_eq. fold path.
  match goal with |- context [Backend.addDoc ?c ?d ?w1] =>
    destruct (BackendFacts.addDoc_ok c d w1 Hfup)
      as (id & w' & -> & Hdocs & _ & Hbucket & Hlog)
  end.
  exists id. eexists. exists w'. split; [done|]. split; [|split; [|split]].
  - rewrite Hlog. cbn [log record set_bucket]. by rewrite <- !app_assoc.
  - by rewrite Hbucket.
  - exact Hdocs.
  - rewrite lookup_fmap.
    match goal with |- context [FirestoreApi.newIssueData ?a ?b ?c ?d] =>
      by destruct (newIssueData_fields a b c d) as (_ & _ & -> & _)
    end.
Qed.

(** When the upload is rejected nothing is written. *)
Lemma createNewIssue_upload_rejected g w userId formData displayId f :
  App.db g = true → App.storage g = true → falsy_id userId = false →
  imageFile formData = Some f →
  storage_up w = false →
  (∃ e, App.createNewIssue g userId formData displayId w = (Throw e, w))
  ∧ (∃ e, FirestoreApi.createNewIssue formData displayId w = (Throw e, w)).
Proof.
  intros Hdb Hst Hid Himg Hsup. split.
  - unfold App.createNewIssue. rewrite Hdb, Hst, Hid, Himg. cbn [negb orb].
    unfold bind, Backend.Date_now, Backend.uploadBytes. rewrite Hsup. eauto.
  - unfold FirestoreApi.createNewIssue. rewrite Himg.
    unfold bind, Backend.Date_now, Backend.uploadBytes. rewrite Hsup. eauto.
Qed.

(** C8, as the code has it: with an image, the integrated client uploads
    to [firs/{userId}/{timestamp}_{filename}] and the stand-alone module to
    [fir_images/{timestamp}_{filename}], without a user id; both upload
    and fetch the URL before the one write, whose record stores that URL in
    [imageUrl]; when the upload is rejected nothing is written. *)
Theorem createNewIssue_upload_then_persist (g : App.globals) (w : world)
    (uid : string) (formData : form) (displayId : string) (f : file) :
  App.db g = true → App.storage g = true → truthy uid = true →
  imageFile formData = Some f →
  (storage_up w = true → firestore_up w = true →
   (let path := "firs/" +:+ uid +:+ "/" +:+ Js.String_ (Num (clock w)) +:+ "_" +:+ file_name f in
    ∃ id rec w',
      App.createNewIssue g (Some uid) formData displayId w = (Ok tt, w')
      ∧ log w' = log w ++ [Uploaded path; GotDownloadURL path;
                           Added (App.getCollectionPath g (Some uid)) id]
      ∧ bucket w' !! path = Some f
      ∧ Backend.docs_at w' (App.getCollectionPath g (Some uid))
        = Backend.docs_at w (App.getCollectionPath g (Some uid)) ++ [(id, rec)]
      ∧ rec !! "imageUrl" = Some (VStr (url_of w path)))
   ∧ (let path := "fir_images/" +:+ Js.String_ (Num (clock w)) +:+ "_" +:+ file_name f in
      ∃ id rec w',
        FirestoreApi.createNewIssue formData displayId w = (Ok tt, w')
        ∧ log w' = log w ++ [Uploaded path; GotDownloadURL path;
                             Added FirestoreApi.ISSUES_COLLECTION id]
        ∧ bucket w' !! path = Some f
        ∧ Backend.docs_at w' FirestoreApi.ISSUES_COLLECTION
          = Backend.docs_at w FirestoreApi.ISSUES_COLLECTION ++ [(id, rec)]
        ∧ rec !! "imageUrl" = Some (VStr (url_of w path))))
  ∧ (storage_up w = false →
     (∃ e, App.createNewIssue g (Some uid) formData displayId w = (Throw e, w))
     ∧ (∃ e, FirestoreApi.createNewIssue formData displayId w = (Throw e, w))).
Proof.
  intros Hdb Hst Huid Himg.
  assert (Hid : falsy_id (Some uid) = false) by (cbn; by rewrite Huid).
  split.
  - intros Hsup Hfup. split.
    + destruct (App_createNewIssue_with_image g w (Some uid) formData displayId f
                  Hdb Hst Hid Himg Hsup Hfup) as (id & rec & w' & H1 & H2 & H3 & H4 & H5).
      exists id, rec, w'. repeat split; try done.
      rewrite H3. apply lookup_insert_eq.
    + destruct (FirestoreApi_createNewIssue_with_image w formData displayId f
                  Himg Hsup Hfup) as (id & rec & w' & H1 & H2 & H3 & H4 & H5).
      exists id, rec, w'. repeat split; try done.
      rewrite H3. apply lookup_insert_eq.
  - intros Hsup.
    by apply (createNewIssue_upload_rejected g w (Some uid) formData displayId f).
Qed.

Lemma createNewIssue_defaults_witness :
  (∃ id rec w',
      App.createNewIssue ready (Some "u1") complete_form "FIR-0001" empty_world = (Ok tt, w')
      ∧ Backend.docs_at w' (App.getCollectionPath ready (Some "u1"))
        = Backend.docs_at empty_world (App.getCollectionPath ready (Some "u1")) ++ [(id, rec)]
      ∧ rec !! "imageUrl" = Some VNull
      ∧ rec !! "status" = Some (VStr "Submitted")
      ∧ rec !! "department" = Some (VStr "Unassigned"))
  ∧ (∃ id rec w',
      FirestoreApi.createNewIssue complete_form "FIR-0001" empty_world = (Ok tt, w')
      ∧ Backend.docs_at w' FirestoreApi.ISSUES_COLLECTION
        = Backend.docs_at empty_world FirestoreApi.ISSUES_COLLECTION ++ [(id, rec)]
      ∧ rec !! "imageUrl" = Some (VStr "")
      ∧ rec !! "status" = Some (VStr "Submit")
      ∧ rec !! "department" = Some (VStr "Select Department")).
Proof.
  apply (createNewIssue_defaults ready empty_world (Some "u1") complete_form "FIR-0001");
    reflexivity.
Defined.

(** The stand-alone module, run on a complete submission without image:
    the record it persists has neither the status Submitted nor the
    department Unassigned, and its [imageUrl] is the empty string. *)
Lemma FirestoreApi_createNewIssue_other_defaults :
  ∃ rec w',
    FirestoreApi.createNewIssue complete_form "FIR-0001" empty_world = (Ok tt, w')
    ∧ Backend.docs_at w' "maintenance_issues" = [("doc0", rec)]
    ∧ rec !! "status" = Some (VStr "Submit")
    ∧ rec !! "status" ≠ Some (VStr "Submitted")
    ∧ rec !! "department" = Some (VStr "Select Department")
    ∧ rec !! "department" ≠ Some (VStr "Unassigned")
    ∧ rec !! "imageUrl" = Some (VStr "")
    ∧ rec !! "imageUrl" ≠ None ∧ rec !! "imageUrl" ≠ Some VNull.
Proof.
  eexists _, _. split; [reflexivity|]. split; [reflexivity|].
  repeat split; first [reflexivity | discriminate].
Qed.

Lemma createNewIssue_upload_then_persist_witness :
  let path := "firs/" +:+ "u1" +:+ "/" +:+ Js.String_ (Num (clock empty_world))
              +:+ "_" +:+ file_name photo in
  ∃ id rec w',
    App.createNewIssue ready (Some "u1") form_with_photo "FIR-0001" empty_world = (Ok tt, w')
    ∧ log w' = log empty_world ++ [Uploaded path; GotDownloadURL path;
                                   Added (App.getCollectionPath ready (Some "u1")) id]
    ∧ bucket w' !! path = Some photo
    ∧ Backend.docs_at w' (App.getCollectionPath ready (Some "u1"))
      = Backend.docs_at empty_world (App.getCollectionPath ready (Some "u1")) ++ [(id, rec)]
    ∧ rec !! "imageUrl" = Some (VStr (url_of empty_world path)).
Proof.
  destruct (createNewIssue_upload_then_persist ready empty_world "u1" form_with_photo
              "FIR-0001" photo eq_refl eq_refl eq_refl eq_refl) as [Hup _].
  destruct (Hup eq_refl eq_refl) as [Happ _]. exact Happ.
Defined.

(** The two clients, run on a submission with a photo: the path of the
    stand-alone module has two segments, none of them a user id. *)
Lemma FirestoreApi_storage_path_without_user :
  log (App.createNewIssue ready (Some "u1") form_with_photo "FIR-0001" empty_world).2
  = [Uploaded "firs/u1/1700000000123_leak.png";
     GotDownloadURL "firs/u1/1700000000123_leak.png";
     Added "artifacts/default-app-id/public/data/firs" "doc0"]
  ∧ log (FirestoreApi.createNewIssue form_with_photo "FIR-0001" empty_world).2
    = [Uploaded "fir_images/1700000000123_leak.png";
       GotDownloadURL "fir_images/1700000000123_leak.png";
       Added "maintenance_issues" "doc0"]
  ∧ path_segments (FirestoreApi.storagePath 1700000000123 photo)
    = ["fir_images"; "1700000000123_leak.png"]
  ∧ path_segments (App.storagePath "u1" 1700000000123 photo)
    = ["firs"; "u1"; "1700000000123_leak.png"].
Proof. repeat split; reflexivity. Qed.

End Creation.

(** ** Submission *)

Module Submission.

(** C6, as the code has it: a submission with an empty required field is
    stopped by [handleSubmit] before [createNewIssue] is called: the
    handler returns normally, the backend (bucket, collections, log) and
    the component state are as before.  [createNewIssue] itself does not
    look at the required fields. *)
Theorem handleSubmit_missing_field (g : App.globals) (s : App.state) (w : world) :
  truthy (roomNumber (App.formData s)) = false
  ∨ truthy (issueTitle (App.formData s)) = false
  ∨ truthy (description (App.formData s)) = false →
  (App.handleSubmit g s w).2 = w
  ∧ (falsy_id (App.userId s) = false →
     App.handleSubmit g s w = (App.MissingRequiredFields, s, w)).
Proof.
  intros Hmissing. unfold App.handleSubmit.
  destruct (falsy_id (App.userId s)); [by split|].
  assert (negb (truthy (roomNumber (App.formData s)))
          || negb (truthy (issueTitle (App.formData s)))
          || negb (truthy (description (App.formData s))) = true) as ->.
  { destruct Hmissing as [-> | [-> | ->]]; cbn; rewrite ?orb_true_r; done. }
  by split.
Qed.

Lemma handleSubmit_missing_field_witness :
  (App.handleSubmit ready submitting empty_world).2 = empty_world
  ∧ (falsy_id (App.userId submitting) = false →
     App.handleSubmit ready submitting empty_world
     = (App.MissingRequiredFields, submitting, empty_world)).
Proof.
  apply (handleSubmit_missing_field ready submitting empty_world).
  left. reflexivity.
Defined.

(** [createNewIssue] called with an empty room does not reject: it
    writes the record. *)
Lemma createNewIssue_accepts_empty_room :
  ∃ rec w',
    App.createNewIssue ready (Some "u1") form_without_room "FIR-0001" empty_world
    = (Ok tt, w')
    ∧ Backend.docs_at w' "artifacts/default-app-id/public/data/firs" = [("doc0", rec)]
    ∧ rec !! "roomNumber" = Some (VStr "")
    ∧ log w' = [Added "artifacts/default-app-id/public/data/firs" "doc0"].
Proof.
  set (w' := (App.createNewIssue ready (Some "u1") form_without_room "FIR-0001"
                empty_world).2).
  exists (default ∅ (lookup_doc "doc0"
                       (Backend.docs_at w' "artifacts/default-app-id/public/data/firs"))), w'.
  repeat split; reflexivity.
Qed.

(** A complete form goes through: one record, and the form is reset. *)
Example handleSubmit_complete :
  let s := {| App.userId := Some "u1"; App.formData := complete_form;
              App.nextDisplayId_ := "FIR-0001"; App.loading := false; App.shown := [] |} in
  ∃ s' w',
    App.handleSubmit ready s empty_world = (App.Submitted, s', w')
    ∧ App.formData s' = App.initial_formData
    ∧ App.loading s' = false
    ∧ log w' = [Added "artifacts/default-app-id/public/data/firs" "doc0"].
Proof.
  intros s. exists (App.handleSubmit ready s empty_world).1.2,
                   (App.handleSubmit ready s empty_world).2.
  repeat split; reflexivity.
Qed.

End Submission.

(** ** The sort of the snapshot listener *)

Module SortFacts.
Section Sort.
Context {A : Type} (cmp : A → A → Z).
Hypothesis cmp_total : ∀ x y, cmp x y ≤ 0 ∨ cmp y x ≤ 0.
Hypothesis cmp_trans : ∀ x y z, cmp x y ≤ 0 → cmp y z ≤ 0 → cmp x z ≤ 0.

Lemma insert_sorted_perm x l : Permutation (JsArray.insert_sorted cmp x l) (x :: l).
Proof.
  induction l as [|y l IH]; simpl; [done|].
  destruct (cmp x y <=? 0); [done|].
  rewrite IH. apply perm_swap.
Qed.

Lemma sort_perm l : Permutation (JsArray.sort cmp l) l.
Proof.
  induction l as [|x l IH]; simpl; [done|].
  rewrite insert_sorted_perm. by constructor.
Qed.

Lemma insert_sorted_sorted x l :
  StronglySorted (JsArray.in_order cmp) l →
  StronglySorted (JsArray.in_order cmp) (JsArray.insert_sorted cmp x l).
Proof.
  induction 1 as [|y l Hl IH Hy]; simpl.
  - repeat constructor.
  - destruct (Z.leb_spec (cmp x y) 0) as [Hxy|Hxy].
    + constructor; [by constructor|]. constructor; [done|].
      eapply Forall_impl; [exact Hy|]. intros z Hz. by eapply cmp_trans.
    + constructor; [done|].
      rewrite insert_sorted_perm. constructor; [|done].
      unfold JsArray.in_order. destruct (cmp_total x y); [lia|done].
Qed.

Lemma sort_sorted l : StronglySorted (JsArray.in_order cmp) (JsArray.sort cmp l).
Proof.
  induction l as [|x l IH]; simpl; [constructor|]. by apply insert_sorted_sorted.
Qed.

(** Stability: a list that is in order already is left as it is. *)
Lemma sort_sorted_id l :
  StronglySorted (JsArray.in_order cmp) l → JsArray.sort cmp l = l.
Proof.
  induction 1 as [|x l Hl IH Hx]; simpl; [done|].
  rewrite IH. destruct l as [|y l]; simpl; [done|].
  apply Forall_cons in Hx as [Hxy _]. unfold JsArray.in_order in Hxy.
  destruct (Z.leb_spec (cmp x y) 0); [done|lia].
Qed.
End Sort.
End SortFacts.

(** ** The live subscription *)

Module Subscription.

Lemma StronglySorted_impl {A} (R R' : A → A → Prop) l :
  (∀ x y, R x y → R' x y) → StronglySorted R l → StronglySorted R' l.
Proof.
  intros HR. induction 1 as [|x l Hl IH Hx]; constructor; [done|].
  eapply Forall_impl; [exact Hx|]. intros y. apply HR.
Qed.

Lemma newest_first_total a b : App.newest_first a b ≤ 0 ∨ App.newest_first b a ≤ 0.
Proof. unfold App.newest_first. lia. Qed.

Lemma newest_first_trans a b c :
  App.newest_first a b ≤ 0 → App.newest_first b c ≤ 0 → App.newest_first a c ≤ 0.
Proof. unfold App.newest_first. lia. Qed.

(** What the listener hands to the callback is the snapshot, reordered by
    the seconds of [createdAt], largest first. *)
Lemma on_snapshot_sorted docs :
  StronglySorted by_seconds_desc (App.on_snapshot docs)
  ∧ Permutation (App.on_snapshot docs) (issue_of_doc <$> docs).
Proof.
  unfold App.on_snapshot. split.
  - eapply StronglySorted_impl;
      [|apply (SortFacts.sort_sorted _ newest_first_total newest_first_trans)].
    intros a b.
    unfold by_seconds_desc, creation_second, JsArray.in_order, App.newest_first,
      App.createdAt_seconds.
    lia.
  - apply SortFacts.sort_perm.
Qed.

(** A snapshot that is in that order already is handed over as it is:
    issues of the same second keep the order of the server. *)
Lemma on_snapshot_stable docs :
  StronglySorted by_seconds_desc (issue_of_doc <$> docs) →
  App.on_snapshot docs = issue_of_doc <$> docs.
Proof.
  intros Hs. unfold App.on_snapshot. apply SortFacts.sort_sorted_id.
  eapply StronglySorted_impl; [|exact Hs].
  intros a b.
  unfold by_seconds_desc, creation_second, JsArray.in_order, App.newest_first,
    App.createdAt_seconds.
  lia.
Qed.

Lemma subscribeToIssues_Some g userId pf df w issues :
  App.subscribeToIssues g userId pf df w = Some issues →
  issues = App.on_snapshot (Backend.run_query (App.issuesQuery g userId pf df) w).
Proof.
  unfold App.subscribeToIssues.
  destruct (negb (App.db g) || falsy_id userId); [done|]. by intros [= <-].
Qed.

Lemma issuesQuery_unordered g userId pf df :
  Backend.q_orderBy (App.issuesQuery g userId pf df) = None
  ∧ Backend.q_path (App.issuesQuery g userId pf df) = App.getCollectionPath g userId.
Proof. unfold App.issuesQuery. by repeat case_bool_decide. Qed.




(** Two issues of the same second: the comparator of the integrated
    client looks at the seconds only, so it delivers the older one first
    where the server had it first, against the comment of the source
    ("newest first"); the stand-alone listener does not reorder, its order
    is the one of the server. *)
Lemma same_second_keeps_server_order :
  App.subscribeToIssues ready (Some "u1") "All" "All" same_second_world
  = Some [issue_of_doc ("a", issue_created "FIR-0001" 1700000000 100000000);
          issue_of_doc ("b", issue_created "FIR-0002" 1700000000 900000000)]
  ∧ createdAt_nanos (issue_of_doc ("a", issue_created "FIR-0001" 1700000000 100000000))
    < createdAt_nanos (issue_of_doc ("b", issue_created "FIR-0002" 1700000000 900000000))
  ∧ FirestoreApi.on_snapshot same_second_docs
    = [issue_of_doc ("a", issue_created "FIR-0001" 1700000000 100000000);
       issue_of_doc ("b", issue_created "FIR-0002" 1700000000 900000000)]
  ∧ Backend.q_orderBy FirestoreApi.q = Some ("createdAt", Backend.Desc)
  ∧ FirestoreApi.subscribeToIssues same_second_world
    = [issue_of_doc ("b", issue_created "FIR-0002" 1700000000 900000000);
       issue_of_doc ("a", issue_created "FIR-0001" 1700000000 100000000)].
Proof. repeat split; reflexivity. Qed.

Lemma passes_spec filter field d :
  passes filter field d = true ↔ (filter ≠ "All" → d !! field = Some (VStr filter)).
Proof.
  unfold passes. rewrite orb_true_iff, !bool_decide_eq_true. split.
  - intros [?|?] ?; done.
  - intros H. destruct (decide (filter = "All")); auto.
Qed.

(** The query of the integrated client returns the documents that pass
    both filters, in the order of the collection. *)
Lemma run_query_issuesQuery g userId pf df w :
  Backend.run_query (App.issuesQuery g userId pf df) w
  = List.filter (λ d, passes pf "priority" d.2 && passes df "department" d.2)
      (Backend.docs_at w (App.getCollectionPath g userId)).
Proof.
  unfold Backend.run_query.
  destruct (issuesQuery_unordered g userId pf df) as [-> ->].
  apply List.filter_ext. intros d.
  unfold App.issuesQuery, passes.
  destruct (decide (pf = "All")) as [Hp|Hp], (decide (df = "All")) as [Hd|Hd].
  - rewrite !(bool_decide_eq_false_2 (_ ≠ _)), !(bool_decide_eq_true_2 (_ = "All")) by tauto.
    reflexivity.
  - rewrite (bool_decide_eq_false_2 (pf ≠ _)), (bool_decide_eq_true_2 (pf = _)) by tauto.
    rewrite (bool_decide_eq_true_2 (df ≠ _)), (bool_decide_eq_false_2 (df = _)) by tauto.
    cbn. unfold Backend.satisfies. cbn. by rewrite andb_true_r.
  - rewrite (bool_decide_eq_true_2 (pf ≠ _)), (bool_decide_eq_false_2 (pf = _)) by tauto.
    rewrite (bool_decide_eq_false_2 (df ≠ _)), (bool_decide_eq_true_2 (df = _)) by tauto.
    cbn. unfold Backend.satisfies. cbn. by rewrite !andb_true_r.
  - rewrite (bool_decide_eq_true_2 (pf ≠ _)), (bool_decide_eq_false_2 (pf = _)) by tauto.
    rewrite (bool_decide_eq_true_2 (df ≠ _)), (bool_decide_eq_false_2 (df = _)) by tauto.
    cbn. unfold Backend.satisfies. cbn. by rewrite andb_true_r.
Qed.

(** C7, as the code has it: the delivered list holds exactly the issues
    of the collection whose priority equals the priority filter, when one
    is set, and whose department equals the department filter, when one is
    set; of issues with the priorities Low, High, Critical and Medium the
    filter High alone delivers the one issue of priority High. *)
Theorem subscribeToIssues_filters (g : App.globals) (userId : option string)
    (priorityFilter departmentFilter : string) (w : world) (issues : list jsobj) :
  App.subscribeToIssues g userId priorityFilter departmentFilter w = Some issues →
  Permutation issues
    (issue_of_doc <$>
       List.filter
         (λ d, passes priorityFilter "priority" d.2 && passes departmentFilter "department" d.2)
         (Backend.docs_at w (App.getCollectionPath g userId)))
  ∧ (∀ fir, fir ∈ issues ↔
       ∃ d, d ∈ Backend.docs_at w (App.getCollectionPath g userId)
            ∧ fir = issue_of_doc d
            ∧ (priorityFilter ≠ "All" → d.2 !! "priority" = Some (VStr priorityFilter))
            ∧ (departmentFilter ≠ "All" → d.2 !! "department" = Some (VStr departmentFilter)))
  ∧ App.subscribeToIssues ready (Some "u1") "High" "All" four_priorities_world
    = Some [issue_of_doc ("b", issue_of_priority "FIR-0002" "High" "Electrical")].
Proof.
  intros ->%subscribeToIssues_Some.
  assert (Hperm : Permutation
            (App.on_snapshot
               (Backend.run_query (App.issuesQuery g userId priorityFilter departmentFilter) w))
            (issue_of_doc <$>
               List.filter
                 (λ d, passes priorityFilter "priority" d.2
                       && passes departmentFilter "department" d.2)
                 (Backend.docs_at w (App.getCollectionPath g userId)))).
  { rewrite <- run_query_issuesQuery. apply on_snapshot_sorted. }
  split; [exact Hperm|]. split; [|reflexivity].
  intros fir. rewrite Hperm, list_elem_of_fmap. split.
  - intros (d & -> & Hd). apply list_elem_of_In, filter_In in Hd as [Hd Hpass].
    apply andb_true_iff in Hpass as [Hp Hdep].
    exists d. rewrite <- !passes_spec. by rewrite list_elem_of_In.
  - intros (d & Hd & -> & Hp & Hdep). exists d. split; [done|].
    apply list_elem_of_In, filter_In. split; [by apply list_elem_of_In|].
    apply andb_true_iff. by rewrite !passes_spec.
Qed.

Lemma subscribeToIssues_filters_witness :
  App.subscribeToIssues ready (Some "u1") "High" "All" four_priorities_world
  = Some [issue_of_doc ("b", issue_of_priority "FIR-0002" "High" "Electrical")].
Proof.
  apply (subscribeToIssues_filters ready (Some "u1") "High" "All" four_priorities_world
           [issue_of_doc ("b", issue_of_priority "FIR-0002" "High" "Electrical")]).
  reflexivity.
Defined.

(** With a department filter set as well, an issue whose priority equals
    the priority filter is not delivered when its department differs. *)
Lemma priority_filter_with_department_filter :
  App.subscribeToIssues ready (Some "u1") "High" "Plumbing" four_priorities_world = Some []
  ∧ ("b", issue_of_priority "FIR-0002" "High" "Electrical")
    ∈ Backend.docs_at four_priorities_world (App.getCollectionPath ready (Some "u1"))
  ∧ issue_of_priority "FIR-0002" "High" "Electrical" !! "priority" = Some (VStr "High").
Proof.
  split; [reflexivity|]. split; [|reflexivity].
  apply list_elem_of_In. right. left. reflexivity.
Qed.

(** Without database handle or user nothing is subscribed. *)
Example subscribeToIssues_guard w :
  App.subscribeToIssues ready None "All" "All" w = None.
Proof. reflexivity. Qed.

End Subscription.

(** ** The data model is kept *)

Module DataModel.

Lemma text_fields_newIssue now uid formData displayId imageUrl createdAt updatedAt :
  text_fields
    (Backend.resolve now <$> App.newIssue uid formData displayId imageUrl createdAt updatedAt).
Proof.
  intros f Hf. apply list_elem_of_In in Hf. simpl in Hf.
  destruct Hf as [<-|[<-|[<-|[<-|[]]]]]; exact I.
Qed.

Lemma text_fields_newIssueData now formData customId imageUrl dateTimeString :
  text_fields
    (Backend.resolve now <$> FirestoreApi.newIssueData formData customId imageUrl dateTimeString).
Proof.
  intros f Hf. apply list_elem_of_In in Hf. simpl in Hf.
  destruct Hf as [<-|[<-|[<-|[<-|[]]]]]; exact I.
Qed.

Lemma well_typed_bucket w b : well_typed_store w → well_typed_store (set_bucket b w).
Proof. done. Qed.

Lemma well_typed_record w e : well_typed_store w → well_typed_store (record e w).
Proof. done. Qed.

Lemma addDoc_typed path data w r w' :
  text_fields (Backend.resolve (clock w) <$> data) →
  Backend.addDoc path data w = (r, w') →
  well_typed_store w → well_typed_store w'.
Proof.
  intros Hdata. unfold Backend.addDoc.
  destruct (firestore_up w); intros [= <- <-] Hw; [|done].
  intros p d. destruct (decide (path = p)) as [<-|Hne].
  - change (Backend.docs_at (record ?e (set_next_id ?n ?w0))) with (Backend.docs_at w0).
    rewrite BackendFacts.docs_at_set_firestore.
    intros [Hd|Hd%list_elem_of_singleton]%elem_of_app; [by eapply Hw|by subst].
  - change (Backend.docs_at (record ?e (set_next_id ?n ?w0))) with (Backend.docs_at w0).
    rewrite BackendFacts.docs_at_set_firestore_ne by done. apply Hw.
Qed.

(** [createNewIssue] writes a record of the data model or nothing. *)
Lemma createNewIssue_typed g userId formData displayId w r w' :
  App.createNewIssue g userId formData displayId w = (r, w') →
  well_typed_store w → well_typed_store w'.
Proof.
  unfold App.createNewIssue.
  destruct (negb (App.db g) || negb (App.storage g) || falsy_id userId);
    [by intros [= <- <-]|].
  unfold bind, ret, Backend.Date_now, Backend.uploadBytes, Backend.getDownloadURL,
    Backend.Timestamp_now.
  destruct (imageFile formData) as [f|].
  - destruct (storage_up w) eqn:Hsup; [|by intros [= <- <-]].
    cbn [storage_up record set_bucket bucket]. rewrite Hsup, lookup_insert_eq.
    match goal with |- context [Backend.addDoc ?c ?d ?w1] =>
      destruct (Backend.addDoc c d w1) as [[id|e] w2] eqn:Hadd
    end; intros [= <- <-] Hw;
      (eapply addDoc_typed; [|exact Hadd|by repeat apply well_typed_record]);
      apply text_fields_newIssue.
  - match goal with |- context [Backend.addDoc ?c ?d ?w1] =>
      destruct (Backend.addDoc c d w1) as [[id|e] w2] eqn:Hadd
    end; intros [= <- <-] Hw;
      (eapply addDoc_typed; [|exact Hadd|done]); apply text_fields_newIssue.
Qed.

Lemma FirestoreApi_createNewIssue_typed formData customId w r w' :
  FirestoreApi.createNewIssue formData customId w = (r, w') →
  well_typed_store w → well_typed_store w'.
Proof.
  unfold FirestoreApi.createNewIssue.
  unfold bind, ret, Backend.Date_now, Backend.uploadBytes, Backend.getDownloadURL,
    Backend.Date_toLocaleString.
  destruct (imageFile formData) as [f|].
  - destruct (storage_up w) eqn:Hsup; [|by intros [= <- <-]].
    cbn [storage_up record set_bucket bucket]. rewrite Hsup, lookup_insert_eq.
    match goal with |- context [Backend.addDoc ?c ?d ?w1] =>
      destruct (Backend.addDoc c d w1) as [[id|e] w2] eqn:Hadd
    end; intros [= <- <-] Hw;
      (eapply addDoc_typed; [|exact Hadd|by repeat apply well_typed_record]);
      apply text_fields_newIssueData.
  - match goal with |- context [Backend.addDoc ?c ?d ?w1] =>
      destruct (Backend.addDoc c d w1) as [[id|e] w2] eqn:Hadd
    end; intros [= <- <-] Hw;
      (eapply addDoc_typed; [|exact Hadd|done]); apply text_fields_newIssueData.
Qed.

(** A patch that leaves the searched fields alone keeps the store well
    typed. *)
Lemma updateDoc_typed path id patch w r w' :
  (∀ f, f ∈ search_fields → patch !! f = None) →
  Backend.updateDoc path id patch w = (r, w') →
  well_typed_store w → well_typed_store w'.
Proof.
  intros Hpatch. unfold Backend.updateDoc.
  destruct (firestore_up w); [|by intros [= <- <-]].
  destruct (Backend.update_docs _ _ _) as [docs'|] eqn:Hup; intros [= <- <-] Hw; [|done].
  intros p d. change (Backend.docs_at (record ?e ?w0)) with (Backend.docs_at w0).
  destruct (decide (path = p)) as [<-|Hne];
    [|rewrite BackendFacts.docs_at_set_firestore_ne by done; apply Hw].
  rewrite BackendFacts.docs_at_set_firestore.
  specialize (Hw path). revert docs' Hup d.
  induction (Backend.docs_at w path) as [|[i di] docs IH]; intros docs' Hup d; [done|].
  cbn [Backend.update_docs] in Hup. destruct (decide (i = id)) as [->|Hi].
  - injection Hup as <-. intros [->|Hd]%elem_of_cons.
    + intros f Hf. unfold string_or_missing. cbn [snd].
      rewrite lookup_union_r by (by rewrite lookup_fmap, (Hpatch f Hf)).
      apply (Hw (id, di)); [by left|done].
    + apply Hw. by right.
  - destruct (Backend.update_docs id _ docs) as [docs''|] eqn:Hrec; [|done].
    injection Hup as <-. intros [->|Hd]%elem_of_cons.
    + apply Hw. by left.
    + eapply IH; [|done|done]. intros d' Hd'. apply Hw. by right.
Qed.

(** The management table edits a mutable field: the searched fields and
    the display id stay strings. *)
Lemma updateIssueField_typed g userId issueId field v w r w' :
  field ∈ mutable_fields →
  App.updateIssueField g userId issueId field v w = (r, w') →
  well_typed_store w → well_typed_store w'.
Proof.
  intros Hfield. unfold App.updateIssueField.
  destruct (negb (App.db g) || falsy_id userId); [by intros [= <- <-]|].
  unfold bind, Backend.Timestamp_now. apply updateDoc_typed.
  intros f Hf. unfold App.fieldPatch.
  apply list_elem_of_In in Hf, Hfield. simpl in Hf, Hfield.
  rewrite !lookup_insert_ne, lookup_empty; [done| |].
  - destruct Hfield as [<-|[<-|[<-|[]]]], Hf as [<-|[<-|[<-|[<-|[]]]]]; discriminate.
  - destruct Hf as [<-|[<-|[<-|[<-|[]]]]]; discriminate.
Qed.

Lemma text_fields_issue_of_doc d : text_fields d.2 → text_fields (issue_of_doc d).
Proof.
  intros Hd f Hf. specialize (Hd f Hf). unfold string_or_missing, issue_of_doc in *.
  rewrite lookup_union, lookup_singleton_ne.
  - by destruct (d.2 !! f).
  - apply list_elem_of_In in Hf. simpl in Hf.
    destruct Hf as [<-|[<-|[<-|[<-|[]]]]]; discriminate.
Qed.

Lemma run_query_subset q w d :
  d ∈ Backend.run_query q w → d ∈ Backend.docs_at w (Backend.q_path q).
Proof.
  unfold Backend.run_query. destruct (Backend.q_orderBy q) as [[field dir]|].
  - unfold Backend.server_order.
    rewrite (SortFacts.sort_perm _ _).
    intros Hd%list_elem_of_In%filter_In. destruct Hd as [Hd%filter_In _].
    apply list_elem_of_In. tauto.
  - intros Hd%list_elem_of_In%filter_In. apply list_elem_of_In. tauto.
Qed.

(** Every list a subscription delivers from a well-typed store consists
    of issues of the data model. *)
Lemma delivered_typed g userId pf df w issues :
  well_typed_store w →
  App.subscribeToIssues g userId pf df w = Some issues →
  Forall text_fields issues
  ∧ Forall (λ fir, string_or_missing fir "displayId") issues.
Proof.
  intros Hw ->%Subscription.subscribeToIssues_Some.
  assert (H : Forall text_fields
                (App.on_snapshot (Backend.run_query (App.issuesQuery g userId pf df) w))).
  { apply Forall_forall. intros fir Hfir.
    rewrite (proj2 (Subscription.on_snapshot_sorted _)) in Hfir.
    apply list_elem_of_fmap in Hfir as (d & -> & Hd).
    apply text_fields_issue_of_doc. eapply Hw. by eapply run_query_subset. }
  split; [done|]. eapply Forall_impl; [exact H|].
  intros fir Hfir. apply Hfir. apply list_elem_of_In. simpl. tauto.
Qed.

End DataModel.

(** ** What a creation leaves behind, whatever its path *)

Module CreationFacts.

(** A creation that resolves has added one record, built from the form. *)
Lemma createNewIssue_Ok g userId formData displayId w w' :
  App.createNewIssue g userId formData displayId w = (Ok tt, w') →
  ∃ id imageUrl createdAt updatedAt,
    Backend.docs_at w' (App.getCollectionPath g userId)
    = Backend.docs_at w (App.getCollectionPath g userId)
      ++ [(id, Backend.resolve (clock w) <$>
                 App.newIssue (default "" userId) formData displayId imageUrl
                   createdAt updatedAt)]
    ∧ (imageFile formData = None → imageUrl = VNull ∧ bucket w' = bucket w)
    ∧ App.db g = true ∧ App.storage g = true ∧ falsy_id userId = false
    ∧ firestore_up w = true.
Proof.
  unfold App.createNewIssue.
  destruct (App.db g), (App.storage g), (falsy_id userId); cbn [negb orb];
    try (by intros [=]).
  unfold bind, ret, Backend.Date_now, Backend.uploadBytes, Backend.getDownloadURL,
    Backend.Timestamp_now.
  destruct (firestore_up w) eqn:Hfup.
  2:{ destruct (imageFile formData) as [f|].
      - destruct (storage_up w) eqn:Hsup; [|by intros [=]].
        cbn [storage_up record set_bucket bucket]. rewrite Hsup, lookup_insert_eq.
        match goal with |- context [Backend.addDoc ?c ?d ?w1] =>
          rewrite (BackendFacts.addDoc_down c d w1 Hfup)
        end. by intros [=].
      - rewrite BackendFacts.addDoc_down by done. by intros [=]. }
  destruct (imageFile formData) as [f|].
  - destruct (storage_up w) eqn:Hsup; [|by intros [=]].
    cbn [storage_up record set_bucket bucket]. rewrite Hsup, lookup_insert_eq.
    match goal with |- context [Backend.addDoc ?c ?d ?w1] =>
      destruct (BackendFacts.addDoc_ok c d w1 Hfup) as (id & w2 & -> & Hdocs & _)
    end.
    intros [= <-]. eexists _, _, _, _. split; [exact Hdocs|done].
  - match goal with |- context [Backend.addDoc ?c ?d ?w1] =>
      destruct (BackendFacts.addDoc_ok c d w1 Hfup) as (id & w2 & -> & Hdocs & _ & Hb & _)
    end.
    intros [= <-]. eexists _, _, _, _. split; [exact Hdocs|done].
Qed.

Lemma newIssue_lookup now uid formData displayId imageUrl createdAt updatedAt :
  let rec := Backend.resolve now <$>
               App.newIssue uid formData displayId imageUrl createdAt updatedAt in
  rec !! "displayId" = Some (VStr displayId)
  ∧ rec !! "roomNumber" = Some (VStr (roomNumber formData))
  ∧ rec !! "issueTitle" = Some (VStr (issueTitle formData))
  ∧ rec !! "description" = Some (VStr (description formData))
  ∧ rec !! "priority" = Some (VStr (priority formData))
  ∧ rec !! "status" = Some (VStr "Submitted")
  ∧ rec !! "department" = Some (VStr "Unassigned")
  ∧ rec !! "submittedBy" = Some (VStr uid).
Proof. repeat split; reflexivity. Qed.

End CreationFacts.

(** ** Guards and failures *)

Module Guards.

(** X1: when the database handle is undefined (the initialisation
    failed), nothing reaches the backend: a submission ends without any
    write, also for a complete form, where it fails with the guard's error;
    no subscription is made, and the data sync keeps the old list with the
    spinner on; an edit of the table changes nothing. *)
Theorem nothing_without_database (g : App.globals) (s : App.state) (v : Ui.view)
    (id field : string) (x : value) (priorityFilter departmentFilter : string) (w : world) :
  App.db g = false →
  (App.handleSubmit g s w).2 = w
  ∧ (falsy_id (App.userId s) = false →
     truthy (roomNumber (App.formData s)) = true →
     truthy (issueTitle (App.formData s)) = true →
     truthy (description (App.formData s)) = true →
     (App.handleSubmit g s w).1.1
     = App.SubmissionFailed (Error "Database or storage not initialized."))
  ∧ App.subscribeToIssues g (App.userId s) priorityFilter departmentFilter w = None
  ∧ Ui.firs (Ui.dataSync g priorityFilter departmentFilter v w) = Ui.firs v
  ∧ App.loading (Ui.st (Ui.dataSync g priorityFilter departmentFilter v w)) = true
  ∧ Ui.handleUpdateField g s id field x w = w.
Proof.
  intros Hdb. repeat split.
  - unfold App.handleSubmit, App.createNewIssue. rewrite Hdb.
    destruct (falsy_id (App.userId s)) eqn:Hid; [done|].
    destruct (negb _ || negb _ || negb _); [done|].
    cbn [App.userId App.set_loading negb orb throw]. done.
  - intros Hid H1 H2 H3. unfold App.handleSubmit, App.createNewIssue.
    rewrite Hid, H1, H2, H3, Hdb. reflexivity.
  - unfold App.subscribeToIssues. by rewrite Hdb.
  - unfold Ui.dataSync. rewrite Hdb, orb_true_r. reflexivity.
  - unfold Ui.dataSync. rewrite Hdb, orb_true_r. reflexivity.
  - unfold Ui.handleUpdateField, App.updateIssueField. rewrite Hdb.
    by destruct (falsy_id (App.userId s)).
Qed.

Lemma nothing_without_database_witness :
  (App.handleSubmit
     {| App.db := false; App.storage := true; App.appId := "default-app-id" |}
     (signed_in "u1" complete_form "FIR-0001") world_with_issue).2
  = world_with_issue.
Proof.
  apply (nothing_without_database
           {| App.db := false; App.storage := true; App.appId := "default-app-id" |}
           (signed_in "u1" complete_form "FIR-0001")
           {| Ui.st := signed_in "u1" complete_form "FIR-0001"; Ui.firs := [] |}
           "k3" "status" (VStr "Completed") "All" "All" world_with_issue).
  reflexivity.
Defined.

(** X2: when the upload succeeds and the write is rejected,
    [createNewIssue] rejects, the uploaded file stays in the bucket under
    its path and no document is written: nothing removes the file. *)
Theorem rejected_write_leaves_upload (g : App.globals) (w : world) (uid : string)
    (formData : form) (displayId : string) (f : file) :
  App.db g = true → App.storage g = true → truthy uid = true →
  imageFile formData = Some f →
  storage_up w = true → firestore_up w = false →
  let path := App.storagePath uid (clock w) f in
  ∃ w',
    App.createNewIssue g (Some uid) formData displayId w
    = (Throw (FirebaseError "unavailable"), w')
    ∧ bucket w' !! path = Some f
    ∧ firestore w' = firestore w
    ∧ log w' = log w ++ [Uploaded path; GotDownloadURL path].
Proof.
  intros Hdb Hst Huid Himg Hsup Hfup path.
  unfold App.createNewIssue. rewrite Hdb, Hst, Himg. cbn [falsy_id negb orb].
  rewrite Huid. cbn [negb].
  unfold bind, ret, Backend.Date_now, Backend.uploadBytes, Backend.getDownloadURL,
    Backend.Timestamp_now.
  rewrite Hsup. cbn [storage_up record set_bucket bucket url_of clock default].
  rewrite Hsup, lookup_insert_eq. fold path.
  match goal with |- context [Backend.addDoc ?c ?d ?w1] =>
    rewrite (BackendFacts.addDoc_down c d w1 Hfup)
  end.
  eexists. split; [done|]. cbn [bucket firestore log record set_bucket].
  rewrite lookup_insert_eq, <- !app_assoc. done.
Qed.

Lemma rejected_write_leaves_upload_witness :
  let w := {| firestore := ∅; bucket := ∅; clock := 1700000000123; next_id := 0;
              firestore_up := false; storage_up := true;
              url_of := url_of empty_world; locale_string := locale_string empty_world;
              log := [] |} in
  let path := App.storagePath "u1" (clock w) photo in
  ∃ w',
    App.createNewIssue ready (Some "u1") form_with_photo "FIR-0001" w
    = (Throw (FirebaseError "unavailable"), w')
    ∧ bucket w' !! path = Some photo
    ∧ firestore w' = firestore w
    ∧ log w' = log w ++ [Uploaded path; GotDownloadURL path].
Proof.
  intros w.
  apply (rejected_write_leaves_upload ready w "u1" form_with_photo "FIR-0001" photo);
    reflexivity.
Defined.

End Guards.

(** ** The outcomes of a submission *)

Module SubmitFacts.

(** X3: a signed-in user submitting a form with the three required
    fields, with the backend up, gets one record written that carries the
    room, title, description and priority of the form, the display id the
    component proposed and the user as submitter; the form is reset, the
    spinner is off and the success banner is shown. *)
Theorem handleSubmit_stores_the_form (g : App.globals) (s : App.state) (w : world)
    (uid : string) :
  App.db g = true → App.storage g = true →
  App.userId s = Some uid → truthy uid = true →
  truthy (roomNumber (App.formData s)) = true →
  truthy (issueTitle (App.formData s)) = true →
  truthy (description (App.formData s)) = true →
  firestore_up w = true → storage_up w = true →
  ∃ id rec s' w',
    App.handleSubmit g s w = (App.Submitted, s', w')
    ∧ Backend.docs_at w' (App.getCollectionPath g (Some uid))
      = Backend.docs_at w (App.getCollectionPath g (Some uid)) ++ [(id, rec)]
    ∧ rec !! "displayId" = Some (VStr (App.nextDisplayId_ s))
    ∧ rec !! "roomNumber" = Some (VStr (roomNumber (App.formData s)))
    ∧ rec !! "issueTitle" = Some (VStr (issueTitle (App.formData s)))
    ∧ rec !! "description" = Some (VStr (description (App.formData s)))
    ∧ rec !! "priority" = Some (VStr (priority (App.formData s)))
    ∧ rec !! "submittedBy" = Some (VStr uid)
    ∧ App.formData s' = App.initial_formData
    ∧ App.loading s' = false
    ∧ App.shown s' = App.shown s ++ [App.SuccessMessage]
    ∧ App.nextDisplayId_ s' = App.nextDisplayId_ s.
Proof.
  intros Hdb Hst Hu Huid H1 H2 H3 Hfup Hsup.
  assert (Hid : falsy_id (Some uid) = false) by (cbn; by rewrite Huid).
  assert (Hrun : ∃ w', App.createNewIssue g (Some uid) (App.formData s)
                         (App.nextDisplayId_ s) w = (Ok tt, w')).
  { destruct (imageFile (App.formData s)) as [f|] eqn:Himg.
    - destruct (Creation.App_createNewIssue_with_image g w (Some uid) (App.formData s)
                  (App.nextDisplayId_ s) f Hdb Hst Hid Himg Hsup Hfup)
        as (? & ? & w' & Hr & _). by exists w'.
    - destruct (Creation.App_createNewIssue_no_image g w (Some uid) (App.formData s)
                  (App.nextDisplayId_ s) Hdb Hst Hid Himg Hfup)
        as (? & ? & w' & Hr & _). by exists w'. }
  destruct Hrun as [w' Hrun].
  destruct (CreationFacts.createNewIssue_Ok _ _ _ _ _ _ Hrun)
    as (id & imageUrl & c & u & Hdocs & _).
  unfold App.handleSubmit.
  cbn [App.userId App.formData App.nextDisplayId_ App.set_loading].
  rewrite !Hu, Hid, H1, H2, H3. cbn [negb orb]. rewrite Hrun.
  eexists id, _, _, w'. split; [reflexivity|]. split; [exact Hdocs|].
  repeat split; reflexivity.
Qed.

Lemma handleSubmit_stores_the_form_witness :
  ∃ id rec s' w',
    App.handleSubmit ready (signed_in "u1" complete_form "FIR-0002") world_with_issue
    = (App.Submitted, s', w')
    ∧ Backend.docs_at w' (App.getCollectionPath ready (Some "u1"))
      = Backend.docs_at world_with_issue (App.getCollectionPath ready (Some "u1"))
        ++ [(id, rec)]
    ∧ rec !! "displayId" = Some (VStr "FIR-0002")
    ∧ rec !! "roomNumber" = Some (VStr "Room 301")
    ∧ rec !! "issueTitle" = Some (VStr "AC is making noise")
    ∧ rec !! "description" = Some (VStr "Rattles at night")
    ∧ rec !! "priority" = Some (VStr "High")
    ∧ rec !! "submittedBy" = Some (VStr "u1")
    ∧ App.formData s' = App.initial_formData
    ∧ App.loading s' = false
    ∧ App.shown s' = [] ++ [App.SuccessMessage]
    ∧ App.nextDisplayId_ s' = "FIR-0002".
Proof.
  apply (handleSubmit_stores_the_form ready (signed_in "u1" complete_form "FIR-0002")
           world_with_issue "u1"); reflexivity.
Defined.

(** X4: when the write is rejected, the submission of a form without
    image fails without any effect on the backend, and the form keeps what
    the user typed: only the error banner is added and the spinner is
    off. *)
Theorem handleSubmit_failure_keeps_form (g : App.globals) (s : App.state) (w : world) :
  App.db g = true → App.storage g = true →
  falsy_id (App.userId s) = false →
  truthy (roomNumber (App.formData s)) = true →
  truthy (issueTitle (App.formData s)) = true →
  truthy (description (App.formData s)) = true →
  imageFile (App.formData s) = None →
  firestore_up w = false →
  ∃ s',
    App.handleSubmit g s w = (App.SubmissionFailed (FirebaseError "unavailable"), s', w)
    ∧ App.formData s' = App.formData s
    ∧ App.nextDisplayId_ s' = App.nextDisplayId_ s
    ∧ App.loading s' = false
    ∧ App.shown s' = App.shown s ++ [App.ErrorSubmissionModal].
Proof.
  intros Hdb Hst Hid H1 H2 H3 Himg Hfup.
  unfold App.handleSubmit. rewrite Hid, H1, H2, H3. cbn [negb orb].
  unfold App.createNewIssue.
  cbn [App.userId App.formData App.nextDisplayId_ App.set_loading].
  rewrite Hdb, Hst, Hid, Himg. cbn [negb orb].
  unfold bind, ret, Backend.Timestamp_now.
  rewrite BackendFacts.addDoc_down by done.
  eexists. split; [reflexivity|]. repeat split; reflexivity.
Qed.

Lemma handleSubmit_failure_keeps_form_witness :
  let w := {| firestore := ∅; bucket := ∅; clock := 1700000000123; next_id := 0;
              firestore_up := false; storage_up := true;
              url_of := url_of empty_world; locale_string := locale_string empty_world;
              log := [] |} in
  ∃ s',
    App.handleSubmit ready (signed_in "u1" complete_form "FIR-0001") w
    = (App.SubmissionFailed (FirebaseError "unavailable"), s', w)
    ∧ App.formData s' = complete_form
    ∧ App.nextDisplayId_ s' = "FIR-0001"
    ∧ App.loading s' = false
    ∧ App.shown s' = [] ++ [App.ErrorSubmissionModal].
Proof.
  intros w.
  apply (handleSubmit_failure_keeps_form ready (signed_in "u1" complete_form "FIR-0001") w);
    reflexivity.
Defined.

End SubmitFacts.

(** ** From a creation to the list and to the search *)

Module RoundTrip.

Lemma filteredFirs_filter firs term :
  Forall text_fields firs →
  App.filteredFirs firs term = Ok (List.filter (hits term) firs).
Proof.
  induction 1 as [|fir firs Hfir _ IH]; [done|].
  destruct (Search.searchMatch_typed term fir Hfir) as (b & Hb & _).
  cbn [App.filteredFirs List.filter]. unfold hits at 1. rewrite Hb, IH. done.
Qed.

Lemma hits_spec term fir :
  text_fields fir → hits term fir = true ↔ search_hit term fir.
Proof.
  intros Hfir. destruct (Search.searchMatch_typed term fir Hfir) as (b & Hb & Hiff).
  unfold hits. by rewrite Hb.
Qed.

Lemma ci_substring_refl s : ci_substring s s.
Proof.
  exists EmptyString, EmptyString. rewrite JsFacts.app_nil.
  induction (Js.toLowerCase s) as [|c t IH]; [done|].
  rewrite JsFacts.app_cons. by rewrite <- IH.
Qed.

Lemma passes_All field d : passes "All" field d = true.
Proof. unfold passes. by rewrite bool_decide_eq_true_2. Qed.

(** The list delivered after a creation is the one delivered before plus
    the new issue when it passes the filters. *)
Lemma subscribe_after_create g userId formData displayId pf df w w' issues :
  App.createNewIssue g userId formData displayId w = (Ok tt, w') →
  App.subscribeToIssues g userId pf df w = Some issues →
  ∃ id imageUrl createdAt updatedAt issues',
    let rec := Backend.resolve (clock w) <$>
                 App.newIssue (default "" userId) formData displayId imageUrl
                   createdAt updatedAt in
    App.subscribeToIssues g userId pf df w' = Some issues'
    ∧ Permutation issues'
        (issues ++ (if passes pf "priority" rec && passes df "department" rec
                    then [issue_of_doc (id, rec)] else [])).
Proof.
  intros Hrun Hsub.
  destruct (CreationFacts.createNewIssue_Ok _ _ _ _ _ _ Hrun)
    as (id & imageUrl & c & u & Hdocs & _ & Hdb & _ & Hid & _).
  exists id, imageUrl, c, u. eexists. cbn zeta. split.
  - unfold App.subscribeToIssues. rewrite Hdb, Hid. reflexivity.
  - apply Subscription.subscribeToIssues_Some in Hsub as ->.
    rewrite !(proj2 (Subscription.on_snapshot_sorted _)).
    rewrite !Subscription.run_query_issuesQuery, Hdocs, List.filter_app, fmap_app.
    apply Permutation_app_head. cbn [List.filter snd].
    by destruct (passes pf "priority" _ && passes df "department" _).
Qed.

(** X5: after a creation that resolved, the subscription delivers what
    it delivered before plus the new issue, if that passes the filters: it
    always appears without filters, and it does not appear under a
    department filter other than Unassigned, since it is stored with that
    department. *)
Theorem created_issue_is_delivered (g : App.globals) (userId : option string)
    (formData : form) (displayId pf df : string) (w w' : world) (issues : list jsobj) :
  App.createNewIssue g userId formData displayId w = (Ok tt, w') →
  App.subscribeToIssues g userId pf df w = Some issues →
  ∃ id rec issues',
    App.subscribeToIssues g userId pf df w' = Some issues'
    ∧ rec !! "displayId" = Some (VStr displayId)
    ∧ rec !! "priority" = Some (VStr (priority formData))
    ∧ rec !! "department" = Some (VStr "Unassigned")
    ∧ Permutation issues'
        (issues ++ (if passes pf "priority" rec && passes df "department" rec
                    then [issue_of_doc (id, rec)] else []))
    ∧ (pf = "All" → df = "All" → Permutation issues' (issues ++ [issue_of_doc (id, rec)]))
    ∧ (df ≠ "All" → df ≠ "Unassigned" → Permutation issues' issues).
Proof.
  intros Hrun Hsub.
  destruct (subscribe_after_create _ _ _ _ pf df _ _ _ Hrun Hsub)
    as (id & imageUrl & c & u & issues' & Hsub' & Hperm).
  exists id, (Backend.resolve (clock w) <$>
                App.newIssue (default "" userId) formData displayId imageUrl c u), issues'.
  split; [exact Hsub'|].
  split; [reflexivity|]. split; [reflexivity|]. split; [reflexivity|].
  split; [exact Hperm|]. split.
  - intros -> ->. exact Hperm.
  - intros Hall Hun. rewrite Hperm.
    assert (passes df "department"
              (Backend.resolve (clock w) <$>
                 App.newIssue (default "" userId) formData displayId imageUrl c u) = false)
      as ->.
    { unfold passes. rewrite bool_decide_eq_false_2 by done. cbn [orb].
      apply bool_decide_eq_false_2. intros [= E]. by apply Hun. }
    rewrite andb_false_r. by rewrite app_nil_r.
Qed.

Lemma created_issue_is_delivered_witness :
  ∃ id rec issues',
    App.subscribeToIssues ready (Some "u1") "All" "Plumbing"
      (App.createNewIssue ready (Some "u1") complete_form "FIR-0005"
         four_priorities_world).2
    = Some issues'
    ∧ rec !! "displayId" = Some (VStr "FIR-0005")
    ∧ rec !! "priority" = Some (VStr (priority complete_form))
    ∧ rec !! "department" = Some (VStr "Unassigned")
    ∧ Permutation issues'
        ([issue_of_doc ("c", issue_of_priority "FIR-0003" "Critical" "Plumbing")]
         ++ (if passes "All" "priority" rec && passes "Plumbing" "department" rec
             then [issue_of_doc (id, rec)] else []))
    ∧ ("All" = "All" → "Plumbing" = "All" →
       Permutation issues'
         ([issue_of_doc ("c", issue_of_priority "FIR-0003" "Critical" "Plumbing")]
          ++ [issue_of_doc (id, rec)]))
    ∧ ("Plumbing" ≠ "All" → "Plumbing" ≠ "Unassigned" →
       Permutation issues'
         [issue_of_doc ("c", issue_of_priority "FIR-0003" "Critical" "Plumbing")]).
Proof.
  apply (created_issue_is_delivered ready (Some "u1") complete_form "FIR-0005"
           "All" "Plumbing" four_priorities_world
           (App.createNewIssue ready (Some "u1") complete_form "FIR-0005"
              four_priorities_world).2); reflexivity.
Defined.

(** X6: on a store of the data model, a new issue is found by the
    search, in the unfiltered list, under every term that occurs in its
    room, case ignored. *)
Theorem created_issue_is_found (g : App.globals) (userId : option string)
    (formData : form) (displayId term : string) (w w' : world) (issues' : list jsobj) :
  well_typed_store w →
  App.createNewIssue g userId formData displayId w = (Ok tt, w') →
  App.subscribeToIssues g userId "All" "All" w' = Some issues' →
  ci_substring term (roomNumber formData) →
  ∃ kept fir,
    App.filteredFirs issues' term = Ok kept
    ∧ fir ∈ kept
    ∧ fir !! "displayId" = Some (VStr displayId)
    ∧ fir !! "roomNumber" = Some (VStr (roomNumber formData)).
Proof.
  intros Hw Hrun Hsub' Hterm.
  pose proof (DataModel.createNewIssue_typed _ _ _ _ _ _ _ Hrun Hw) as Hw'.
  destruct (DataModel.delivered_typed _ _ _ _ _ _ Hw' Hsub') as [Hty _].
  assert (Hsub : ∃ issues, App.subscribeToIssues g userId "All" "All" w = Some issues).
  { destruct (CreationFacts.createNewIssue_Ok _ _ _ _ _ _ Hrun)
      as (_ & _ & _ & _ & _ & _ & Hdb & _ & Hid & _).
    unfold App.subscribeToIssues. rewrite Hdb, Hid. eauto. }
  destruct Hsub as [issues Hsub].
  destruct (subscribe_after_create _ _ _ _ "All" "All" _ _ _ Hrun Hsub)
    as (id & imageUrl & c & u & issues'' & Hsub'' & Hperm).
  cbn zeta in *. rewrite Hsub' in Hsub''. injection Hsub'' as <-.
  rewrite !passes_All in Hperm. cbn [andb] in Hperm.
  set (fir := issue_of_doc (id, Backend.resolve (clock w) <$>
                App.newIssue (default "" userId) formData displayId imageUrl c u)) in *.
  assert (Hin : fir ∈ issues').
  { rewrite Hperm. apply elem_of_app. right. by left. }
  exists (List.filter (hits term) issues'), fir.
  split; [by apply filteredFirs_filter|].
  assert (Hroom : fir !! "roomNumber" = Some (VStr (roomNumber formData))) by reflexivity.
  split; [|split; [reflexivity|exact Hroom]].
  apply list_elem_of_In, filter_In. split; [by apply list_elem_of_In|].
  apply hits_spec.
  - eapply Forall_forall in Hty; [exact Hty|done].
  - exists "roomNumber", (roomNumber formData). split; [|done].
    apply list_elem_of_In. simpl. tauto.
Qed.

Lemma created_issue_is_found_witness :
  ∃ kept fir,
    App.filteredFirs
      (default [] (App.subscribeToIssues ready (Some "u1") "All" "All"
                     (App.createNewIssue ready (Some "u1") complete_form "FIR-0002"
                        world_with_issue).2))
      "room 3"
    = Ok kept
    ∧ fir ∈ kept
    ∧ fir !! "displayId" = Some (VStr "FIR-0002")
    ∧ fir !! "roomNumber" = Some (VStr (roomNumber complete_form)).
Proof.
  apply (created_issue_is_found ready (Some "u1") complete_form "FIR-0002" "room 3"
           world_with_issue
           (App.createNewIssue ready (Some "u1") complete_form "FIR-0002"
              world_with_issue).2).
  - intros path d Hd f Hf.
    assert (Hd' : d = ("k3", stored_issue)).
    { unfold Backend.docs_at, world_with_issue in Hd. cbn in Hd.
      destruct (decide (path = "artifacts/default-app-id/public/data/firs")) as [->|].
      { rewrite lookup_insert_eq in Hd. by apply list_elem_of_singleton in Hd. }
      rewrite lookup_insert_ne in Hd by done.
      destruct (decide (path = "maintenance_issues")) as [->|].
      { rewrite lookup_insert_eq in Hd. by apply list_elem_of_singleton in Hd. }
      rewrite lookup_insert_ne, lookup_empty in Hd by done. by apply elem_of_nil in Hd. }
    subst d. apply list_elem_of_In in Hf. simpl in Hf.
    destruct Hf as [<-|[<-|[<-|[<-|[]]]]]; exact I.
  - reflexivity.
  - reflexivity.
  - exists "", "01". reflexivity.
Defined.

End RoundTrip.

(** ** More on the allocator *)

Module AllocatorFacts.

Lemma max_suffix_perm data data' :
  Permutation data data' → max_suffix data = max_suffix data'.
Proof.
  unfold max_suffix. induction 1 as [|x l l' _ IH|x y l|l l' l'' _ IH1 _ IH2].
  - done.
  - rewrite !fmap_cons. cbn [foldr]. by rewrite IH.
  - rewrite !fmap_cons. cbn [foldr]. lia.
  - by rewrite IH1.
Qed.

(** X7: the proposal does not depend on the order of the list: two
    lists of issues of the data model with the same issues get the same
    next display id, so the sort of the subscription has no influence on
    it. *)
Theorem nextDisplayId_order_independent (data data' : list jsobj) :
  Forall (λ fir, string_or_missing fir "displayId") data →
  Permutation data data' →
  App.nextDisplayId data = App.nextDisplayId data'.
Proof.
  intros Hty Hperm.
  assert (Hty' : Forall (λ fir, string_or_missing fir "displayId") data')
    by (by rewrite <- Hperm).
  unfold App.nextDisplayId, App.highestId.
  rewrite !Allocator.reduce_max by (done || lia).
  by rewrite (max_suffix_perm _ _ Hperm).
Qed.

Lemma nextDisplayId_order_independent_witness :
  App.nextDisplayId two_issues
  = App.nextDisplayId [issue_with_displayId "FIR-0003"; issue_with_displayId "FIR-0001"].
Proof.
  apply (nextDisplayId_order_independent two_issues).
  - repeat (constructor; [exact I|]). constructor.
  - apply perm_swap.
Defined.

Lemma read_display_id n :
  Js.parseInt (Js.slice 4 (display_id_of n)) = Num (Z.of_N n).
Proof.
  unfold display_id_of. change (Js.slice 4 ("FIR-" +:+ ?x)) with x.
  apply JsFacts.parseInt_padded.
Qed.

Lemma display_id_of_inj n m : display_id_of n = display_id_of m → n = m.
Proof.
  intros H. pose proof (read_display_id n) as Hn. rewrite H, read_display_id in Hn.
  injection Hn as Hn. lia.
Qed.

(** X8: what the allocator prints it reads back: the suffix of the id
    made from a number (a safe integer, not negative) parses to that
    number, so different numbers give different ids, also beyond 9999,
    where the id grows longer than four digits. *)
Theorem displayId_round_trip (n : Z) :
  0 ≤ n → n ≤ MAX_SAFE_INTEGER →
  Js.parseInt (Js.slice 4 (App.format_displayId (Num n))) = Num n
  ∧ (∀ m, 0 ≤ m → m ≤ MAX_SAFE_INTEGER →
          App.format_displayId (Num n) = App.format_displayId (Num m) → n = m)
  ∧ App.format_displayId (Num 10000) = "FIR-10000".
Proof.
  intros Hn _. split; [|split; [|reflexivity]].
  - rewrite Allocator.format_displayId_nonneg, read_display_id by done.
    f_equal. lia.
  - intros m Hm _. rewrite !Allocator.format_displayId_nonneg by done.
    intros H%display_id_of_inj. lia.
Qed.

Lemma displayId_round_trip_witness :
  Js.parseInt (Js.slice 4 (App.format_displayId (Num 42))) = Num 42
  ∧ (∀ m, 0 ≤ m → m ≤ MAX_SAFE_INTEGER →
          App.format_displayId (Num 42) = App.format_displayId (Num m) → 42 = m)
  ∧ App.format_displayId (Num 10000) = "FIR-10000".
Proof. apply (displayId_round_trip 42); [lia|reflexivity || (unfold MAX_SAFE_INTEGER; lia)]. Defined.

Lemma max_id_ge ns n : n ∈ ns → (n ≤ max_id ns)%N.
Proof.
  unfold max_id. induction ns as [|x ns IH]; [by intros ?%elem_of_nil|].
  intros [->|Hn]%elem_of_cons; cbn [foldr]; [lia|]. specialize (IH Hn). lia.
Qed.

(** X9: when every issue of the list carries an id of the form
    FIR-%04d (of a safe integer), the proposed id is carried by none of
    them. *)
Theorem nextDisplayId_fresh (data : list jsobj) (ns : list N) :
  Forall2 (λ fir n, fir !! "displayId" = Some (VStr (display_id_of n))) data ns →
  Forall (λ n, Z.of_N n < MAX_SAFE_INTEGER) ns →
  ∃ proposal,
    App.nextDisplayId data = Ok proposal
    ∧ ∀ fir, fir ∈ data → fir !! "displayId" ≠ Some (VStr proposal).
Proof.
  intros Hids _. exists (display_id_of (max_id ns + 1)). split.
  - unfold App.nextDisplayId, App.highestId.
    rewrite (Allocator.reduce_of_display_ids _ _ 0 ltac:(lia) Hids). cbn [Js.succ].
    rewrite Allocator.format_displayId_nonneg by lia. do 2 f_equal. lia.
  - intros fir Hfir Heq.
    apply list_elem_of_lookup in Hfir as [i Hi].
    destruct (Forall2_lookup_l _ _ _ _ _ Hids Hi) as (n & Hn & Hid).
    rewrite Hid in Heq.
    assert (E : display_id_of n = display_id_of (max_id ns + 1)) by congruence.
    apply display_id_of_inj in E.
    apply list_elem_of_lookup_2, max_id_ge in Hn. lia.
Qed.

Lemma nextDisplayId_fresh_witness :
  ∃ proposal,
    App.nextDisplayId two_issues = Ok proposal
    ∧ ∀ fir, fir ∈ two_issues → fir !! "displayId" ≠ Some (VStr proposal).
Proof.
  apply (nextDisplayId_fresh two_issues [1; 3]%N).
  - repeat (constructor; [reflexivity|]). constructor.
  - repeat (constructor; [reflexivity|]). constructor.
Defined.

End AllocatorFacts.

(** ** Allocation across the data sync and the submission *)

Module Sequence.

Lemma displayId_issue_of_doc d : issue_of_doc d !! "displayId" = d.2 !! "displayId".
Proof.
  unfold issue_of_doc. rewrite lookup_union, lookup_singleton_ne by done.
  by destruct (d.2 !! "displayId").
Qed.

Lemma filter_all {A} (f : A → bool) l : (∀ x, f x = true) → List.filter f l = l.
Proof. intros Hf. induction l as [|x l IH]; simpl; [done|]. by rewrite Hf, IH. Qed.

Lemma filter_none {A} (f : A → bool) l :
  (∀ x, x ∈ l → f x = false) → List.filter f l = [].
Proof.
  induction l as [|x l IH]; intros Hf; simpl; [done|].
  rewrite Hf by (by left). apply IH. intros y Hy. apply Hf. by right.
Qed.

Lemma run_query_all g userId w :
  Backend.run_query (App.issuesQuery g userId "All" "All") w
  = Backend.docs_at w (App.getCollectionPath g userId).
Proof.
  rewrite Subscription.run_query_issuesQuery. apply filter_all.
  intros d. by rewrite !RoundTrip.passes_All.
Qed.

Lemma suffix_number_display_id fir n :
  fir !! "displayId" = Some (VStr (display_id_of n)) → suffix_number fir = Z.of_N n.
Proof.
  intros H. unfold suffix_number. by rewrite H, AllocatorFacts.read_display_id.
Qed.

Lemma typed_display_id fir n :
  fir !! "displayId" = Some (VStr (display_id_of n)) → string_or_missing fir "displayId".
Proof. intros H. unfold string_or_missing. by rewrite H. Qed.

Lemma max_suffix_ids (docs : list (string * jsobj)) ns :
  ids_are docs ns →
  max_suffix (issue_of_doc <$> docs) = Z.of_N (max_id ns)
  ∧ Forall (λ fir, string_or_missing fir "displayId") (issue_of_doc <$> docs).
Proof.
  unfold ids_are, max_suffix, max_id.
  induction 1 as [|d n docs ns Hd _ [IH1 IH2]]; [by split|].
  rewrite <- displayId_issue_of_doc in Hd.
  rewrite !fmap_cons. cbn [foldr]. split.
  - rewrite (suffix_number_display_id _ _ Hd), IH1. lia.
  - constructor; [by eapply typed_display_id|done].
Qed.

(** What the callback proposes from the snapshot of a collection whose
    ids are those of [ns]. *)
Lemma proposal_of_snapshot (docs : list (string * jsobj)) ns :
  ids_are docs ns →
  App.nextDisplayId (App.on_snapshot docs) = Ok (display_id_of (max_id ns + 1)).
Proof.
  intros Hids. destruct (max_suffix_ids _ _ Hids) as [Hmax Hty].
  pose proof (proj2 (Subscription.on_snapshot_sorted docs)) as Hperm.
  unfold App.nextDisplayId, App.highestId.
  rewrite Allocator.reduce_max; [|lia|by rewrite Hperm].
  rewrite (AllocatorFacts.max_suffix_perm _ _ Hperm), Hmax. cbn [Js.succ].
  rewrite Allocator.format_displayId_nonneg by lia. do 2 f_equal. lia.
Qed.

Lemma max_id_snoc ns n : max_id (ns ++ [n]) = N.max (max_id ns) n.
Proof.
  unfold max_id. induction ns as [|x ns IH]; cbn [foldr app]; [lia|].
  rewrite IH. lia.
Qed.

(** X10: a signed-in client that works without filters gets ids in
    sequence: from a collection whose ids are FIR-%04d of the numbers [ns]
    the data sync proposes the id of the largest number plus one, the
    submission stores its record under that id, and the next data sync
    shows one issue more and proposes the id after it. *)
Theorem consecutive_display_ids (g : App.globals) (s : App.state) (w : world)
    (uid : string) (ns : list N) :
  App.db g = true → App.storage g = true →
  App.userId s = Some uid → truthy uid = true →
  truthy (roomNumber (App.formData s)) = true →
  truthy (issueTitle (App.formData s)) = true →
  truthy (description (App.formData s)) = true →
  firestore_up w = true → storage_up w = true →
  ids_are (Backend.docs_at w (App.getCollectionPath g (Some uid))) ns →
  Forall (λ n, Z.of_N n + 1 < MAX_SAFE_INTEGER) ns →
  let v1 := Ui.dataSync g "All" "All" {| Ui.st := s; Ui.firs := [] |} w in
  App.nextDisplayId_ (Ui.st v1) = display_id_of (max_id ns + 1)
  ∧ ∃ s2 w2,
      App.handleSubmit g (Ui.st v1) w = (App.Submitted, s2, w2)
      ∧ ids_are (Backend.docs_at w2 (App.getCollectionPath g (Some uid)))
          (ns ++ [max_id ns + 1]%N)
      ∧ let v2 := Ui.dataSync g "All" "All" {| Ui.st := s2; Ui.firs := Ui.firs v1 |} w2 in
        App.nextDisplayId_ (Ui.st v2) = display_id_of (max_id ns + 2)
        ∧ length (Ui.firs v2) = S (length (Ui.firs v1)).
Proof.
  intros Hdb Hst Hu Huid H1 H2 H3 Hfup Hsup Hids _ v1.
  assert (Hid : falsy_id (Some uid) = false) by (cbn; by rewrite Huid).
  assert (Hv1 : v1 = Ui.callback
                  (App.on_snapshot (Backend.docs_at w (App.getCollectionPath g (Some uid))))
                  {| Ui.st := App.set_loading true s; Ui.firs := [] |}).
  { subst v1. unfold Ui.dataSync, App.subscribeToIssues. cbn [Ui.st Ui.firs].
    rewrite Hu, Hid, Hdb. cbn [negb orb]. by rewrite run_query_all. }
  assert (Hnext : App.nextDisplayId_ (Ui.st v1) = display_id_of (max_id ns + 1)).
  { rewrite Hv1. unfold Ui.callback. cbn [Ui.st]. by rewrite (proposal_of_snapshot _ _ Hids). }
  assert (Hform : App.formData (Ui.st v1) = App.formData s
                  ∧ App.userId (Ui.st v1) = Some uid).
  { rewrite Hv1. unfold Ui.callback. cbn [Ui.st].
    rewrite (proposal_of_snapshot _ _ Hids). by split. }
  destruct Hform as [Hform Hu1].
  split; [exact Hnext|].
  assert (Hrun : ∃ w2, App.createNewIssue g (Some uid) (App.formData s)
                         (display_id_of (max_id ns + 1)) w = (Ok tt, w2)).
  { destruct (imageFile (App.formData s)) as [f|] eqn:Himg.
    - destruct (Creation.App_createNewIssue_with_image g w (Some uid) (App.formData s)
                  (display_id_of (max_id ns + 1)) f Hdb Hst Hid Himg Hsup Hfup)
        as (? & ? & w2 & Hr & _). by exists w2.
    - destruct (Creation.App_createNewIssue_no_image g w (Some uid) (App.formData s)
                  (display_id_of (max_id ns + 1)) Hdb Hst Hid Himg Hfup)
        as (? & ? & w2 & Hr & _). by exists w2. }
  destruct Hrun as [w2 Hrun].
  destruct (CreationFacts.createNewIssue_Ok _ _ _ _ _ _ Hrun)
    as (id & imageUrl & c & u & Hdocs & _).
  assert (Hids2 : ids_are (Backend.docs_at w2 (App.getCollectionPath g (Some uid)))
                    (ns ++ [max_id ns + 1]%N)).
  { rewrite Hdocs. apply Forall2_app; [exact Hids|]. constructor; [|constructor].
    reflexivity. }
  eexists _, w2. split; [|split; [exact Hids2|]].
  - unfold App.handleSubmit.
    cbn [App.userId App.formData App.nextDisplayId_ App.set_loading].
    rewrite !Hu1, Hid, !Hform, Hnext, H1, H2, H3. cbn [negb orb]. rewrite Hrun.
    reflexivity.
  - cbn zeta. unfold Ui.dataSync, App.subscribeToIssues.
    cbn [Ui.st Ui.firs App.userId App.set_loading App.set_formData App.show].
    rewrite !Hu1, Hid, Hdb. cbn [negb orb]. rewrite run_query_all.
    unfold Ui.callback. cbn [Ui.st Ui.firs].
    rewrite (proposal_of_snapshot _ _ Hids2). cbn [App.nextDisplayId_ Ui.set_nextDisplayId].
    split.
    + f_equal. rewrite max_id_snoc. lia.
    + rewrite Hv1. unfold Ui.callback. cbn [Ui.firs].
      rewrite !(Permutation_length (proj2 (Subscription.on_snapshot_sorted _))).
      rewrite !length_fmap, Hdocs, length_app. cbn. lia.
Qed.

Lemma consecutive_display_ids_witness :
  let v1 := Ui.dataSync ready "All" "All"
              {| Ui.st := signed_in "u1" complete_form "FIR-0001"; Ui.firs := [] |}
              world_with_issue in
  App.nextDisplayId_ (Ui.st v1) = display_id_of (max_id [1%N] + 1)
  ∧ ∃ s2 w2,
      App.handleSubmit ready (Ui.st v1) world_with_issue = (App.Submitted, s2, w2)
      ∧ ids_are (Backend.docs_at w2 (App.getCollectionPath ready (Some "u1")))
          ([1%N] ++ [max_id [1%N] + 1]%N)
      ∧ let v2 := Ui.dataSync ready "All" "All" {| Ui.st := s2; Ui.firs := Ui.firs v1 |} w2 in
        App.nextDisplayId_ (Ui.st v2) = display_id_of (max_id [1%N] + 2)
        ∧ length (Ui.firs v2) = S (length (Ui.firs v1)).
Proof.
  apply (consecutive_display_ids ready (signed_in "u1" complete_form "FIR-0001")
           world_with_issue "u1" [1%N]); try reflexivity.
  - repeat (constructor; [reflexivity|]). constructor.
  - repeat (constructor; [reflexivity|]). constructor.
Defined.

(** X11: the proposal is made from the filtered list: when no document
    of the collection passes the filters, the data sync shows an empty list
    and proposes FIR-0001, whatever ids the collection holds. *)
Theorem filtered_sync_proposes_first_id (g : App.globals) (v : Ui.view) (w : world)
    (priorityFilter departmentFilter : string) :
  App.db g = true → falsy_id (App.userId (Ui.st v)) = false →
  (∀ d, d ∈ Backend.docs_at w (App.getCollectionPath g (App.userId (Ui.st v))) →
        passes priorityFilter "priority" d.2 && passes departmentFilter "department" d.2
        = false) →
  Ui.firs (Ui.dataSync g priorityFilter departmentFilter v w) = []
  ∧ App.nextDisplayId_ (Ui.st (Ui.dataSync g priorityFilter departmentFilter v w))
    = "FIR-0001".
Proof.
  intros Hdb Hid Hnone. unfold Ui.dataSync, App.subscribeToIssues.
  rewrite Hid, Hdb. cbn [negb orb].
  rewrite Subscription.run_query_issuesQuery, filter_none by done.
  split; reflexivity.
Qed.

Lemma filtered_sync_proposes_first_id_witness :
  Ui.firs (Ui.dataSync ready "High" "All"
             {| Ui.st := signed_in "u1" complete_form "FIR-0002"; Ui.firs := [] |}
             low_priority_world) = []
  ∧ App.nextDisplayId_
      (Ui.st (Ui.dataSync ready "High" "All"
                {| Ui.st := signed_in "u1" complete_form "FIR-0002"; Ui.firs := [] |}
                low_priority_world))
    = "FIR-0001".
Proof.
  apply (filtered_sync_proposes_first_id ready
           {| Ui.st := signed_in "u1" complete_form "FIR-0002"; Ui.firs := [] |}
           low_priority_world "High" "All"); try reflexivity.
  intros d Hd. apply list_elem_of_singleton in Hd. by subst d.
Defined.

End Sequence.

(** ** Edits of the management table *)

Module UpdateFacts.

Lemma update_docs_ids id patch docs docs' :
  Backend.update_docs id patch docs = Some docs' →
  docs'.*1 = docs.*1
  ∧ (∀ j, j ≠ id → lookup_doc j docs' = lookup_doc j docs).
Proof.
  revert docs'. induction docs as [|[i d] docs IH]; intros docs'; [done|].
  cbn [Backend.update_docs]. destruct (decide (i = id)) as [->|Hne].
  - intros [= <-]. split; [done|]. intros j Hj. cbn [lookup_doc].
    by rewrite !decide_False by done.
  - destruct (Backend.update_docs id patch docs) as [docs''|]; [|done].
    intros [= <-]. destruct (IH _ eq_refl) as [Hids Hother]. split.
    + cbn. by rewrite Hids.
    + intros j Hj. cbn [lookup_doc]. destruct (decide (i = j)); [done|]. by apply Hother.
Qed.

(** Two patches of the same document, one after the other, are one patch. *)
Lemma update_docs_twice id p1 p2 docs docs1 :
  Backend.update_docs id p1 docs = Some docs1 →
  Backend.update_docs id p2 docs1 = Backend.update_docs id (p2 ∪ p1) docs.
Proof.
  revert docs1. induction docs as [|[i d] docs IH]; intros docs1; [done|].
  cbn [Backend.update_docs]. destruct (decide (i = id)) as [->|Hne].
  - intros [= <-]. cbn [Backend.update_docs]. rewrite decide_True by done.
    by rewrite (assoc_L (∪)).
  - destruct (Backend.update_docs id p1 docs) as [docs''|] eqn:E; [|done].
    intros [= <-]. cbn [Backend.update_docs]. rewrite decide_False by done.
    by rewrite (IH _ eq_refl).
Qed.

Lemma resolve_fieldPatch now field a ms :
  Backend.resolve now <$> App.fieldPatch field (VStr a) (Backend.timestamp_of_millis ms)
  = App.fieldPatch field (VStr a) (Backend.timestamp_of_millis ms).
Proof. unfold App.fieldPatch. by rewrite !fmap_insert, fmap_empty. Qed.

(** An edit of a stored issue by a signed-in user, with the backend up. *)
Lemma handleUpdateField_run g s id field a w d :
  App.db g = true → falsy_id (App.userId s) = false → firestore_up w = true →
  lookup_doc id (Backend.docs_at w (App.getCollectionPath g (App.userId s))) = Some d →
  ∃ docs',
    Backend.update_docs id
      (App.fieldPatch field (VStr a) (Backend.timestamp_of_millis (clock w)))
      (Backend.docs_at w (App.getCollectionPath g (App.userId s))) = Some docs'
    ∧ Ui.handleUpdateField g s id field (VStr a) w
      = record (Updated (App.getCollectionPath g (App.userId s)) id)
          (set_firestore (<[App.getCollectionPath g (App.userId s) := docs']> (firestore w)) w).
Proof.
  intros Hdb Hid Hup Hd.
  destruct (BackendFacts.update_docs_spec id
              (App.fieldPatch field (VStr a) (Backend.timestamp_of_millis (clock w))) _ d Hd)
    as (docs' & Hdocs & _).
  exists docs'. split; [exact Hdocs|].
  unfold Ui.handleUpdateField, App.updateIssueField. rewrite Hid, Hdb. cbn [negb orb].
  unfold bind, Backend.Timestamp_now, Backend.updateDoc.
  by rewrite Hup, resolve_fieldPatch, Hdocs.
Qed.

Lemma lookup_doc_fst id docs docs' :
  docs'.*1 = docs.*1 → is_Some (lookup_doc id docs) → is_Some (lookup_doc id docs').
Proof.
  revert docs'. induction docs as [|[i d] docs IH]; intros [|[i' d'] docs'] Hids;
    try discriminate Hids; [done|].
  cbn in Hids. injection Hids as -> Hids. cbn [lookup_doc].
  destruct (decide (i = id)); [by eauto|]. by apply IH.
Qed.

(** The database after two edits of one issue, the second some time
    after the first. *)
Lemma two_edits g s id f1 a f2 b t w d :
  App.db g = true → falsy_id (App.userId s) = false → firestore_up w = true →
  lookup_doc id (Backend.docs_at w (App.getCollectionPath g (App.userId s))) = Some d →
  ∃ docs',
    Backend.update_docs id
      (App.fieldPatch f2 (VStr b) (Backend.timestamp_of_millis (clock w + t))
       ∪ App.fieldPatch f1 (VStr a) (Backend.timestamp_of_millis (clock w)))
      (Backend.docs_at w (App.getCollectionPath g (App.userId s))) = Some docs'
    ∧ firestore (Ui.handleUpdateField g s id f2 (VStr b)
                   (advance t (Ui.handleUpdateField g s id f1 (VStr a) w)))
      = <[App.getCollectionPath g (App.userId s) := docs']> (firestore w).
Proof.
  intros Hdb Hid Hup Hd.
  destruct (handleUpdateField_run g s id f1 a w d Hdb Hid Hup Hd) as (docs1 & Hdocs1 & ->).
  set (path := App.getCollectionPath g (App.userId s)) in *.
  set (w1 := advance t (record (Updated path id)
                          (set_firestore (<[path := docs1]> (firestore w)) w))).
  assert (Hd1 : is_Some (lookup_doc id (Backend.docs_at w1 path))).
  { unfold w1, Backend.docs_at. cbn. rewrite lookup_insert_eq. cbn.
    eapply lookup_doc_fst; [|by rewrite Hd].
    by apply (update_docs_ids _ _ _ _ Hdocs1). }
  destruct Hd1 as [d1 Hd1].
  destruct (handleUpdateField_run g s id f2 b w1 d1 Hdb Hid Hup Hd1) as (docs2 & Hdocs2 & ->).
  assert (Hat : Backend.docs_at w1 path = docs1).
  { unfold w1, Backend.docs_at. cbn. by rewrite lookup_insert_eq. }
  fold path in Hdocs2. rewrite Hat in Hdocs2.
  rewrite (update_docs_twice _ _ _ _ _ Hdocs1) in Hdocs2.
  exists docs2. split; [exact Hdocs2|].
  fold path. cbn. by rewrite insert_insert_eq.
Qed.

(** X12: edits of two different mutable fields of one issue commute:
    whichever of the two is made first, and however much time lies between
    them, the database is the same afterwards, with both values stored and
    the modification time of the later edit. *)
Theorem edits_of_different_fields_commute (g : App.globals) (s : App.state) (w : world)
    (id f1 f2 a b : string) (t : Z) (d : jsobj) :
  App.db g = true → falsy_id (App.userId s) = false → firestore_up w = true →
  f1 ∈ mutable_fields → f2 ∈ mutable_fields → f1 ≠ f2 →
  lookup_doc id (Backend.docs_at w (App.getCollectionPath g (App.userId s))) = Some d →
  let w12 := Ui.handleUpdateField g s id f2 (VStr b)
               (advance t (Ui.handleUpdateField g s id f1 (VStr a) w)) in
  let w21 := Ui.handleUpdateField g s id f1 (VStr a)
               (advance t (Ui.handleUpdateField g s id f2 (VStr b) w)) in
  firestore w12 = firestore w21
  ∧ ∃ d', lookup_doc id (Backend.docs_at w12 (App.getCollectionPath g (App.userId s)))
          = Some d'
          ∧ d' !! f1 = Some (VStr a)
          ∧ d' !! f2 = Some (VStr b)
          ∧ d' !! "updatedAt" = Some (Backend.timestamp_of_millis (clock w + t)).
Proof.
  intros Hdb Hid Hup Hf1 Hf2 Hne Hd w12 w21.
  pose proof (FieldUpdate.mutable_field_not_updatedAt _ Hf1) as Hu1.
  pose proof (FieldUpdate.mutable_field_not_updatedAt _ Hf2) as Hu2.
  destruct (two_edits g s id f1 a f2 b t w d Hdb Hid Hup Hd) as (docs12 & Hdocs12 & H12).
  destruct (two_edits g s id f2 b f1 a t w d Hdb Hid Hup Hd) as (docs21 & Hdocs21 & H21).
  assert (Hpatch :
    App.fieldPatch f2 (VStr b) (Backend.timestamp_of_millis (clock w + t))
    ∪ App.fieldPatch f1 (VStr a) (Backend.timestamp_of_millis (clock w))
    = App.fieldPatch f1 (VStr a) (Backend.timestamp_of_millis (clock w + t))
      ∪ App.fieldPatch f2 (VStr b) (Backend.timestamp_of_millis (clock w))).
  { apply map_eq. intros k. unfold App.fieldPatch. rewrite !lookup_union.
    destruct (decide (k = "updatedAt")) as [->|Hk]; [by rewrite !lookup_insert_eq|].
    rewrite !(lookup_insert_ne _ "updatedAt") by done.
    destruct (decide (k = f1)) as [->|Hk1].
    { by rewrite lookup_insert_eq, lookup_insert_ne, lookup_empty by done. }
    destruct (decide (k = f2)) as [->|Hk2].
    { by rewrite lookup_insert_eq, lookup_insert_ne, lookup_empty by done. }
    by rewrite !lookup_insert_ne, lookup_empty by done. }
  rewrite Hpatch in Hdocs12. rewrite Hdocs12 in Hdocs21. injection Hdocs21 as <-.
  split; [subst w12 w21; by rewrite H12, H21|].
  rewrite <- Hpatch in Hdocs12.
  destruct (BackendFacts.update_docs_spec id
              (App.fieldPatch f2 (VStr b) (Backend.timestamp_of_millis (clock w + t))
               ∪ App.fieldPatch f1 (VStr a) (Backend.timestamp_of_millis (clock w))) _ d Hd)
    as (docs' & Hdocs' & Hl & _).
  rewrite Hdocs12 in Hdocs'. injection Hdocs' as <-.
  eexists. split.
  - unfold Backend.docs_at. subst w12. rewrite H12, lookup_insert_eq. exact Hl.
  - unfold App.fieldPatch. rewrite !lookup_union.
    rewrite !(lookup_insert_ne _ "updatedAt" f1), !(lookup_insert_ne _ "updatedAt" f2) by done.
    rewrite !lookup_insert_eq.
    rewrite (lookup_insert_ne _ f2 f1), (lookup_insert_ne _ f1 f2) by done.
    rewrite !lookup_empty. cbn.
    repeat split; [by destruct (d !! f1)|by destruct (d !! f2)|by destruct (d !! "updatedAt")].
Qed.

Lemma edits_of_different_fields_commute_witness :
  let w12 := Ui.handleUpdateField ready (signed_in "u1" complete_form "FIR-0002") "k3"
               "status" (VStr "In Progress")
               (advance 5000
                  (Ui.handleUpdateField ready (signed_in "u1" complete_form "FIR-0002") "k3"
                     "priority" (VStr "High") world_with_issue)) in
  let w21 := Ui.handleUpdateField ready (signed_in "u1" complete_form "FIR-0002") "k3"
               "priority" (VStr "High")
               (advance 5000
                  (Ui.handleUpdateField ready (signed_in "u1" complete_form "FIR-0002") "k3"
                     "status" (VStr "In Progress") world_with_issue)) in
  firestore w12 = firestore w21
  ∧ ∃ d', lookup_doc "k3"
            (Backend.docs_at w12
               (App.getCollectionPath ready
                  (App.userId (signed_in "u1" complete_form "FIR-0002"))))
          = Some d'
          ∧ d' !! "priority" = Some (VStr "High")
          ∧ d' !! "status" = Some (VStr "In Progress")
          ∧ d' !! "updatedAt"
            = Some (Backend.timestamp_of_millis (clock world_with_issue + 5000)).
Proof.
  apply (edits_of_different_fields_commute ready (signed_in "u1" complete_form "FIR-0002")
           world_with_issue "k3" "priority" "status" "High" "In Progress" 5000 stored_issue);
    try reflexivity.
  - apply list_elem_of_In. simpl. tauto.
  - apply list_elem_of_In. simpl. tauto.
  - discriminate.
Defined.

(** X13: the last writer wins: when a mutable field of an issue is
    edited twice, the database ends as if only the second edit had been
    made at its time; the first value leaves no trace. *)
Theorem last_edit_wins (g : App.globals) (s : App.state) (w : world)
    (id field a b : string) (t : Z) (d : jsobj) :
  App.db g = true → falsy_id (App.userId s) = false → firestore_up w = true →
  field ∈ mutable_fields →
  lookup_doc id (Backend.docs_at w (App.getCollectionPath g (App.userId s))) = Some d →
  firestore (Ui.handleUpdateField g s id field (VStr b)
               (advance t (Ui.handleUpdateField g s id field (VStr a) w)))
  = firestore (Ui.handleUpdateField g s id field (VStr b) (advance t w)).
Proof.
  intros Hdb Hid Hup Hf Hd.
  destruct (two_edits g s id field a field b t w d Hdb Hid Hup Hd) as (docs2 & Hdocs2 & ->).
  destruct (handleUpdateField_run g s id field b (advance t w) d Hdb Hid Hup Hd)
    as (docs1 & Hdocs1 & ->).
  assert (Hpatch :
    App.fieldPatch field (VStr b) (Backend.timestamp_of_millis (clock w + t))
    ∪ App.fieldPatch field (VStr a) (Backend.timestamp_of_millis (clock w))
    = App.fieldPatch field (VStr b) (Backend.timestamp_of_millis (clock w + t))).
  { apply map_eq. intros k. unfold App.fieldPatch. rewrite lookup_union.
    destruct (decide (k = "updatedAt")) as [->|Hk]; [by rewrite !lookup_insert_eq|].
    rewrite !(lookup_insert_ne _ "updatedAt") by done.
    destruct (decide (k = field)) as [->|Hk1].
    { by rewrite !lookup_insert_eq. }
    by rewrite !lookup_insert_ne, lookup_empty by done. }
  rewrite Hpatch in Hdocs2.
  change (Backend.docs_at (advance t w)) with (Backend.docs_at w) in Hdocs1.
  change (clock (advance t w)) with (clock w + t) in Hdocs1.
  rewrite Hdocs2 in Hdocs1. injection Hdocs1 as <-. reflexivity.
Qed.

Lemma last_edit_wins_witness :
  firestore (Ui.handleUpdateField ready (signed_in "u1" complete_form "FIR-0002") "k3"
               "status" (VStr "Completed")
               (advance 5000
                  (Ui.handleUpdateField ready (signed_in "u1" complete_form "FIR-0002") "k3"
                     "status" (VStr "In Progress") world_with_issue)))
  = firestore (Ui.handleUpdateField ready (signed_in "u1" complete_form "FIR-0002") "k3"
                 "status" (VStr "Completed") (advance 5000 world_with_issue)).
Proof.
  apply (last_edit_wins ready (signed_in "u1" complete_form "FIR-0002") world_with_issue
           "k3" "status" "In Progress" "Completed" 5000 stored_issue); try reflexivity.
  apply list_elem_of_In. simpl. tauto.
Defined.

(** X14: an edit never adds or removes a document and never touches
    another document or the bucket, whatever field, value and result; for
    an unknown issue id, and without a signed-in user, it leaves the
    backend exactly as it was. *)
Theorem handleUpdateField_keeps_documents (g : App.globals) (s : App.state)
    (id field : string) (x : value) (w : world) :
  let w' := Ui.handleUpdateField g s id field x w in
  (∀ p, (Backend.docs_at w' p).*1 = (Backend.docs_at w p).*1)
  ∧ (∀ p j, j ≠ id → lookup_doc j (Backend.docs_at w' p) = lookup_doc j (Backend.docs_at w p))
  ∧ bucket w' = bucket w
  ∧ (lookup_doc id (Backend.docs_at w (App.getCollectionPath g (App.userId s))) = None →
     w' = w)
  ∧ (falsy_id (App.userId s) = true → w' = w).
Proof.
  cbn zeta. unfold Ui.handleUpdateField, App.updateIssueField.
  destruct (falsy_id (App.userId s)); [done|]. cbn [orb].
  destruct (negb (App.db g)); [done|]. cbn [orb].
  unfold bind, Backend.Timestamp_now, Backend.updateDoc.
  destruct (firestore_up w); [|done].
  set (path := App.getCollectionPath g (App.userId s)).
  destruct (Backend.update_docs id _ (Backend.docs_at w path)) as [docs'|] eqn:Hup.
  - destruct (update_docs_ids _ _ _ _ Hup) as [Hids Hother]. cbn [snd].
    change (Backend.docs_at (record ?e ?w0)) with (Backend.docs_at w0).
    repeat split.
    + intros p. destruct (decide (path = p)) as [<-|Hp].
      * by rewrite BackendFacts.docs_at_set_firestore.
      * by rewrite BackendFacts.docs_at_set_firestore_ne.
    + intros p j Hj. destruct (decide (path = p)) as [<-|Hp].
      * rewrite BackendFacts.docs_at_set_firestore. by apply Hother.
      * by rewrite BackendFacts.docs_at_set_firestore_ne.
    + intros Hnone. by rewrite (BackendFacts.lookup_doc_None_update _ _ _ Hnone) in Hup.
    + done.
  - done.
Qed.

Lemma handleUpdateField_keeps_documents_witness :
  Ui.handleUpdateField ready (signed_in "u1" complete_form "FIR-0002") "unknown"
    "status" (VStr "Completed") world_with_issue
  = world_with_issue.
Proof.
  destruct (handleUpdateField_keeps_documents ready
              (signed_in "u1" complete_form "FIR-0002")
              "unknown" "status" (VStr "Completed") world_with_issue)
    as (_ & _ & _ & Hunknown & _).
  apply Hunknown. reflexivity.
Defined.

End UpdateFacts.

(** ** The dashboard *)

Module Dashboard.

Local Open Scope nat_scope.

Lemma pending_not_completed f : Ui.is_pending f = true → Ui.is_completed f = false.
Proof.
  unfold Ui.is_pending, Ui.is_completed, Ui.strict_eq.
  intros [H|H]%orb_true_iff; apply bool_decide_eq_true in H;
    apply bool_decide_eq_false; rewrite H; discriminate.
Qed.

Lemma length_filter_le {A} (f : A → bool) l : length (List.filter f l) ≤ length l.
Proof. induction l as [|x l IH]; simpl; [done|]. destruct (f x); simpl; lia. Qed.

(** X15: the tiles are consistent: no issue is counted both as pending
    and as completed, so the total is the pending ones plus the completed
    ones plus those that are neither (canceled, or of another status); and
    no tile shows more than the total. *)
Theorem tiles_partition (firs : list jsobj) :
  Ui.totalIssues firs
  = Ui.pendingIssues firs + Ui.completedIssues firs
    + length (List.filter (λ f, negb (Ui.is_pending f) && negb (Ui.is_completed f)) firs)
  ∧ Ui.pendingIssues firs + Ui.completedIssues firs ≤ Ui.totalIssues firs
  ∧ Ui.highPriorityIssues firs ≤ Ui.totalIssues firs.
Proof.
  assert (H : Ui.totalIssues firs
              = Ui.pendingIssues firs + Ui.completedIssues firs
                + length (List.filter
                            (λ f, negb (Ui.is_pending f) && negb (Ui.is_completed f)) firs)).
  { unfold Ui.totalIssues, Ui.pendingIssues, Ui.completedIssues.
    induction firs as [|f firs IH]; [done|]. cbn [List.filter length].
    destruct (Ui.is_pending f) eqn:Hp.
    - rewrite (pending_not_completed f Hp). cbn [negb andb length]. lia.
    - destruct (Ui.is_completed f); cbn [negb andb length]; lia. }
  split; [exact H|]. split; [lia|]. apply length_filter_le.
Qed.

Lemma filter_sublist {A} (f : A → bool) l : sublist (List.filter f l) l.
Proof.
  induction l as [|x l IH]; simpl; [done|].
  destruct (f x); [by apply sublist_skip|by apply sublist_cons].
Qed.

(** X16: the quick view shows the first five pending issues of the
    list, in its order: at most five rows, all of them pending, five as
    soon as five issues are pending, and no row exactly when the pending
    tile shows 0, which is when the empty message is shown. *)
Theorem topPending_rows (firs : list jsobj) :
  length (Ui.topPending firs) = Nat.min 5 (Ui.pendingIssues firs)
  ∧ Forall (λ f, Ui.is_pending f = true) (Ui.topPending firs)
  ∧ sublist (Ui.topPending firs) firs
  ∧ (Ui.topPending firs = [] ↔ Ui.pendingIssues firs = 0)
  ∧ Ui.topPending seven_issues
    = [ issue_of_status "FIR-0007" "Submitted"; issue_of_status "FIR-0006" "In Progress";
        issue_of_status "FIR-0004" "Submitted"; issue_of_status "FIR-0003" "Submitted";
        issue_of_status "FIR-0002" "In Progress" ].
Proof.
  unfold Ui.topPending, Ui.pendingIssues. repeat split.
  - apply length_take.
  - apply Forall_take, Forall_forall. intros f Hf.
    apply list_elem_of_In, filter_In in Hf. tauto.
  - etrans; [apply sublist_take|apply filter_sublist].
  - intros H. destruct (List.filter Ui.is_pending firs); [done|discriminate].
  - intros H. destruct (List.filter Ui.is_pending firs); [done|discriminate].
Qed.

(** X17: every status the table offers has a badge of its own, and the
    grey default badge is given exactly to a status that is none of the
    four options. *)
Theorem getStatusBadge_options (status : option value) :
  (Ui.getStatusBadge status = "badge bg-secondary"
   ↔ ∀ s, s ∈ Ui.STATUS_OPTIONS → status ≠ Some (VStr s))
  ∧ (∀ s1 s2, s1 ∈ Ui.STATUS_OPTIONS → s2 ∈ Ui.STATUS_OPTIONS →
              Ui.getStatusBadge (Some (VStr s1)) = Ui.getStatusBadge (Some (VStr s2)) →
              s1 = s2).
Proof.
  split.
  - unfold Ui.getStatusBadge, Ui.strict_eq. split.
    + intros H s Hs ->. apply list_elem_of_In in Hs. simpl in Hs.
      destruct Hs as [<-|[<-|[<-|[<-|[]]]]]; discriminate H.
    + intros H. repeat case_bool_decide; try done; subst status;
        exfalso; (eapply H; [|reflexivity]); apply list_elem_of_In; simpl; tauto.
  - intros s1 s2 H1 H2. apply list_elem_of_In in H1, H2. simpl in H1, H2.
    destruct H1 as [<-|[<-|[<-|[<-|[]]]]], H2 as [<-|[<-|[<-|[<-|[]]]]];
      first [reflexivity | discriminate].
Qed.

End Dashboard.

(** ** A creation seen from the dashboard; the two clients *)

Module Visibility.

Local Open Scope nat_scope.

Lemma length_filter_perm {A} (f : A → bool) l l' :
  Permutation l l' → length (List.filter f l) = length (List.filter f l').
Proof.
  induction 1 as [|x l l' _ IH|x y l|l l' l'' _ IH1 _ IH2]; simpl.
  - done.
  - destruct (f x); simpl; lia.
  - destruct (f x), (f y); simpl; lia.
  - lia.
Qed.

(** X18: a creation that resolved shows on the unfiltered dashboard as
    one issue more in the total and in the pending tile, none more in the
    completed tile, and one more in the high-priority tile exactly when the
    form asked for High or Critical. *)
Theorem created_issue_counts_as_pending (g : App.globals) (userId : option string)
    (formData : form) (displayId : string) (w w' : world) (issues : list jsobj) :
  App.createNewIssue g userId formData displayId w = (Ok tt, w') →
  App.subscribeToIssues g userId "All" "All" w = Some issues →
  ∃ issues',
    App.subscribeToIssues g userId "All" "All" w' = Some issues'
    ∧ Ui.totalIssues issues' = S (Ui.totalIssues issues)
    ∧ Ui.pendingIssues issues' = S (Ui.pendingIssues issues)
    ∧ Ui.completedIssues issues' = Ui.completedIssues issues
    ∧ Ui.highPriorityIssues issues'
      = Ui.highPriorityIssues issues
        + (if bool_decide (priority formData = "High")
              || bool_decide (priority formData = "Critical") then 1 else 0).
Proof.
  intros Hrun Hsub.
  destruct (RoundTrip.subscribe_after_create _ _ _ _ "All" "All" _ _ _ Hrun Hsub)
    as (id & imageUrl & c & u & issues' & Hsub' & Hperm).
  cbn zeta in Hperm. rewrite !RoundTrip.passes_All in Hperm. cbn [andb] in Hperm.
  exists issues'. split; [exact Hsub'|].
  unfold Ui.totalIssues, Ui.pendingIssues, Ui.completedIssues, Ui.highPriorityIssues.
  rewrite (Permutation_length Hperm), !(length_filter_perm _ _ _ Hperm).
  rewrite !List.filter_app, !length_app.
  set (fir := issue_of_doc _).
  assert (Hp : Ui.is_pending fir = true) by reflexivity.
  assert (Hc : Ui.is_completed fir = false) by reflexivity.
  assert (Hh : Ui.is_high_priority fir
               = bool_decide (priority formData = "High")
                 || bool_decide (priority formData = "Critical")).
  { unfold Ui.is_high_priority, Ui.strict_eq.
    assert (fir !! "priority" = Some (VStr (priority formData))) as -> by reflexivity.
    f_equal; apply bool_decide_ext; split; congruence. }
  cbn [List.filter]. rewrite Hp, Hc, Hh. cbn [length].
  repeat split; try lia.
  destruct (bool_decide _ || bool_decide _); cbn [length]; lia.
Qed.

Lemma created_issue_counts_as_pending_witness :
  ∃ issues',
    App.subscribeToIssues ready (Some "u1") "All" "All"
      (App.createNewIssue ready (Some "u1") complete_form "FIR-0005"
         four_priorities_world).2
    = Some issues'
    ∧ Ui.totalIssues issues'
      = S (Ui.totalIssues
             (default [] (App.subscribeToIssues ready (Some "u1") "All" "All"
                            four_priorities_world)))
    ∧ Ui.pendingIssues issues'
      = S (Ui.pendingIssues
             (default [] (App.subscribeToIssues ready (Some "u1") "All" "All"
                            four_priorities_world)))
    ∧ Ui.completedIssues issues'
      = Ui.completedIssues
          (default [] (App.subscribeToIssues ready (Some "u1") "All" "All"
                         four_priorities_world))
    ∧ Ui.highPriorityIssues issues'
      = Ui.highPriorityIssues
          (default [] (App.subscribeToIssues ready (Some "u1") "All" "All"
                         four_priorities_world))
        + (if bool_decide (priority complete_form = "High")
              || bool_decide (priority complete_form = "Critical") then 1 else 0).
Proof.
  apply (created_issue_counts_as_pending ready (Some "u1") complete_form "FIR-0005"
           four_priorities_world
           (App.createNewIssue ready (Some "u1") complete_form "FIR-0005"
              four_priorities_world).2); reflexivity.
Defined.

Lemma run_query_ext q w w' :
  Backend.docs_at w' (Backend.q_path q) = Backend.docs_at w (Backend.q_path q) →
  Backend.run_query q w' = Backend.run_query q w.
Proof. intros H. unfold Backend.run_query. by rewrite H. Qed.

Lemma paths_differ g userId : App.getCollectionPath g userId ≠ FirestoreApi.ISSUES_COLLECTION.
Proof. unfold App.getCollectionPath. discriminate. Qed.

Lemma addDoc_other_paths path data w p :
  p ≠ path → Backend.docs_at (Backend.addDoc path data w).2 p = Backend.docs_at w p.
Proof.
  intros Hp. unfold Backend.addDoc. destruct (firestore_up w); [|done].
  cbn [snd]. change (Backend.docs_at (record ?e (set_next_id ?n ?w0))) with (Backend.docs_at w0).
  by apply BackendFacts.docs_at_set_firestore_ne.
Qed.

Lemma App_create_other_paths g userId formData displayId w p :
  p ≠ App.getCollectionPath g userId →
  Backend.docs_at (App.createNewIssue g userId formData displayId w).2 p
  = Backend.docs_at w p.
Proof.
  intros Hp. unfold App.createNewIssue.
  destruct (negb (App.db g) || negb (App.storage g) || falsy_id userId); [done|].
  unfold bind, ret, Backend.Date_now, Backend.uploadBytes, Backend.getDownloadURL,
    Backend.Timestamp_now.
  destruct (imageFile formData) as [f|].
  - destruct (storage_up w) eqn:Hsup; [|done].
    cbn [storage_up record set_bucket bucket]. rewrite Hsup, lookup_insert_eq.
    match goal with |- context [Backend.addDoc ?c ?d ?w1] =>
      pose proof (addDoc_other_paths c d w1 p Hp) as H;
      destruct (Backend.addDoc c d w1) as [[id|e] w2]
    end; exact H.
  - match goal with |- context [Backend.addDoc ?c ?d ?w1] =>
      pose proof (addDoc_other_paths c d w1 p Hp) as H;
      destruct (Backend.addDoc c d w1) as [[id|e] w2]
    end; exact H.
Qed.

Lemma FirestoreApi_create_other_paths formData customId w p :
  p ≠ FirestoreApi.ISSUES_COLLECTION →
  Backend.docs_at (FirestoreApi.createNewIssue formData customId w).2 p
  = Backend.docs_at w p.
Proof.
  intros Hp. unfold FirestoreApi.createNewIssue.
  unfold bind, ret, Backend.Date_now, Backend.uploadBytes, Backend.getDownloadURL,
    Backend.Date_toLocaleString.
  destruct (imageFile formData) as [f|].
  - destruct (storage_up w) eqn:Hsup; [|done].
    cbn [storage_up record set_bucket bucket]. rewrite Hsup, lookup_insert_eq.
    match goal with |- context [Backend.addDoc ?c ?d ?w1] =>
      pose proof (addDoc_other_paths c d w1 p Hp) as H;
      destruct (Backend.addDoc c d w1) as [[id|e] w2]
    end; exact H.
  - match goal with |- context [Backend.addDoc ?c ?d ?w1] =>
      pose proof (addDoc_other_paths c d w1 p Hp) as H;
      destruct (Backend.addDoc c d w1) as [[id|e] w2]
    end; exact H.
Qed.

(** X19: the two clients do not see each other's issues: the
    stand-alone module writes to [maintenance_issues] and the application
    to [artifacts/{appId}/public/data/firs], so a creation by one of them,
    whatever its result, leaves what the other one's subscription delivers
    as it was. *)
Theorem clients_do_not_share_issues (g : App.globals) (userId : option string)
    (formData : form) (displayId pf df : string) (w : world) :
  App.subscribeToIssues g userId pf df (FirestoreApi.createNewIssue formData displayId w).2
  = App.subscribeToIssues g userId pf df w
  ∧ FirestoreApi.subscribeToIssues (App.createNewIssue g userId formData displayId w).2
    = FirestoreApi.subscribeToIssues w.
Proof.
  split.
  - unfold App.subscribeToIssues.
    destruct (negb (App.db g) || falsy_id userId); [done|]. do 2 f_equal.
    apply run_query_ext.
    rewrite (proj2 (Subscription.issuesQuery_unordered g userId pf df)).
    apply FirestoreApi_create_other_paths, paths_differ.
  - unfold FirestoreApi.subscribeToIssues. f_equal. apply run_query_ext.
    apply App_create_other_paths. intros H. by apply (paths_differ g userId).
Qed.

End Visibility.

(** ** The search term *)

Module SearchFacts.

Lemma ci_substring_trans t1 t2 s : ci_substring t1 t2 → ci_substring t2 s → ci_substring t1 s.
Proof.
  intros (p1 & q1 & H1) (p2 & q2 & H2).
  exists (p2 +:+ p1), (q1 +:+ q2). rewrite H2, H1. by rewrite !JsFacts.app_assoc.
Qed.

Lemma ci_substring_extend pre t post :
  is_ascii pre = true → is_ascii t = true → is_ascii post = true →
  ci_substring t (pre +:+ t +:+ post).
Proof.
  intros Hpre Ht Hpost.
  exists (Js.toLowerCase pre), (Js.toLowerCase post).
  rewrite Search.toLowerCase_app, Search.toLowerCase_app; try done.
  by rewrite Search.is_ascii_app, Ht, Hpost.
Qed.

Lemma ci_substring_empty s : ci_substring EmptyString s.
Proof. exists EmptyString, (Js.toLowerCase s). reflexivity. Qed.

Lemma search_hit_mono t1 t2 fir : ci_substring t1 t2 → search_hit t2 fir → search_hit t1 fir.
Proof.
  intros Ht (f & s & Hf & Hs & Hsub). exists f, s. repeat split; try done.
  by eapply ci_substring_trans.
Qed.

Lemma filter_sublist_impl {A} (f h : A → bool) l :
  (∀ x, x ∈ l → f x = true → h x = true) → sublist (List.filter f l) (List.filter h l).
Proof.
  induction l as [|x l IH]; intros Hfh; simpl; [done|].
  assert (IH' : sublist (List.filter f l) (List.filter h l)).
  { apply IH. intros y Hy. apply Hfh. by right. }
  destruct (f x) eqn:Hf.
  - rewrite (Hfh x) by (done || by left). by apply sublist_skip.
  - destruct (h x); [by apply sublist_cons|done].
Qed.

(** X20: typing more characters narrows the table, for a term in
    ASCII: the issues found for the term extended by ASCII text at its end
    or its front are, in order, among the issues found for the term itself.
    (Beyond ASCII this is not so: the lower-case form of a longer term need
    not contain that of the shorter one.) *)
Theorem longer_term_narrows (firs : list jsobj) (term pre post : string) :
  Forall text_fields firs →
  is_ascii pre = true → is_ascii term = true → is_ascii post = true →
  ∃ found found',
    App.filteredFirs firs term = Ok found
    ∧ App.filteredFirs firs (pre +:+ term +:+ post) = Ok found'
    ∧ sublist found' found
    ∧ sublist found firs.
Proof.
  intros Hty Hpre Hterm Hpost. exists (List.filter (hits term) firs),
    (List.filter (hits (pre +:+ term +:+ post)) firs).
  rewrite !RoundTrip.filteredFirs_filter by done. repeat split.
  - apply filter_sublist_impl. intros fir Hfir.
    assert (Hfir' : text_fields fir).
    { rewrite Forall_forall in Hty. by apply Hty. }
    rewrite !RoundTrip.hits_spec by done.
    by apply search_hit_mono, ci_substring_extend.
  - apply Dashboard.filter_sublist.
Qed.

Lemma longer_term_narrows_witness :
  ∃ found found',
    App.filteredFirs searched_issues "oom" = Ok found
    ∧ App.filteredFirs searched_issues ("R" +:+ "oom" +:+ " 3") = Ok found'
    ∧ sublist found' found
    ∧ sublist found searched_issues.
Proof.
  apply (longer_term_narrows searched_issues "oom" "R" " 3"); try reflexivity.
  repeat constructor; intros f Hf; apply list_elem_of_In in Hf; simpl in Hf;
    unfold string_or_missing;
    repeat (destruct Hf as [<-|Hf]; [exact I|]); destruct Hf.
Defined.

Lemma field_includes_term fir f t1 t2 :
  Js.toLowerCase t1 = Js.toLowerCase t2 →
  App.field_includes fir f t1 = App.field_includes fir f t2.
Proof. intros H. unfold App.field_includes. by rewrite H. Qed.

(** X21: the search does not look at the case of an ASCII term: two
    terms that have the same letters place by place, capital and small
    letters of the alphabet taken as the same, find the same issues (or
    fail alike), on any list of issues. *)
Theorem term_case_is_ignored (firs : list jsobj) (term term' : string) :
  is_ascii term = true → is_ascii term' = true →
  eq_ignoring_case term term' = true →
  App.filteredFirs firs term = App.filteredFirs firs term'.
Proof.
  intros Hterm Hterm' Hsame.
  apply (Search.toLowerCase_eq term term' Hterm Hterm') in Hsame.
  induction firs as [|fir firs IH]; [done|].
  cbn [App.filteredFirs]. rewrite IH. unfold App.searchMatch.
  by rewrite !(field_includes_term fir _ term term' Hsame).
Qed.

Lemma term_case_is_ignored_witness :
  App.filteredFirs searched_issues "ROOM 3" = App.filteredFirs searched_issues "Room 3".
Proof.
  apply (term_case_is_ignored searched_issues "ROOM 3" "Room 3"); reflexivity.
Defined.

(** X22: with the empty term, which is the initial state of the search
    box, the table keeps exactly the issues that have a string in one of
    the four searched fields: all of them when every issue has its room
    number, while an issue with none of the four fields is not shown. *)
Theorem empty_term_keeps_issues_with_text (firs : list jsobj) :
  Forall text_fields firs →
  ∃ found,
    App.filteredFirs firs "" = Ok found
    ∧ sublist found firs
    ∧ (∀ fir, fir ∈ found ↔
              fir ∈ firs ∧ ∃ f s, f ∈ search_fields ∧ fir !! f = Some (VStr s))
    ∧ (Forall (λ fir, ∃ s, fir !! "roomNumber" = Some (VStr s)) firs → found = firs).
Proof.
  intros Hty. exists (List.filter (hits "") firs).
  rewrite RoundTrip.filteredFirs_filter by done.
  assert (Hhit : ∀ fir, fir ∈ firs →
            hits "" fir = true ↔ ∃ f s, f ∈ search_fields ∧ fir !! f = Some (VStr s)).
  { intros fir Hfir. rewrite Forall_forall in Hty.
    rewrite RoundTrip.hits_spec by (by apply Hty). unfold search_hit. split.
    - intros (f & s & ? & ? & _). by exists f, s.
    - intros (f & s & ? & ?). exists f, s. repeat split; try done.
      apply ci_substring_empty. }
  split; [done|]. split; [apply Dashboard.filter_sublist|]. split.
  - intros fir. rewrite !list_elem_of_In, filter_In, <- !list_elem_of_In. split.
    + intros [Hin Hh]. split; [done|]. by apply Hhit.
    + intros [Hin Hf]. split; [done|]. by apply Hhit.
  - intros Hroom. clear Hty. induction firs as [|fir firs IH]; [done|].
    apply Forall_cons in Hroom as [(s & Hs) Hroom]. cbn [List.filter].
    rewrite (proj2 (Hhit fir ltac:(by left))).
    + f_equal. apply IH; [|done]. intros x Hx. apply Hhit. by right.
    + exists "roomNumber", s. split; [|done]. apply list_elem_of_In; simpl; tauto.
Qed.

Lemma empty_term_keeps_issues_with_text_witness :
  ∃ found,
    App.filteredFirs (∅ :: searched_issues) "" = Ok found
    ∧ sublist found (∅ :: searched_issues)
    ∧ (∀ fir, fir ∈ found ↔
              fir ∈ ∅ :: searched_issues
              ∧ ∃ f s, f ∈ search_fields ∧ fir !! f = Some (VStr s))
    ∧ (Forall (λ fir, ∃ s, fir !! "roomNumber" = Some (VStr s)) (∅ :: searched_issues)
       → found = ∅ :: searched_issues).
Proof.
  apply (empty_term_keeps_issues_with_text (∅ :: searched_issues)).
  repeat constructor; intros f Hf; apply list_elem_of_In in Hf; simpl in Hf;
    unfold string_or_missing;
    repeat (destruct Hf as [<-|Hf]; [exact I|]); destruct Hf.
Defined.

End SearchFacts.

(** ** Issues of the same second *)

Module Stability.

Lemma insert_sorted_same_second s x l :
  List.filter (created_in_second s) (JsArray.insert_sorted App.newest_first x l)
  = List.filter (created_in_second s) (x :: l).
Proof.
  induction l as [|y l IH]; [done|].
  cbn [JsArray.insert_sorted]. unfold App.newest_first at 1.
  destruct (Z.leb_spec (App.createdAt_seconds y - App.createdAt_seconds x) 0) as [H|H];
    [done|].
  cbn [List.filter] in *. rewrite IH. unfold created_in_second.
  destruct (Z.eqb_spec (App.createdAt_seconds x) s), (Z.eqb_spec (App.createdAt_seconds y) s);
    try done; lia.
Qed.

Lemma sort_same_second s l :
  List.filter (created_in_second s) (JsArray.sort App.newest_first l)
  = List.filter (created_in_second s) l.
Proof.
  induction l as [|x l IH]; [done|].
  cbn [JsArray.sort]. rewrite insert_sorted_same_second. cbn [List.filter]. by rewrite IH.
Qed.

(** X23: the sort in memory never reorders issues of the same second:
    for every second, the issues created in it are delivered in the order
    in which the snapshot had them. *)
Theorem equal_seconds_keep_snapshot_order (g : App.globals) (userId : option string)
    (priorityFilter departmentFilter : string) (w : world) (issues : list jsobj) (s : Z) :
  App.subscribeToIssues g userId priorityFilter departmentFilter w = Some issues →
  List.filter (created_in_second s) issues
  = List.filter (created_in_second s)
      (issue_of_doc <$>
         Backend.run_query (App.issuesQuery g userId priorityFilter departmentFilter) w).
Proof.
  intros ->%Subscription.subscribeToIssues_Some. unfold App.on_snapshot.
  apply sort_same_second.
Qed.

Lemma equal_seconds_keep_snapshot_order_witness :
  List.filter (created_in_second 1700000000)
    (default [] (App.subscribeToIssues ready (Some "u1") "All" "All" same_second_world))
  = List.filter (created_in_second 1700000000)
      (issue_of_doc <$>
         Backend.run_query (App.issuesQuery ready (Some "u1") "All" "All") same_second_world).
Proof.
  apply (equal_seconds_keep_snapshot_order ready (Some "u1") "All" "All" same_second_world).
  reflexivity.
Defined.

End Stability.

(** ** The configuration of Firebase *)

Module Configuration.

(** X24: the computation of the configuration, up to the call of
    [initializeApp]: when it completes, the object it leaves in
    [firebaseConfig] has a truthy project id; it is the parsed object
    itself when that has one, and otherwise the fallback as a whole, none
    of the parsed properties being kept.  The computation itself throws on
    one input only, a configuration that parses to [null], whose
    [projectId] cannot be read.  What [initializeApp] and the calls after
    it do with the object is not part of this statement. *)
Theorem firebaseConfig_has_projectId (p : FirebaseConfig.parsed) :
  match FirebaseConfig.firebaseConfig p with
  | Ok config =>
      FirebaseConfig.truthy_value (config !! "projectId") = true
      ∧ (p = FirebaseConfig.ParsedObject config ∨ config = FirebaseConfig.fallback)
      ∧ (config = FirebaseConfig.fallback ↔
         match p with
         | FirebaseConfig.ParsedObject o =>
             FirebaseConfig.truthy_value (o !! "projectId") = false
             ∨ o = FirebaseConfig.fallback
         | _ => True
         end)
  | Throw _ => p = FirebaseConfig.ParsedNull
  end.
Proof.
  destruct p as [| |o|]; cbn [FirebaseConfig.firebaseConfig].
  - split; [reflexivity|]. split; [by right|done].
  - done.
  - destruct (FirebaseConfig.truthy_value (o !! "projectId")) eqn:E.
    + split; [done|]. split; [by left|]. split; [by right|].
      intros [H|H]; [discriminate H|done].
    + split; [reflexivity|]. split; [by right|]. split; [by left|done].
  - split; [reflexivity|]. split; [by right|done].
Qed.

End Configuration.

(** ** From the inputs to the record *)

Module FormFacts.

(** X25: what a signed-in user types into the four inputs is what the
    submission stores, whatever the form held before; of the files picked
    only the first is uploaded, to the path of the user, and its URL is
    stored; with no file picked nothing is uploaded and the image URL is
    null. *)
Theorem filled_form_is_stored (g : App.globals) (s : App.state) (w : world)
    (uid room title text prio : string) (files : list file) :
  App.db g = true → App.storage g = true →
  App.userId s = Some uid → truthy uid = true →
  truthy room = true → truthy title = true → truthy text = true →
  firestore_up w = true → storage_up w = true →
  ∃ id rec s' w',
    App.handleSubmit g (fill_in room title text prio files s) w = (App.Submitted, s', w')
    ∧ Backend.docs_at w' (App.getCollectionPath g (Some uid))
      = Backend.docs_at w (App.getCollectionPath g (Some uid)) ++ [(id, rec)]
    ∧ rec !! "roomNumber" = Some (VStr room)
    ∧ rec !! "issueTitle" = Some (VStr title)
    ∧ rec !! "description" = Some (VStr text)
    ∧ rec !! "priority" = Some (VStr prio)
    ∧ rec !! "displayId" = Some (VStr (App.nextDisplayId_ s))
    ∧ rec !! "imageUrl"
      = Some match head files with
             | Some f => VStr (url_of w (App.storagePath uid (clock w) f))
             | None => VNull
             end
    ∧ bucket w'
      = match head files with
        | Some f => <[App.storagePath uid (clock w) f := f]> (bucket w)
        | None => bucket w
        end
    ∧ App.formData s' = App.initial_formData.
Proof.
  intros Hdb Hst Hu Huid H1 H2 H3 Hfup Hsup.
  assert (Hid : falsy_id (Some uid) = false) by (cbn; by rewrite Huid).
  set (s1 := fill_in room title text prio files s).
  set (fd := {| roomNumber := room; issueTitle := title; description := text;
                priority := prio; imageFile := head files |}).
  assert (Hfd : App.formData s1 = fd) by reflexivity.
  assert (Hu1 : App.userId s1 = Some uid) by exact Hu.
  assert (Hn1 : App.nextDisplayId_ s1 = App.nextDisplayId_ s) by reflexivity.
  assert (Hrun : ∃ id rec w',
             App.createNewIssue g (Some uid) fd (App.nextDisplayId_ s) w = (Ok tt, w')
             ∧ Backend.docs_at w' (App.getCollectionPath g (Some uid))
               = Backend.docs_at w (App.getCollectionPath g (Some uid)) ++ [(id, rec)]
             ∧ rec !! "imageUrl"
               = Some match head files with
                      | Some f => VStr (url_of w (App.storagePath uid (clock w) f))
                      | None => VNull
                      end
             ∧ bucket w'
               = match head files with
                 | Some f => <[App.storagePath uid (clock w) f := f]> (bucket w)
                 | None => bucket w
                 end).
  { destruct (head files) as [f|] eqn:Hf.
    - destruct (Creation.App_createNewIssue_with_image g w (Some uid) fd
                  (App.nextDisplayId_ s) f Hdb Hst Hid eq_refl Hsup Hfup)
        as (id & rec & w' & Hr & _ & Hb & Hd & Hi).
      by exists id, rec, w'.
    - destruct (Creation.App_createNewIssue_no_image g w (Some uid) fd
                  (App.nextDisplayId_ s) Hdb Hst Hid eq_refl Hfup)
        as (id & rec & w' & Hr & Hd & Hi & _ & _ & _ & Hb & _).
      by exists id, rec, w'. }
  destruct Hrun as (id & rec & w' & Hrun & Hdocs & Himg & Hbucket).
  destruct (CreationFacts.createNewIssue_Ok _ _ _ _ _ _ Hrun)
    as (id' & imageUrl & c & u & Hdocs' & _).
  rewrite Hdocs in Hdocs'. apply app_inj_tail in Hdocs' as [_ [= -> Hrec]].
  destruct (CreationFacts.newIssue_lookup (clock w) uid fd (App.nextDisplayId_ s)
              imageUrl c u) as (Ldid & Lroom & Ltitle & Ltext & Lprio & _).
  cbn zeta in Ldid, Lroom, Ltitle, Ltext, Lprio. cbn [default] in Hrec.
  rewrite <- Hrec in Ldid, Lroom, Ltitle, Ltext, Lprio.
  unfold App.handleSubmit.
  cbn [App.userId App.formData App.nextDisplayId_ App.set_loading].
  rewrite !Hu1, Hid, !Hfd, Hn1. subst fd. cbn [roomNumber issueTitle description].
  rewrite H1, H2, H3. cbn [negb orb]. rewrite Hrun.
  eexists id', rec, _, w'. split; [reflexivity|]. split; [exact Hdocs|].
  repeat split; done.
Qed.

Lemma filled_form_is_stored_witness :
  ∃ id rec s' w',
    App.handleSubmit ready
      (fill_in "Room 12" "Tap drips" "All night" "Low" [photo; second_photo]
         (signed_in "u1" complete_form "FIR-0002")) world_with_issue
    = (App.Submitted, s', w')
    ∧ Backend.docs_at w' (App.getCollectionPath ready (Some "u1"))
      = Backend.docs_at world_with_issue (App.getCollectionPath ready (Some "u1"))
        ++ [(id, rec)]
    ∧ rec !! "roomNumber" = Some (VStr "Room 12")
    ∧ rec !! "issueTitle" = Some (VStr "Tap drips")
    ∧ rec !! "description" = Some (VStr "All night")
    ∧ rec !! "priority" = Some (VStr "Low")
    ∧ rec !! "displayId" = Some (VStr "FIR-0002")
    ∧ rec !! "imageUrl"
      = Some (VStr (url_of world_with_issue
                      (App.storagePath "u1" (clock world_with_issue) photo)))
    ∧ bucket w'
      = <[App.storagePath "u1" (clock world_with_issue) photo := photo]>
          (bucket world_with_issue)
    ∧ App.formData s' = App.initial_formData.
Proof.
  apply (filled_form_is_stored ready (signed_in "u1" complete_form "FIR-0002")
           world_with_issue "u1" "Room 12" "Tap drips" "All night" "Low"
           [photo; second_photo]); reflexivity.
Defined.

End FormFacts.
